(** * SpaPy raster core: a shallow embedding of [SpaPy/SpaRasters.py]

    The development follows the Python module function by function.

    - Python floats (pixel values, reference coordinates, pixel sizes) are
      exact rationals in canonical form ([Qc]), so that Python's [==] is
      Leibniz equality; pixel indices and sizes in pixels are [Z].
      Double precision rounds where the rationals do not.  A property
      that states an index or a size in pixels computed from coordinates
      is therefore stated for whole numbers ([whole], [small]), on which
      the two arithmetics agree; elsewhere an equation between
      coordinates, pixel sizes or pixel values holds in the source up to
      the rounding of that number.
    - numpy arrays are mutable objects: an [ndarray] is a rectangular
      window onto a buffer held in a store, so that copies
      ([numpy.array]), views (basic slicing) and in-place writes can be
      told apart.  Boolean arrays hold 0 and 1.  The element type of an
      array is not recorded: the arithmetic of an array is that of the
      rationals, which is numpy's for [float64] arrays up to rounding
      ([loaded_float64]) and not for integer arrays, where numpy wraps
      around; [astype(int)] is truncation, which is numpy's where the
      result fits 64 bits ([fits_int64]).
    - A dataset object is a record whose array attributes are references
      into the store; methods that can raise run in a state-and-exception
      monad over the store.
    - GDAL ([gdal.Translate]), scipy ([scipy.ndimage.zoom]) and the numpy
      functions with no exact rational counterpart are collaborators: a
      type class whose operations the theorems quantify over. *)

From Stdlib Require Import QArith Qcanon Qround ZArith String.
From stdpp Require Import base numbers list option strings.

Local Open Scope Z_scope.
Local Open Scope Qc_scope.

(** ** Numbers *)

Definition Qc_ltb (x y : Qc) : bool := bool_decide (x < y).
Definition Qc_leb (x y : Qc) : bool := bool_decide (x ≤ y).
Definition Qc_eqb (x y : Qc) : bool := bool_decide (x = y).

(** Python truthiness of a number, and the number of a truth value. *)
Definition truthy (x : Qc) : bool := negb (Qc_eqb x 0).
Definition of_bool (b : bool) : Qc := if b then 1 else 0.

(** [int(x)] and [ndarray.astype(int)]: truncation toward zero.  Python's
    [int] is unbounded; numpy's is a 64-bit integer, see [fits_int64]. *)
Definition py_int (x : Qc) : Z := Z.quot (Qnum (this x)) (Zpos (Qden (this x))).

(** ** Exceptions and the store monad *)

Inductive exn : Type :=
  | Exception (msg : string)   (* raise Exception("...") *)
  | TypeError
  | AttributeError
  | NameError
  | IndexError
  | ValueError
  | ZeroDivisionError
  | RuntimeError.

Inductive result (A : Type) : Type :=
  | Ok (a : A)
  | Raise (e : exn).
Arguments Ok {A} a.
Arguments Raise {A} e.

(** A buffer is a list of rows; the store is the list of all buffers
    allocated so far, addressed by position. *)
Abbreviation grid := (list (list Qc)).
Abbreviation heap := (list (list (list Qc))).

Definition M (A : Type) : Type := heap -> result (A * heap).

Definition ret {A} (a : A) : M A := fun h => Ok (a, h).
Definition raise {A} (e : exn) : M A := fun _ => Raise e.
Definition bind {A B} (m : M A) (k : A -> M B) : M B :=
  fun h => match m h with
           | Ok (a, h') => k a h'
           | Raise e => Raise e
           end.
Definition lift {A} (r : result A) : M A :=
  fun h => match r with Ok a => Ok (a, h) | Raise e => Raise e end.

Notation "x <- m ;; k" := (bind m (fun x => k))
  (at level 100, m at next level, right associativity, only parsing).

(** Python true division and floor division of floats, in the
    arithmetic of the rationals: the quotient is not rounded, and the
    floor is that of the exact quotient, which is Python's when the
    operands are whole numbers ([whole]). *)
Definition py_truediv (x y : Qc) : result Qc :=
  if Qc_eqb y 0 then Raise ZeroDivisionError else Ok (x / y).
Definition py_floordiv (x y : Qc) : result Z :=
  if Qc_eqb y 0 then Raise ZeroDivisionError else Ok (Qfloor (this (x / y))).

(** ** numpy arrays *)

Record ndarray : Type := mk_ndarray {
  base : nat;            (* the buffer the array looks at *)
  row0 : nat;            (* offset of the window in the buffer *)
  col0 : nat;
  nrows : nat;           (* shape[0] *)
  ncols : nat            (* shape[1] *)
}.

#[global] Instance ndarray_eq_dec : EqDecision ndarray.
Proof. solve_decision. Defined.

Definition window (r c n m : nat) (g : grid) : grid :=
  (fun row => take m (drop c row)) <$> take n (drop r g).

Definition read (h : heap) (a : ndarray) : grid :=
  window (row0 a) (col0 a) (nrows a) (ncols a) (default [] (h !! base a)).

Definition grid_shape (g : grid) : nat * nat :=
  (length g, match g with row :: _ => length row | [] => 0%nat end).

(** A new array object over a new buffer. *)
Definition np_alloc (n m : nat) (g : grid) : M ndarray :=
  fun h => Ok (mk_ndarray (length h) 0 0 n m, h ++ [g]).

Definition np_of_grid (g : grid) : M ndarray :=
  np_alloc (grid_shape g).1 (grid_shape g).2 g.

Definition np_read (a : ndarray) : M grid := fun h => Ok (read h a, h).

(** [numpy.array(a)]: a copy. *)
Definition np_array (a : ndarray) : M ndarray :=
  g <- np_read a ;; np_alloc (nrows a) (ncols a) g.

(** [numpy.size(a, axis)]. *)
Definition np_size (a : ndarray) (axis : nat) : Z :=
  match axis with O => Z.of_nat (nrows a) | _ => Z.of_nat (ncols a) end.

(** A unary element-wise function: a new array of the same shape. *)
Definition grid_map {A B} (f : A -> B) (g : list (list A)) : list (list B) :=
  fmap (M:=list) (fmap (M:=list) f) g.

Definition np_map (f : Qc -> Qc) (a : ndarray) : M ndarray :=
  g <- np_read a ;; np_alloc (nrows a) (ncols a) (grid_map f g).

(** Broadcasting of two 2-D shapes, one axis at a time. *)
Definition broadcast_dim (n m : nat) : option nat :=
  if decide (n = m) then Some n
  else if decide (n = 1%nat) then Some m
  else if decide (m = 1%nat) then Some n
  else None.

Definition stretch {A} (n : nat) (l : list A) : list A :=
  match l with
  | [x] => replicate n x
  | _ => l
  end.

Definition broadcast_to (n m : nat) (g : grid) : grid :=
  stretch n (stretch m <$> g).

(** The second operand of a binary numpy function: an array or a scalar.
    The function is applied in the rationals, whatever the element types
    of the operands. *)
Inductive np_operand : Type :=
  | Arr (b : ndarray)
  | Num (x : Qc).

Definition np_binary (f : Qc -> Qc -> Qc) (a : ndarray) (b : np_operand) : M ndarray :=
  match b with
  | Num x => np_map (fun v => f v x) a
  | Arr b =>
      match broadcast_dim (nrows a) (nrows b), broadcast_dim (ncols a) (ncols b) with
      | Some n, Some m =>
          ga <- np_read a ;;
          gb <- np_read b ;;
          np_alloc n m (zip_with (zip_with f) (broadcast_to n m ga) (broadcast_to n m gb))
      | _, _ => raise ValueError
      end
  end.

Definition np_equal := np_binary (fun x y => of_bool (Qc_eqb x y)).
Definition np_not_equal := np_binary (fun x y => of_bool (negb (Qc_eqb x y))).
Definition np_greater := np_binary (fun x y => of_bool (Qc_ltb y x)).
Definition np_less := np_binary (fun x y => of_bool (Qc_ltb x y)).
Definition np_greater_equal := np_binary (fun x y => of_bool (Qc_leb y x)).
Definition np_less_equal := np_binary (fun x y => of_bool (Qc_leb x y)).
Definition np_logical_and := np_binary (fun x y => of_bool (truthy x && truthy y)).
Definition np_logical_or := np_binary (fun x y => of_bool (truthy x || truthy y)).
Definition np_logical_not := np_map (fun x => of_bool (negb (truthy x))).
Definition np_add := np_binary Qcplus.
Definition np_subtract := np_binary Qcminus.
Definition np_multiply := np_binary Qcmult.
Definition np_maximum := np_binary (fun x y => if Qc_ltb x y then y else x).
Definition np_minimum := np_binary (fun x y => if Qc_ltb y x then y else x).
Definition np_square := np_map (fun x => x * x).
Definition np_absolute := np_map (fun x => if Qc_ltb x 0 then - x else x).
Definition np_floor := np_map (fun x => Qc_of_Z (Qfloor (this x))).
Definition np_ceil := np_map (fun x => Qc_of_Z (Qceiling (this x))).
Definition np_trunc := np_map (fun x => Qc_of_Z (py_int x)).

(** [a.astype(int)], for pixels whose integer part fits 64 bits. *)
Definition astype_int := np_map (fun x => Qc_of_Z (py_int x)).

(** [numpy.where(cond, x, a)] with a scalar [x]. *)
Definition np_where (cond : ndarray) (x : Qc) (a : ndarray) : M ndarray :=
  match broadcast_dim (nrows cond) (nrows a), broadcast_dim (ncols cond) (ncols a) with
  | Some n, Some m =>
      gc <- np_read cond ;;
      ga <- np_read a ;;
      np_alloc n m (zip_with (zip_with (fun c v => if truthy c then x else v))
                      (broadcast_to n m gc) (broadcast_to n m ga))
  | _, _ => raise ValueError
  end.

(** Python's [slice(start, stop).indices(n)] for step 1, and the view
    [a[r0:r1, c0:c1]], which looks at the buffer of [a]. *)
Definition slice_bound (i n : Z) : Z :=
  if (i <? 0)%Z then Z.max 0 (i + n) else Z.min i n.

Definition slice_indices (start stop n : Z) : nat * nat :=
  let lo := slice_bound start n in
  let hi := slice_bound stop n in
  (Z.to_nat lo, Z.to_nat (Z.max 0 (hi - lo))).

Definition np_slice (a : ndarray) (r0 r1 c0 c1 : Z) : ndarray :=
  let '(ro, n) := slice_indices r0 r1 (Z.of_nat (nrows a)) in
  let '(co, m) := slice_indices c0 c1 (Z.of_nat (ncols a)) in
  mk_ndarray (base a) (row0 a + ro) (col0 a + co) n m.

(** [a[cond] = x] with a boolean array [cond] of the shape of [a]: the
    buffer of [a] is written in place. *)
Definition cond_at (gc : grid) (i j : nat) : bool :=
  truthy (default 0 (gc !! i ≫= fun row => row !! j)).

Definition in_window (a : ndarray) (i j : nat) : bool :=
  bool_decide (row0 a ≤ i < row0 a + nrows a)%nat &&
  bool_decide (col0 a ≤ j < col0 a + ncols a)%nat.

Definition put_where (a : ndarray) (gc : grid) (x : Qc) (buf : grid) : grid :=
  imap (fun i => imap (fun j v =>
    if in_window a i j && cond_at gc (i - row0 a) (j - col0 a) then x else v)) buf.

Definition np_setitem_bool (a cond : ndarray) (x : Qc) : M unit :=
  if bool_decide (nrows cond = nrows a ∧ ncols cond = ncols a) then
    fun h => Ok (tt, alter (put_where a (read h cond) x) (base a) h)
  else raise IndexError.

(** ** The GDAL and scipy collaborators *)

Inductive GDALType : Type :=
  | GDT_Unknown | GDT_Byte | GDT_UInt16 | GDT_Int16 | GDT_UInt32 | GDT_Int32
  | GDT_Float32 | GDT_Float64 | GDT_CInt16 | GDT_CInt32 | GDT_CFloat32 | GDT_CFloat64.

#[global] Instance GDALType_eq_dec : EqDecision GDALType.
Proof. solve_decision. Defined.

Record gdal_Band : Type := mk_gdal_Band {
  DataType : GDALType;
  GetNoDataValue : option Qc;
  ReadAsArray : grid
}.

Record gdal_GeoTransform : Type := mk_GeoTransform {
  gt0 : Qc;   (* top left x *)
  gt1 : Qc;   (* w-e pixel resolution *)
  gt2 : Qc;
  gt3 : Qc;   (* top left y *)
  gt4 : Qc;
  gt5 : Qc    (* n-s pixel resolution *)
}.

Record gdal_Dataset : Type := mk_gdal_Dataset {
  RasterXSize : Z;
  RasterYSize : Z;
  GetGeoTransform : gdal_GeoTransform;
  GetSpatialRef : option string;
  RasterBands : list gdal_Band
}.

Definition RasterCount (ds : gdal_Dataset) : Z := Z.of_nat (length (RasterBands ds)).

(** [ds.GetRasterBand(i)], 1-based; [None] when there is no such band. *)
Definition GetRasterBand (ds : gdal_Dataset) (i : Z) : option gdal_Band :=
  if (i <? 1)%Z then None else RasterBands ds !! Z.to_nat (i - 1).

Definition bounds : Type := Qc * Qc * Qc * Qc.

Class Collaborators : Type := {
  (* gdal.Translate('', ds, format="MEM", projWin=[ulx, uly, lrx, lry]) *)
  gdal_Translate : option gdal_Dataset -> bounds -> result (option gdal_Dataset);
  (* scipy.ndimage.zoom(input, zoom, order=..., mode=...) *)
  ndimage_zoom : grid -> Qc -> Z -> string -> result grid;
  (* numpy.divide, around, rint, log, log10, exp, power, sqrt by name *)
  numpy_libm : string -> Qc -> Qc -> Qc
}.

(** ** class SpaDatasetRaster *)

Record SpaDatasetRaster : Type := mk_SpaDatasetRaster {
  FilePath : option string;
  WidthInPixels : Z;
  HeightInPixels : Z;
  NumBands : Z;
  NoDataValue : option Qc;
  TheMask : option ndarray;
  TheBands : option (list ndarray);
  GDALDataset : option gdal_Dataset;
  GDALDataType : option GDALType;
  XMin : Qc;
  YMax : Qc;
  PixelWidth : Qc;
  PixelHeight : Qc;
  SpatialReference : option string;
  GCS : string;
  UTMZone : option Z;
  UTMSouth : bool
}.

(** Attribute assignment, one function per attribute the module assigns. *)
Definition set_WidthInPixels (v : Z) (d : SpaDatasetRaster) : SpaDatasetRaster :=
  mk_SpaDatasetRaster (FilePath d) v (HeightInPixels d) (NumBands d) (NoDataValue d) (TheMask d) (TheBands d) (GDALDataset d) (GDALDataType d) (XMin d) (YMax d) (PixelWidth d) (PixelHeight d) (SpatialReference d) (GCS d) (UTMZone d) (UTMSouth d).
Definition set_HeightInPixels (v : Z) (d : SpaDatasetRaster) : SpaDatasetRaster :=
  mk_SpaDatasetRaster (FilePath d) (WidthInPixels d) v (NumBands d) (NoDataValue d) (TheMask d) (TheBands d) (GDALDataset d) (GDALDataType d) (XMin d) (YMax d) (PixelWidth d) (PixelHeight d) (SpatialReference d) (GCS d) (UTMZone d) (UTMSouth d).
Definition set_NumBands (v : Z) (d : SpaDatasetRaster) : SpaDatasetRaster :=
  mk_SpaDatasetRaster (FilePath d) (WidthInPixels d) (HeightInPixels d) v (NoDataValue d) (TheMask d) (TheBands d) (GDALDataset d) (GDALDataType d) (XMin d) (YMax d) (PixelWidth d) (PixelHeight d) (SpatialReference d) (GCS d) (UTMZone d) (UTMSouth d).
Definition set_NoDataValue (v : option Qc) (d : SpaDatasetRaster) : SpaDatasetRaster :=
  mk_SpaDatasetRaster (FilePath d) (WidthInPixels d) (HeightInPixels d) (NumBands d) v (TheMask d) (TheBands d) (GDALDataset d) (GDALDataType d) (XMin d) (YMax d) (PixelWidth d) (PixelHeight d) (SpatialReference d) (GCS d) (UTMZone d) (UTMSouth d).
Definition set_TheMask (v : option ndarray) (d : SpaDatasetRaster) : SpaDatasetRaster :=
  mk_SpaDatasetRaster (FilePath d) (WidthInPixels d) (HeightInPixels d) (NumBands d) (NoDataValue d) v (TheBands d) (GDALDataset d) (GDALDataType d) (XMin d) (YMax d) (PixelWidth d) (PixelHeight d) (SpatialReference d) (GCS d) (UTMZone d) (UTMSouth d).
Definition set_TheBands (v : option (list ndarray)) (d : SpaDatasetRaster) : SpaDatasetRaster :=
  mk_SpaDatasetRaster (FilePath d) (WidthInPixels d) (HeightInPixels d) (NumBands d) (NoDataValue d) (TheMask d) v (GDALDataset d) (GDALDataType d) (XMin d) (YMax d) (PixelWidth d) (PixelHeight d) (SpatialReference d) (GCS d) (UTMZone d) (UTMSouth d).
Definition set_GDALDataset (v : option gdal_Dataset) (d : SpaDatasetRaster) : SpaDatasetRaster :=
  mk_SpaDatasetRaster (FilePath d) (WidthInPixels d) (HeightInPixels d) (NumBands d) (NoDataValue d) (TheMask d) (TheBands d) v (GDALDataType d) (XMin d) (YMax d) (PixelWidth d) (PixelHeight d) (SpatialReference d) (GCS d) (UTMZone d) (UTMSouth d).
Definition set_GDALDataType (v : option GDALType) (d : SpaDatasetRaster) : SpaDatasetRaster :=
  mk_SpaDatasetRaster (FilePath d) (WidthInPixels d) (HeightInPixels d) (NumBands d) (NoDataValue d) (TheMask d) (TheBands d) (GDALDataset d) v (XMin d) (YMax d) (PixelWidth d) (PixelHeight d) (SpatialReference d) (GCS d) (UTMZone d) (UTMSouth d).
Definition set_XMin (v : Qc) (d : SpaDatasetRaster) : SpaDatasetRaster :=
  mk_SpaDatasetRaster (FilePath d) (WidthInPixels d) (HeightInPixels d) (NumBands d) (NoDataValue d) (TheMask d) (TheBands d) (GDALDataset d) (GDALDataType d) v (YMax d) (PixelWidth d) (PixelHeight d) (SpatialReference d) (GCS d) (UTMZone d) (UTMSouth d).
Definition set_YMax (v : Qc) (d : SpaDatasetRaster) : SpaDatasetRaster :=
  mk_SpaDatasetRaster (FilePath d) (WidthInPixels d) (HeightInPixels d) (NumBands d) (NoDataValue d) (TheMask d) (TheBands d) (GDALDataset d) (GDALDataType d) (XMin d) v (PixelWidth d) (PixelHeight d) (SpatialReference d) (GCS d) (UTMZone d) (UTMSouth d).
Definition set_PixelWidth (v : Qc) (d : SpaDatasetRaster) : SpaDatasetRaster :=
  mk_SpaDatasetRaster (FilePath d) (WidthInPixels d) (HeightInPixels d) (NumBands d) (NoDataValue d) (TheMask d) (TheBands d) (GDALDataset d) (GDALDataType d) (XMin d) (YMax d) v (PixelHeight d) (SpatialReference d) (GCS d) (UTMZone d) (UTMSouth d).
Definition set_PixelHeight (v : Qc) (d : SpaDatasetRaster) : SpaDatasetRaster :=
  mk_SpaDatasetRaster (FilePath d) (WidthInPixels d) (HeightInPixels d) (NumBands d) (NoDataValue d) (TheMask d) (TheBands d) (GDALDataset d) (GDALDataType d) (XMin d) (YMax d) (PixelWidth d) v (SpatialReference d) (GCS d) (UTMZone d) (UTMSouth d).
Definition set_SpatialReference (v : option string) (d : SpaDatasetRaster) : SpaDatasetRaster :=
  mk_SpaDatasetRaster (FilePath d) (WidthInPixels d) (HeightInPixels d) (NumBands d) (NoDataValue d) (TheMask d) (TheBands d) (GDALDataset d) (GDALDataType d) (XMin d) (YMax d) (PixelWidth d) (PixelHeight d) v (GCS d) (UTMZone d) (UTMSouth d).

(** [__init__] *)
Definition SpaDatasetRaster_init : SpaDatasetRaster := {|
  FilePath := None;
  WidthInPixels := 100;
  HeightInPixels := 100;
  NumBands := 1;
  NoDataValue := None;
  TheMask := None;
  TheBands := None;
  GDALDataset := None;
  GDALDataType := None;
  XMin := 0;
  YMax := 0;
  PixelWidth := 1;
  PixelHeight := 1;
  SpatialReference := None;
  GCS := "WGS84";
  UTMZone := None;
  UTMSouth := false
|}.

(** [self.CopyPropertiesButNotData(RasterDataset)]: [FilePath] and
    [TheMask] of [self] are not assigned. *)
Definition CopyPropertiesButNotData (self RasterDataset : SpaDatasetRaster)
  : SpaDatasetRaster := {|
  FilePath := FilePath self;
  WidthInPixels := WidthInPixels RasterDataset;
  HeightInPixels := HeightInPixels RasterDataset;
  NumBands := NumBands RasterDataset;
  NoDataValue := NoDataValue RasterDataset;
  TheMask := TheMask self;
  TheBands := None;
  GDALDataset := None;
  GDALDataType := GDALDataType RasterDataset;
  XMin := XMin RasterDataset;
  YMax := YMax RasterDataset;
  PixelWidth := PixelWidth RasterDataset;
  PixelHeight := PixelHeight RasterDataset;
  SpatialReference := SpatialReference RasterDataset;
  GCS := GCS RasterDataset;
  UTMZone := UTMZone RasterDataset;
  UTMSouth := UTMSouth RasterDataset
|}.

Fixpoint mapM {A B} (f : A -> M B) (l : list A) : M (list B) :=
  match l with
  | [] => ret []
  | x :: l' => y <- f x ;; ys <- mapM f l' ;; ret (y :: ys)
  end.

Definition Clone (self : SpaDatasetRaster) : M SpaDatasetRaster :=
  let NewDataset := CopyPropertiesButNotData SpaDatasetRaster_init self in
  match TheBands self with
  | None => raise TypeError            (* iterating over None *)
  | Some SourceArrays =>
      NewBands <- mapM np_array SourceArrays ;;
      let NewDataset := set_TheBands (Some NewBands) NewDataset in
      match NoDataValue self, TheMask self with
      | Some _, Some m =>
          m' <- np_array m ;;
          ret (set_TheMask (Some m') NewDataset)
      | _, _ => ret (set_TheMask None NewDataset)
      end
  end.

Definition GetWidthInPixels (self : SpaDatasetRaster) : Z := WidthInPixels self.
Definition GetHeightInPixels (self : SpaDatasetRaster) : Z := HeightInPixels self.
Definition GetNumBands (self : SpaDatasetRaster) : Z := NumBands self.
Definition GetType (self : SpaDatasetRaster) : option GDALType := GDALDataType self.
Definition GetMask (self : SpaDatasetRaster) : option ndarray := TheMask self.

Definition GetResolution (self : SpaDatasetRaster) : Qc * Qc :=
  (PixelWidth self, PixelHeight self).

Definition GetBounds (self : SpaDatasetRaster) : bounds :=
  let Resolution := GetResolution self in
  let XMax := XMin self + Qc_of_Z (WidthInPixels self) * Resolution.1 in
  let YMin := YMax self + Qc_of_Z (HeightInPixels self) * Resolution.2 in
  (XMin self, YMin, XMax, YMax self).

Definition GetRefXFromPixelX (self : SpaDatasetRaster) (PixelX : Z) : Qc :=
  let Resolution := GetResolution self in
  XMin self + Qc_of_Z PixelX * Resolution.1.

Definition GetRefYFromPixelY (self : SpaDatasetRaster) (PixelY : Z) : Qc :=
  let Resolution := GetResolution self in
  YMax self - Qc_of_Z PixelY * Resolution.2.

Definition GetPixelXFromRefX (self : SpaDatasetRaster) (RefX : Qc) : result Z :=
  let Resolution := GetResolution self in
  match py_floordiv (RefX - XMin self) Resolution.1 with
  | Ok q => Ok (0 + q)%Z
  | Raise e => Raise e
  end.

Definition GetPixelYFromRefY (self : SpaDatasetRaster) (RefY : Qc) : result Z :=
  let Resolution := GetResolution self in
  match py_floordiv (YMax self - RefY) Resolution.2 with
  | Ok q => Ok (0 - q)%Z
  | Raise e => Raise e
  end.

Definition GetBand (self : SpaDatasetRaster) (Index : nat) : M ndarray :=
  match TheBands self with
  | None => raise NameError            (* throw("Error"): throw is not defined *)
  | Some bs =>
      match bs !! Index with
      | Some b => ret b
      | None => raise IndexError
      end
  end.

Definition SetBands (self : SpaDatasetRaster) (TheBands : list ndarray)
  : SpaDatasetRaster :=
  set_GDALDataset None (set_TheBands (Some TheBands) self).

(** The loop of [GetBands] that reads the bands of the GDAL dataset. *)
Fixpoint GetBands_loop (ds : gdal_Dataset) (NoData : option Qc) (n : nat) (Count : Z)
    (Bands : list ndarray) (Mask : option ndarray) : M (list ndarray * option ndarray) :=
  match n with
  | O => ret (Bands, Mask)
  | S n' =>
      match GetRasterBand ds (Count + 1) with
      | None => raise AttributeError   (* None.ReadAsArray() *)
      | Some band =>
          TheBand <- np_of_grid (ReadAsArray band) ;;
          Mask <- match NoData, Mask with
                  | Some v, None => m <- np_equal TheBand (Num v) ;; ret (Some m)
                  | _, _ => ret Mask
                  end ;;
          GetBands_loop ds NoData n' (Count + 1) (Bands ++ [TheBand]) Mask
      end
  end.

(** [self.GetBands()]: the bands, and [self] as the call leaves it. *)
Definition GetBands (self : SpaDatasetRaster)
  : M (SpaDatasetRaster * option (list ndarray)) :=
  match TheBands self, GDALDataset self with
  | None, Some ds =>
      match GetRasterBand ds 1 with
      | None => raise AttributeError   (* None.GetNoDataValue() *)
      | Some FirstBand =>
          let NoData := match GetNoDataValue FirstBand with
                        | Some v => if Qc_eqb v 0 then None else Some v
                        | None => None
                        end in
          let self := set_NoDataValue NoData self in
          r <- GetBands_loop ds NoData (Z.to_nat (NumBands self)) 0 [] None ;;
          let self := set_TheMask r.2 (set_TheBands (Some r.1) self) in
          ret (self, TheBands self)
      end
  | _, _ => ret (self, TheBands self)
  end.

(** [numpy.where(self.TheMask, NewValue, TheBand)] when the mask may be
    [None] (a false condition: the band is copied). *)
Definition np_where_opt (cond : option ndarray) (x : Qc) (a : ndarray) : M ndarray :=
  match cond with
  | Some c => np_where c x a
  | None => np_array a
  end.

Definition SetMask (self : SpaDatasetRaster) (NewMask : option ndarray)
    (NewValue : option Qc) : M SpaDatasetRaster :=
  self <- match NewValue with
          | Some v =>
              r <- GetBands self ;;
              match r.2 with
              | None => raise TypeError          (* len(None) *)
              | Some bs =>
                  NewBands <- mapM (np_where_opt (TheMask r.1) v) bs ;;
                  ret (SetBands r.1 NewBands)
              end
          | None => ret self
          end ;;
  ret (set_TheMask NewMask self).

Definition GetNumPyType (self : SpaDatasetRaster) : option string :=
  match GDALDataType self with
  | Some GDT_Byte => Some "uint8"
  | Some GDT_UInt16 => Some "uint16"
  | Some GDT_Int16 => Some "int16"
  | Some GDT_UInt32 => Some "uint32"
  | Some GDT_Int32 => Some "int32"
  | Some GDT_Float32 => Some "float32"
  | Some GDT_Float64 => Some "float64"
  | Some GDT_CFloat64 => Some "complex64"
  | _ => None
  end.

(** [self.Load(FilePathOrDataset)] for an in-memory GDAL dataset, or for
    the [None] that a failed [gdal.Translate] hands over. *)
Definition Load (self : SpaDatasetRaster) (FilePathOrDataset : option gdal_Dataset)
  : M SpaDatasetRaster :=
  match FilePathOrDataset with
  | None => raise TypeError            (* gdal.Open(None) *)
  | Some ds =>
      let self := set_GDALDataset (Some ds) self in
      match GetRasterBand ds 1 with
      | None => raise AttributeError   (* None.DataType *)
      | Some FirstBand =>
          let self := set_GDALDataType (Some (DataType FirstBand)) self in
          let self := set_WidthInPixels (RasterXSize ds) self in
          let self := set_HeightInPixels (RasterYSize ds) self in
          let self := set_NumBands (RasterCount ds) self in
          let TheGeoTransform := GetGeoTransform ds in
          let self := set_XMin (gt0 TheGeoTransform) self in
          let self := set_YMax (gt3 TheGeoTransform) self in
          let self := set_PixelWidth (gt1 TheGeoTransform) self in
          let self := set_PixelHeight (gt5 TheGeoTransform) self in
          let self := set_SpatialReference (GetSpatialRef ds) self in
          r <- GetBands self ;;
          ret r.1
      end
  end.

(** *** Reclassify *)

(** An entry of [InputClasses]: a value (mode "discrete") or a pair
    (mode "range"). *)
Inductive input_class : Type :=
  | ClassValue (v : Qc)
  | ClassRange (lo hi : Qc).

(** The [BooleanArray] of one class over [TheBand], for the classes the
    docstring describes: a value in mode "discrete", a pair in mode
    "range".  The other combinations are taken to raise; numpy would
    broadcast a pair compared with a band of one or two columns. *)
Definition class_BooleanArray (mode : string) (Range : input_class) (TheBand : ndarray)
  : M ndarray :=
  if bool_decide (mode = "discrete") then
    match Range with
    | ClassValue v => np_equal TheBand (Num v)
    | ClassRange _ _ => raise ValueError       (* an array compared with a pair *)
    end
  else
    match Range with
    | ClassRange lo hi =>
        a <- np_greater TheBand (Num lo) ;;
        b <- np_less_equal TheBand (Num hi) ;;
        np_logical_and a (Arr b)
    | ClassValue _ => raise TypeError          (* Range[0] on a number *)
    end.

(** First loop: the classes whose output is [None] are or-ed into the mask. *)
Fixpoint Reclassify_mask (mode : string) (TheBand : ndarray)
    (InputClasses : list input_class) (OutputClasses : list (option Qc))
    (Index : nat) (Mask : option ndarray) : M (option ndarray) :=
  match InputClasses with
  | [] => ret Mask
  | Range :: rest =>
      match OutputClasses !! Index with
      | None => raise IndexError
      | Some OutputValue =>
          Mask <- match OutputValue with
                  | None =>
                      BooleanArray <- class_BooleanArray mode Range TheBand ;;
                      match Mask with
                      | Some m => m' <- np_logical_or BooleanArray (Arr m) ;; ret (Some m')
                      | None => ret (Some BooleanArray)
                      end
                  | Some _ => ret Mask
                  end ;;
          Reclassify_mask mode TheBand rest OutputClasses (S Index) Mask
      end
  end.

(** Second loop, for one band: each class with an output value rewrites
    the pixels of the current [TheBand] that it matches. *)
Fixpoint Reclassify_band (mode : string) (InputClasses : list input_class)
    (OutputClasses : list (option Qc)) (Index : nat) (TheBand : ndarray) : M ndarray :=
  match InputClasses with
  | [] => ret TheBand
  | Range :: rest =>
      match OutputClasses !! Index with
      | None => raise IndexError
      | Some OutputValue =>
          TheBand <- match OutputValue with
                     | Some v =>
                         BooleanArray <- class_BooleanArray mode Range TheBand ;;
                         np_where BooleanArray v TheBand
                     | None => ret TheBand
                     end ;;
          Reclassify_band mode rest OutputClasses (S Index) TheBand
      end
  end.

Definition Reclassify (self : SpaDatasetRaster) (InputClasses : list input_class)
    (OutputClasses : list (option Qc)) (mode : string) : M SpaDatasetRaster :=
  NewDataset <- Clone self ;;
  match TheBands self with
  | None => raise TypeError
  | Some bs =>
      match bs !! 0%nat with
      | None => raise IndexError
      | Some TheBand =>
          Mask <- Reclassify_mask mode TheBand InputClasses OutputClasses 0 (TheMask self) ;;
          NewBands <- mapM (Reclassify_band mode InputClasses OutputClasses 0) bs ;;
          let NewDataset := SetBands NewDataset NewBands in
          SetMask NewDataset Mask None
      end
  end.

Definition ReclassifyDiscrete (Input1 : SpaDatasetRaster) InputClasses OutputClasses :=
  Reclassify Input1 InputClasses OutputClasses "discrete".

Definition ReclassifyRange (Input1 : SpaDatasetRaster) InputClasses OutputClasses :=
  Reclassify Input1 InputClasses OutputClasses "range".

(** *** Constants *)

Definition SPAMATH_ADD : Z := 1.
Definition SPAMATH_SUBTRACT : Z := 2.
Definition SPAMATH_MULTIPLY : Z := 3.
Definition SPAMATH_DIVIDE : Z := 4.
Definition SPAMATH_ROUND : Z := 100.
Definition SPAMATH_ROUND_INTEGER : Z := 101.
Definition SPAMATH_ROUND_FIX : Z := 102.
Definition SPAMATH_ROUND_FLOOR : Z := 103.
Definition SPAMATH_ROUND_CEIL : Z := 104.
Definition SPAMATH_ROUND_TRUNC : Z := 105.
Definition SPAMATH_AND : Z := 201.
Definition SPAMATH_OR : Z := 202.
Definition SPAMATH_NOT : Z := 203.
Definition SPAMATH_LESS : Z := 204.
Definition SPAMATH_LESS_OR_EQUAL : Z := 205.
Definition SPAMATH_EQUAL : Z := 206.
Definition SPAMATH_NOT_EQUAL : Z := 207.
Definition SPAMATH_GREATER : Z := 208.
Definition SPAMATH_GREATER_OR_EQUAL : Z := 209.
Definition SPAMATH_NATURAL_LOG : Z := 300.
Definition SPAMATH_LOG : Z := 301.
Definition SPAMATH_EXPONENT : Z := 302.
Definition SPAMATH_SQUARE : Z := 303.
Definition SPAMATH_SQUARE_ROOT : Z := 304.
Definition SPAMATH_ABSOLUTE : Z := 305.
Definition SPAMATH_MAX : Z := 306.
Definition SPAMATH_MIN : Z := 307.
Definition SPAMATH_POWER : Z := 309.
Definition SPAMATH_CLIP_TOP : Z := 308.
Definition SPAMATH_CLIP_BOTTOM : Z := 309.

(** The literal [0.00000001] of [Scale]. *)
Definition Scale_threshold : Qc := Q2Qc (1 # 100000000).

Section WithCollaborators.
Context `{Collaborators}.

(** *** class SpaResample *)

Definition SpaResample_Crop (InputRasterDataset : SpaDatasetRaster) (Bounds : bounds)
  : M SpaDatasetRaster :=
  let NewDataset := CopyPropertiesButNotData SpaDatasetRaster_init InputRasterDataset in
  let GDALDataset := GDALDataset InputRasterDataset in
  let '(b0, b1, b2, b3) := Bounds in
  let NewBounds := (b0, b3, b2, b1) in
  GDALDataset <- lift (gdal_Translate GDALDataset NewBounds) ;;
  Load NewDataset GDALDataset.

(** The band loop of [Scale]. *)
Fixpoint Scale_loop (InputBands : option (list ndarray)) (ZoomFactor : Qc) (n : nat)
    (BandIndex : nat) (OutputBands : list ndarray) (OutputDataset : SpaDatasetRaster)
  : M (list ndarray * SpaDatasetRaster) :=
  match n with
  | O => ret (OutputBands, OutputDataset)
  | S n' =>
      match InputBands with
      | None => raise TypeError        (* None[BandIndex] *)
      | Some bs =>
          match bs !! BandIndex with
          | None => raise IndexError
          | Some InputBand =>
              super_threshold_indices <- np_less InputBand (Num Scale_threshold) ;;
              _ <- np_setitem_bool InputBand super_threshold_indices 0 ;;
              g <- np_read InputBand ;;
              g' <- lift (ndimage_zoom g ZoomFactor 3 "constant") ;;
              OutputBand <- np_of_grid g' ;;
              let OutputDataset := set_HeightInPixels (np_size OutputBand 0) OutputDataset in
              let OutputDataset := set_WidthInPixels (np_size OutputBand 1) OutputDataset in
              Scale_loop InputBands ZoomFactor n' (S BandIndex)
                (OutputBands ++ [OutputBand]) OutputDataset
          end
      end
  end.

Definition SpaResample_Scale (InputRasterDataset : SpaDatasetRaster) (ZoomFactor : Qc)
  : M SpaDatasetRaster :=
  let OutputDataset := CopyPropertiesButNotData SpaDatasetRaster_init InputRasterDataset in
  r <- GetBands InputRasterDataset ;;
  let InputRasterDataset := r.1 in
  let InputBands := r.2 in
  let NumBands := GetNumBands OutputDataset in
  ph <- lift (py_truediv (PixelHeight InputRasterDataset) ZoomFactor) ;;
  let OutputDataset := set_PixelHeight ph OutputDataset in
  pw <- lift (py_truediv (PixelWidth InputRasterDataset) ZoomFactor) ;;
  let OutputDataset := set_PixelWidth pw OutputDataset in
  r <- Scale_loop InputBands ZoomFactor (Z.to_nat NumBands) 0 [] OutputDataset ;;
  let OutputDataset := set_TheBands (Some r.1) r.2 in
  match TheMask InputRasterDataset with
  | Some m =>
      g <- np_read m ;;
      g' <- lift (ndimage_zoom g ZoomFactor 1 "nearest") ;;
      OutputMask <- np_of_grid g' ;;
      ret (set_TheMask (Some OutputMask) OutputDataset)
  | None => ret (set_TheMask None OutputDataset)
  end.

(** The band loop of [ExtractByPixels]. *)
Fixpoint ExtractByPixels_loop (InputBands : option (list ndarray))
    (StartColumn StartRow EndColumn EndRow : Z) (n : nat) (BandIndex : nat)
    (OutputBands : list ndarray) : result (list ndarray) :=
  match n with
  | O => Ok OutputBands
  | S n' =>
      match InputBands with
      | None => Raise TypeError
      | Some bs =>
          match bs !! BandIndex with
          | None => Raise IndexError
          | Some InputBand =>
              let OutputBand :=
                np_slice InputBand StartRow (EndRow + 1) StartColumn (EndColumn + 1) in
              ExtractByPixels_loop InputBands StartColumn StartRow EndColumn EndRow
                n' (S BandIndex) (OutputBands ++ [OutputBand])
          end
      end
  end.

Definition SpaResample_ExtractByPixels (InputRasterDataset : SpaDatasetRaster)
    (StartColumn StartRow EndColumn EndRow : Z) : M SpaDatasetRaster :=
  let OutputDataset := CopyPropertiesButNotData SpaDatasetRaster_init InputRasterDataset in
  r <- GetBands InputRasterDataset ;;
  let InputBands := r.2 in
  let OutputDataset := set_HeightInPixels (EndRow - StartRow + 1) OutputDataset in
  let OutputDataset := set_WidthInPixels (EndColumn - StartColumn + 1) OutputDataset in
  let OutputDataset :=
    set_XMin (XMin OutputDataset + Qc_of_Z StartColumn * PixelWidth OutputDataset)
      OutputDataset in
  let OutputDataset :=
    set_YMax (YMax OutputDataset + Qc_of_Z StartRow * PixelHeight OutputDataset)
      OutputDataset in
  let NumBands := GetNumBands OutputDataset in
  OutputBands <- lift (ExtractByPixels_loop InputBands StartColumn StartRow EndColumn
                         EndRow (Z.to_nat NumBands) 0 []) ;;
  ret (set_TheBands (Some OutputBands) OutputDataset).

Definition SpaResample_NumpyCrop (InputRasterDataset : SpaDatasetRaster) (Bounds : bounds)
  : M SpaDatasetRaster :=
  let '(b0, b1, b2, b3) := Bounds in
  let UpperLeftRefX := b0 in
  let UpperLeftRefY := b3 in
  let LowerRightRefX := b2 in
  let LowerRightRefY := b1 in
  UpperLeftPixelX <- lift (GetPixelXFromRefX InputRasterDataset UpperLeftRefX) ;;
  UpperLeftPixelY <- lift (GetPixelYFromRefY InputRasterDataset UpperLeftRefY) ;;
  LowerRightPixelX <- lift (GetPixelXFromRefX InputRasterDataset LowerRightRefX) ;;
  LowerRightPixelY <- lift (GetPixelYFromRefY InputRasterDataset LowerRightRefY) ;;
  SpaResample_ExtractByPixels InputRasterDataset UpperLeftPixelX UpperLeftPixelY
    LowerRightPixelX LowerRightPixelY.

(** *** One-line functions *)

Definition Resample (Input1 : SpaDatasetRaster) (ZoomFactor : Qc) : M SpaDatasetRaster :=
  SpaResample_Scale Input1 ZoomFactor.

Definition Crop (Input1 : SpaDatasetRaster) (Bounds : bounds) : M SpaDatasetRaster :=
  SpaResample_Crop Input1 Bounds.

Definition NumpyCrop (Input1 : SpaDatasetRaster) (Bounds : bounds) : M SpaDatasetRaster :=
  SpaResample_NumpyCrop Input1 Bounds.

(** *** ResampleToMatch *)

(** The rectangle handed to [Crop] when the bounds differ. *)
Definition common_bounds (TheBounds1 TheBounds2 : bounds) : bounds :=
  let '(XMin, YMin, XMax, YMax) := TheBounds1 in
  let '(x2, y2, X2, Y2) := TheBounds2 in
  let XMin := if Qc_ltb XMin x2 then x2 else XMin in
  let YMin := if Qc_ltb YMin y2 then y2 else YMin in
  let XMax := if Qc_ltb X2 XMax then X2 else XMax in
  let YMax := if Qc_ltb Y2 YMax then Y2 else YMax in
  (XMin, YMin, XMax, YMax).

Definition ResampleToMatch (TheDataset1 TheDataset2 : SpaDatasetRaster)
  : M (SpaDatasetRaster * SpaDatasetRaster) :=
  let Resolution1 := GetResolution TheDataset1 in
  let TheBounds1 := GetBounds TheDataset1 in
  let Resolution2 := GetResolution TheDataset2 in
  let TheBounds2 := GetBounds TheDataset2 in
  p <- (if bool_decide (TheBounds1 ≠ TheBounds2) then
          let TheBounds := common_bounds TheBounds1 TheBounds2 in
          d1 <- Crop TheDataset1 TheBounds ;;
          d2 <- Crop TheDataset2 TheBounds ;;
          ret (d1, d2)
        else ret (TheDataset1, TheDataset2)) ;;
  let TheDataset1 := p.1 in
  let TheDataset2 := p.2 in
  let Resolution1 := Resolution1.1 in
  let Resolution2 := Resolution2.1 in
  if Qc_ltb Resolution1 Resolution2 then
    z <- lift (py_truediv Resolution2 Resolution1) ;;
    d2 <- Resample TheDataset2 z ;;
    ret (TheDataset1, d2)
  else if Qc_ltb Resolution2 Resolution1 then
    z <- lift (py_truediv Resolution1 Resolution2) ;;
    d1 <- Resample TheDataset1 z ;;
    ret (d1, TheDataset2)
  else ret (TheDataset1, TheDataset2).

(** *** Math *)

(** [Input2] of [Math]: another dataset, or a number. *)
Inductive math_input : Type :=
  | InputDataset (d : SpaDatasetRaster)
  | InputNumber (x : Qc).

Definition libm_binary (name : string) : ndarray -> np_operand -> M ndarray :=
  np_binary (numpy_libm name).
Definition libm_unary (name : string) : ndarray -> M ndarray :=
  np_map (fun x => numpy_libm name x 0).

(** The [if]/[elif] chain of the raster branch: the array to append, if
    a branch is taken. *)
Definition Math_raster_op (Operation : Z) (TheBand Band2 : ndarray) : option (M ndarray) :=
  if (Operation =? SPAMATH_ADD)%Z then Some (np_add TheBand (Arr Band2))
  else if (Operation =? SPAMATH_SUBTRACT)%Z then Some (np_subtract TheBand (Arr Band2))
  else if (Operation =? SPAMATH_MULTIPLY)%Z then Some (np_multiply TheBand (Arr Band2))
  else if (Operation =? SPAMATH_DIVIDE)%Z then Some (libm_binary "divide" TheBand (Arr Band2))
  else if (Operation =? SPAMATH_EQUAL)%Z then Some (np_equal TheBand (Arr Band2))
  else if (Operation =? SPAMATH_NOT_EQUAL)%Z then Some (np_not_equal TheBand (Arr Band2))
  else if (Operation =? SPAMATH_GREATER)%Z then Some (np_greater TheBand (Arr Band2))
  else if (Operation =? SPAMATH_LESS)%Z then Some (np_less TheBand (Arr Band2))
  else if (Operation =? SPAMATH_GREATER_OR_EQUAL)%Z
    then Some (np_greater_equal TheBand (Arr Band2))
  else if (Operation =? SPAMATH_LESS_OR_EQUAL)%Z then Some (np_less_equal TheBand (Arr Band2))
  else if (Operation =? SPAMATH_AND)%Z then Some (np_logical_and TheBand (Arr Band2))
  else if (Operation =? SPAMATH_OR)%Z then Some (np_logical_or TheBand (Arr Band2))
  else if (Operation =? SPAMATH_MAX)%Z then Some (np_maximum TheBand (Arr Band2))
  else if (Operation =? SPAMATH_MIN)%Z then Some (np_minimum TheBand (Arr Band2))
  else None.

(** The chain of the scalar branch. *)
Definition Math_scalar_op (Operation : Z) (TheBand : ndarray) (Input2 : Qc)
  : option (M ndarray) :=
  if (Operation =? SPAMATH_ADD)%Z then Some (np_add TheBand (Num Input2))
  else if (Operation =? SPAMATH_SUBTRACT)%Z then Some (np_subtract TheBand (Num Input2))
  else if (Operation =? SPAMATH_MULTIPLY)%Z then Some (np_multiply TheBand (Num Input2))
  else if (Operation =? SPAMATH_DIVIDE)%Z then Some (libm_binary "divide" TheBand (Num Input2))
  else if (Operation =? SPAMATH_EQUAL)%Z then Some (np_equal TheBand (Num Input2))
  else if (Operation =? SPAMATH_NOT_EQUAL)%Z then Some (np_not_equal TheBand (Num Input2))
  else if (Operation =? SPAMATH_GREATER)%Z then Some (np_greater TheBand (Num Input2))
  else if (Operation =? SPAMATH_LESS)%Z then Some (np_less TheBand (Num Input2))
  else if (Operation =? SPAMATH_GREATER_OR_EQUAL)%Z
    then Some (np_greater_equal TheBand (Num Input2))
  else if (Operation =? SPAMATH_LESS_OR_EQUAL)%Z
    then Some (np_less_equal TheBand (Num Input2))
  else if (Operation =? SPAMATH_AND)%Z then Some (np_logical_and TheBand (Num Input2))
  else if (Operation =? SPAMATH_OR)%Z then Some (np_logical_or TheBand (Num Input2))
  else if (Operation =? SPAMATH_NOT)%Z then Some (np_logical_not TheBand)
  else if (Operation =? SPAMATH_ROUND)%Z then Some (libm_binary "around" TheBand (Num Input2))
  else if (Operation =? SPAMATH_ROUND_INTEGER)%Z then Some (libm_unary "rint" TheBand)
  else if (Operation =? SPAMATH_ROUND_FIX)%Z then Some (np_trunc TheBand)
  else if (Operation =? SPAMATH_ROUND_FLOOR)%Z then Some (np_floor TheBand)
  else if (Operation =? SPAMATH_ROUND_CEIL)%Z then Some (np_ceil TheBand)
  else if (Operation =? SPAMATH_ROUND_TRUNC)%Z then Some (np_trunc TheBand)
  else if (Operation =? SPAMATH_NATURAL_LOG)%Z then Some (libm_unary "log" TheBand)
  else if (Operation =? SPAMATH_LOG)%Z then Some (libm_unary "log10" TheBand)
  else if (Operation =? SPAMATH_EXPONENT)%Z then Some (libm_unary "exp" TheBand)
  else if (Operation =? SPAMATH_POWER)%Z then Some (libm_binary "power" TheBand (Num Input2))
  else if (Operation =? SPAMATH_SQUARE)%Z then Some (np_square TheBand)
  else if (Operation =? SPAMATH_SQUARE_ROOT)%Z then Some (libm_unary "sqrt" TheBand)
  else if (Operation =? SPAMATH_ABSOLUTE)%Z then Some (np_absolute TheBand)
  else None.

(** The test "the operation resulted in a Boolean raster". *)
Definition Math_boolean_result (Operation : Z) : bool :=
  (Operation =? SPAMATH_EQUAL)%Z || (Operation =? SPAMATH_NOT_EQUAL)%Z ||
  (Operation =? SPAMATH_GREATER)%Z || (Operation =? SPAMATH_LESS)%Z ||
  (Operation =? SPAMATH_GREATER_OR_EQUAL)%Z || (Operation =? SPAMATH_LESS_OR_EQUAL)%Z ||
  (Operation =? SPAMATH_AND)%Z || (Operation =? SPAMATH_OR)%Z ||
  (Operation =? SPAMATH_MAX)%Z || (Operation =? SPAMATH_MIN)%Z.

(** One turn of either band loop, after [Band2] (if any) was fetched:
    append the result, then convert a Boolean result. *)
Definition Math_step (Operation : Z) (op : option (M ndarray)) (BandIndex : nat)
    (NewBands : list ndarray) (NewDataset : SpaDatasetRaster)
  : M (list ndarray * SpaDatasetRaster) :=
  NewBands <- match op with
              | Some m => b <- m ;; ret (NewBands ++ [b])
              | None => ret NewBands
              end ;;
  if Math_boolean_result Operation then
    match NewBands !! BandIndex with
    | None => raise IndexError
    | Some b =>
        b' <- astype_int b ;;
        ret (<[BandIndex := b']> NewBands, set_GDALDataType (Some GDT_Byte) NewDataset)
    end
  else ret (NewBands, NewDataset).

Fixpoint Math_raster_loop (Operation : Z) (Input2 : SpaDatasetRaster)
    (bands : list ndarray) (BandIndex : nat) (NewBands : list ndarray)
    (NewDataset : SpaDatasetRaster) : M (list ndarray * SpaDatasetRaster) :=
  match bands with
  | [] => ret (NewBands, NewDataset)
  | TheBand :: rest =>
      Band2 <- GetBand Input2 BandIndex ;;
      r <- Math_step Operation (Math_raster_op Operation TheBand Band2) BandIndex
             NewBands NewDataset ;;
      Math_raster_loop Operation Input2 rest (S BandIndex) r.1 r.2
  end.

Fixpoint Math_scalar_loop (Operation : Z) (Input2 : Qc)
    (bands : list ndarray) (BandIndex : nat) (NewBands : list ndarray)
    (NewDataset : SpaDatasetRaster) : M (list ndarray * SpaDatasetRaster) :=
  match bands with
  | [] => ret (NewBands, NewDataset)
  | TheBand :: rest =>
      r <- Math_step Operation (Math_scalar_op Operation TheBand Input2) BandIndex
             NewBands NewDataset ;;
      Math_scalar_loop Operation Input2 rest (S BandIndex) r.1 r.2
  end.

Definition Math (self : SpaDatasetRaster) (Operation : Z) (Input2 : math_input)
  : M SpaDatasetRaster :=
  match Input2 with
  | InputDataset Input2 =>
      if bool_decide (GetNumBands self ≠ GetNumBands Input2) then
        raise (Exception "Sorry, the number of bands in the two rasters must match")
      else
        p <- ResampleToMatch self Input2 ;;
        let Input1 := p.1 in
        let Input2 := p.2 in
        NewDataset <- Clone Input1 ;;
        match TheBands Input1 with
        | None => raise TypeError
        | Some bs =>
            r <- Math_raster_loop Operation Input2 bs 0 [] NewDataset ;;
            ret (SetBands r.2 r.1)
        end
  | InputNumber x =>
      NewDataset <- Clone self ;;
      match TheBands self with
      | None => raise TypeError
      | Some bs =>
          r <- Math_scalar_loop Operation x bs 0 [] NewDataset ;;
          ret (SetBands r.2 r.1)
      end
  end.

(** The operator overloads and one-line functions of the comparisons. *)
Definition Equal (Input1 : SpaDatasetRaster) Input2 := Math Input1 SPAMATH_EQUAL Input2.
Definition NotEqual (Input1 : SpaDatasetRaster) Input2 := Math Input1 SPAMATH_NOT_EQUAL Input2.
Definition LessThan (Input1 : SpaDatasetRaster) Input2 := Math Input1 SPAMATH_LESS Input2.
Definition GreaterThan (Input1 : SpaDatasetRaster) Input2 := Math Input1 SPAMATH_GREATER Input2.
Definition LessThanOrEqual (Input1 : SpaDatasetRaster) Input2 :=
  Math Input1 SPAMATH_LESS_OR_EQUAL Input2.
Definition GreaterThanOrEqual (Input1 : SpaDatasetRaster) Input2 :=
  Math Input1 SPAMATH_GREATER_OR_EQUAL Input2.

End WithCollaborators.

(** ** Further numpy operations *)

(** [g[i][j]], if the grid has such a cell. *)
Definition pixel (g : grid) (i j : nat) : option Qc := g !! i ≫= fun row => row !! j.

(** [a[i][j]] and [a[i][j] = x] for indices that are not negative; the
    assignment writes the buffer of [a] in place. *)
Definition np_getitem (a : ndarray) (i j : nat) : M Qc :=
  fun h =>
    if bool_decide (i < nrows a)%nat && bool_decide (j < ncols a)%nat then
      match pixel (read h a) i j with
      | Some v => Ok (v, h)
      | None => Raise IndexError
      end
    else Raise IndexError.

Definition np_setitem (a : ndarray) (i j : nat) (x : Qc) : M unit :=
  if bool_decide (i < nrows a)%nat && bool_decide (j < ncols a)%nat then
    fun h => Ok (tt, alter (alter (alter (fun _ => x) (col0 a + j)%nat) (row0 a + i)%nat)
                       (base a) h)
  else raise IndexError.

(** [numpy.zeros((n, m), dtype=...)]: a negative dimension is refused.
    As everywhere, the element type is not tracked. *)
Definition np_zeros (n m : Z) : M ndarray :=
  if (n <? 0)%Z || (m <? 0)%Z then raise ValueError
  else np_alloc (Z.to_nat n) (Z.to_nat m)
         (replicate (Z.to_nat n) (replicate (Z.to_nat m) 0)).

Definition Qc_min (x y : Qc) : Qc := if Qc_ltb y x then y else x.
Definition Qc_max (x y : Qc) : Qc := if Qc_ltb x y then y else x.

(** [numpy.amin(a)] and [numpy.amax(a)] over all axes. *)
Definition np_reduce (f : Qc -> Qc -> Qc) (g : grid) : result Qc :=
  match concat g with
  | [] => Raise ValueError              (* zero-size array *)
  | x :: l => Ok (foldl f x l)
  end.

(** A scalar of [numpy.ma]: a value, or the constant [numpy.ma.masked]. *)
Inductive ma_scalar : Type :=
  | ma_value (x : Qc)
  | ma_masked.

(** The mask of [numpy.ma.masked_array(data, mask)] for [data] of shape
    [n] by [m]: a mask of another shape is repeated if it has one
    element, reshaped if it has as many as the data, refused otherwise. *)
Definition ma_mask (n m : nat) (mask : grid) (n' m' : nat) : result grid :=
  if bool_decide (n' = n /\ m' = m) then Ok mask
  else if bool_decide ((n' * m')%nat = 1%nat)
    then Ok (replicate n (replicate m (default 0 (head (concat mask)))))
  else if bool_decide ((n' * m')%nat = (n * m)%nat)
    then Ok (reshape (replicate n m) (concat mask))
  else Raise (Exception "Mask and data not compatible").   (* numpy.ma.MaskError *)

(** [MaskedArray.min] and [MaskedArray.max] over all axes: the masked
    cells are left out, and the result is [masked] when every cell is. *)
Definition ma_reduce (f : Qc -> Qc -> Qc) (data mask : grid) : result ma_scalar :=
  let cells := zip (concat data) (concat mask) in
  match cells with
  | [] => Raise ValueError
  | _ =>
      match (filter (fun c => truthy c.2 = false) cells).*1 with
      | [] => Ok ma_masked
      | x :: l => Ok (ma_value (foldl f x l))
      end
  end.

(** [math.floor(x)], of the exact number [x]. *)
Definition math_floor (x : Qc) : Z := Qfloor (this x).

(** ** Further methods of [SpaDatasetRaster] *)

(** The loop of [AllocateArray]. *)
Fixpoint AllocateArray_loop (self : SpaDatasetRaster) (n : nat) (Bands : list ndarray)
  : M (list ndarray) :=
  match n with
  | O => ret Bands
  | S n' =>
      b <- np_zeros (HeightInPixels self) (WidthInPixels self) ;;
      AllocateArray_loop self n' (Bands ++ [b])
  end.

(** [self.AllocateArray()]: the bands, and [self] as the call leaves it. *)
Definition AllocateArray (self : SpaDatasetRaster) : M (SpaDatasetRaster * list ndarray) :=
  let NumPyType := GetNumPyType self in
  Bands <- AllocateArray_loop self (Z.to_nat (NumBands self)) [] ;;
  ret (set_TheBands (Some Bands) self, Bands).

(** [self.GetMinMax(Index)] for an index that is not negative. *)
Definition GetMinMax (self : SpaDatasetRaster) (Index : nat)
  : M (ma_scalar * ma_scalar) :=
  match TheBands self with
  | None => raise TypeError             (* None[Index] *)
  | Some bs =>
      match bs !! Index with
      | None => raise IndexError
      | Some TheBand =>
          data <- np_read TheBand ;;
          match TheMask self with
          | Some TheMask =>
              mask <- np_read TheMask ;;
              mask <- lift (ma_mask (nrows TheBand) (ncols TheBand) mask
                              (nrows TheMask) (ncols TheMask)) ;;
              Min <- lift (ma_reduce Qc_min data mask) ;;
              Max <- lift (ma_reduce Qc_max data mask) ;;
              ret (Min, Max)
          | None =>
              Min <- lift (np_reduce Qc_min data) ;;
              Max <- lift (np_reduce Qc_max data) ;;
              ret (ma_value Min, ma_value Max)
          end
      end
  end.

(** ** [SpaResample.NearestNeighbor] *)

(** The settings of a [SpaResample] object, [Settings[Resample]], as
    [__init__] sets them. *)
Record SpaResample : Type := mk_SpaResample {
  RowRate : Qc;
  ColumnRate : Qc
}.

Definition SpaResample_init : SpaResample :=
  {| RowRate := Qc_of_Z 10; ColumnRate := Qc_of_Z 10 |}.

(** The three nested loops of [NearestNeighbor]: over the bands, for one
    output pixel; over the columns of one output row; over the rows.
    [InputMask] and [OutputMask] are [None] throughout, so the test on
    the mask always passes and no mask is written. *)
Fixpoint NearestNeighbor_bands (InputBands : option (list ndarray))
    (OutputBands : list ndarray) (InputRowIndex InputColumnIndex : nat)
    (OutputRowIndex OutputColumnIndex : nat) (n : nat) (BandIndex : nat) : M unit :=
  match n with
  | O => ret tt
  | S n' =>
      match OutputBands !! BandIndex with
      | None => raise IndexError
      | Some OutputBand =>
          match InputBands with
          | None => raise TypeError            (* None[BandIndex] *)
          | Some bs =>
              match bs !! BandIndex with
              | None => raise IndexError
              | Some InputBand =>
                  v <- np_getitem InputBand InputRowIndex InputColumnIndex ;;
                  _ <- np_setitem OutputBand OutputRowIndex OutputColumnIndex v ;;
                  NearestNeighbor_bands InputBands OutputBands InputRowIndex
                    InputColumnIndex OutputRowIndex OutputColumnIndex n' (S BandIndex)
              end
          end
      end
  end.

Fixpoint NearestNeighbor_columns (self : SpaResample) (InputBands : option (list ndarray))
    (OutputBands : list ndarray) (InputWidthInPixels : Z) (NumBands : Z)
    (InputRowIndex : nat) (OutputRowIndex : nat) (n : nat) (OutputColumnIndex : nat)
  : M unit :=
  match n with
  | O => ret tt
  | S n' =>
      let InputColumnIndex :=
        math_floor (Qc_of_Z (Z.of_nat OutputColumnIndex) * ColumnRate self + 0) in
      _ <- (if (0 <=? InputColumnIndex)%Z && (InputColumnIndex <? InputWidthInPixels)%Z
            then NearestNeighbor_bands InputBands OutputBands InputRowIndex
                   (Z.to_nat InputColumnIndex) OutputRowIndex OutputColumnIndex
                   (Z.to_nat NumBands) 0
            else ret tt) ;;
      NearestNeighbor_columns self InputBands OutputBands InputWidthInPixels NumBands
        InputRowIndex OutputRowIndex n' (S OutputColumnIndex)
  end.

Fixpoint NearestNeighbor_rows (self : SpaResample) (InputBands : option (list ndarray))
    (OutputBands : list ndarray) (InputWidthInPixels InputHeightInPixels : Z)
    (NumBands : Z) (OutputColumnEnd : Z) (n : nat) (OutputRowIndex : nat) : M unit :=
  match n with
  | O => ret tt
  | S n' =>
      let InputRowIndex :=
        math_floor (Qc_of_Z (Z.of_nat OutputRowIndex) * RowRate self + 0) in
      _ <- (if (0 <=? InputRowIndex)%Z && (InputRowIndex <? InputHeightInPixels)%Z
            then NearestNeighbor_columns self InputBands OutputBands InputWidthInPixels
                   NumBands (Z.to_nat InputRowIndex) OutputRowIndex
                   (Z.to_nat OutputColumnEnd) 0
            else ret tt) ;;
      NearestNeighbor_rows self InputBands OutputBands InputWidthInPixels
        InputHeightInPixels NumBands OutputColumnEnd n' (S OutputRowIndex)
  end.

(** [self.NearestNeighbor(InputRasterDataset)]; what it prints is left
    out.  The output bands are allocated by the loop that [AllocateArray]
    also runs. *)
Definition SpaResample_NearestNeighbor (self : SpaResample)
    (InputRasterDataset : SpaDatasetRaster) : M SpaDatasetRaster :=
  let OutputDataset := CopyPropertiesButNotData SpaDatasetRaster_init InputRasterDataset in
  let NumPyType := GetNumPyType OutputDataset in
  let InputWidthInPixels := GetWidthInPixels InputRasterDataset in
  let InputHeightInPixels := GetHeightInPixels InputRasterDataset in
  q <- lift (py_truediv (Qc_of_Z InputHeightInPixels) (RowRate self)) ;;
  let OutputRowEnd := math_floor q in
  q <- lift (py_truediv (Qc_of_Z InputWidthInPixels) (ColumnRate self)) ;;
  let OutputColumnEnd := math_floor q in
  let OutputDataset := set_HeightInPixels OutputRowEnd OutputDataset in
  let OutputDataset := set_WidthInPixels OutputColumnEnd OutputDataset in
  r <- GetBands InputRasterDataset ;;
  let InputBands := r.2 in
  let NumBands := GetNumBands OutputDataset in
  OutputBands <- AllocateArray_loop OutputDataset (Z.to_nat NumBands) [] ;;
  _ <- NearestNeighbor_rows self InputBands OutputBands InputWidthInPixels
         InputHeightInPixels NumBands OutputColumnEnd (Z.to_nat OutputRowEnd) 0 ;;
  ret (set_TheBands (Some OutputBands) OutputDataset).

(** ** One-line functions of the arithmetic *)

Section OneLine.
Context `{Collaborators}.

(** [if isinstance(Input1,(int,float)): Input1, Input2 = Input2, Input1] *)
Definition number_second (Input1 Input2 : math_input) : math_input * math_input :=
  match Input1 with
  | InputNumber _ => (Input2, Input1)
  | InputDataset _ => (Input1, Input2)
  end.

(** [Input1=SpaBase.GetInput(Input1)] and [Input1.Math(Operation,Input2)]:
    a number has no method [Math]. *)
Definition GetInput_Math (Input1 : math_input) (Operation : Z) (Input2 : math_input)
  : M SpaDatasetRaster :=
  match Input1 with
  | InputDataset Input1 => Math Input1 Operation Input2
  | InputNumber _ => raise AttributeError
  end.

Definition Add (Input1 Input2 : math_input) : M SpaDatasetRaster :=
  let p := number_second Input1 Input2 in GetInput_Math p.1 SPAMATH_ADD p.2.
Definition Subtract (Input1 Input2 : math_input) : M SpaDatasetRaster :=
  let p := number_second Input1 Input2 in GetInput_Math p.1 SPAMATH_SUBTRACT p.2.
Definition Multiply (Input1 Input2 : math_input) : M SpaDatasetRaster :=
  let p := number_second Input1 Input2 in GetInput_Math p.1 SPAMATH_MULTIPLY p.2.
Definition Divide (Input1 Input2 : math_input) : M SpaDatasetRaster :=
  let p := number_second Input1 Input2 in GetInput_Math p.1 SPAMATH_DIVIDE p.2.
Definition Maximum (Input1 Input2 : math_input) : M SpaDatasetRaster :=
  let p := number_second Input1 Input2 in GetInput_Math p.1 SPAMATH_MAX p.2.
Definition Minimum (Input1 Input2 : math_input) : M SpaDatasetRaster :=
  let p := number_second Input1 Input2 in GetInput_Math p.1 SPAMATH_MIN p.2.

End OneLine.


(** ** Test doubles for the collaborators, and sample rasters *)

(** A window reader standing in for [gdal.Translate]: it maps the
    projection window to a pixel window of the raster and, as GDAL does,
    refuses a window that holds no pixel by returning [None]. *)
Definition stub_Translate (ds : option gdal_Dataset) (projWin : bounds)
  : result (option gdal_Dataset) :=
  match ds with
  | None => Ok None
  | Some ds =>
      let '(ulx, uly, lrx, lry) := projWin in
      let gt := GetGeoTransform ds in
      if Qc_leb lrx ulx || Qc_leb uly lry then Ok None
      else
        match py_floordiv (ulx - gt0 gt) (gt1 gt), py_floordiv (uly - gt3 gt) (gt5 gt),
              py_floordiv (lrx - ulx) (gt1 gt), py_floordiv (lry - uly) (gt5 gt) with
        | Ok xoff, Ok yoff, Ok xsize, Ok ysize =>
            if (xsize <=? 0)%Z || (ysize <=? 0)%Z then Ok None
            else
              let crop (b : gdal_Band) :=
                mk_gdal_Band (DataType b) (GetNoDataValue b)
                  (window (Z.to_nat yoff) (Z.to_nat xoff) (Z.to_nat ysize) (Z.to_nat xsize)
                     (ReadAsArray b)) in
              Ok (Some (mk_gdal_Dataset xsize ysize
                          (mk_GeoTransform (gt0 gt + Qc_of_Z xoff * gt1 gt) (gt1 gt) (gt2 gt)
                             (gt3 gt + Qc_of_Z yoff * gt5 gt) (gt4 gt) (gt5 gt))
                          (GetSpatialRef ds) (crop <$> RasterBands ds)))
        | _, _, _, _ => Raise RuntimeError
        end
  end.

(** A nearest-neighbour resampler standing in for [scipy.ndimage.zoom],
    for positive zoom factors. *)
Definition stub_zoom_axis {A} (z : Qc) (l : list A) : list A :=
  let n := Z.to_nat (Qfloor (this (Qc_of_Z (Z.of_nat (length l)) * z + Q2Qc (1 # 2)))) in
  omap (fun i => l !! Z.to_nat (Qfloor (this (Qc_of_Z (Z.of_nat i) / z)))) (seq 0 n).

Definition stub_zoom (g : grid) (z : Qc) (order : Z) (mode : string) : result grid :=
  if Qc_ltb 0 z then Ok (stub_zoom_axis z (stub_zoom_axis z <$> g))
  else Raise RuntimeError.

Definition stub_Collaborators : Collaborators := {|
  gdal_Translate := stub_Translate;
  ndimage_zoom := stub_zoom;
  numpy_libm := fun _ x _ => x
|}.

(** [Z] and decimal literals as pixel values. *)
Definition zq (n : Z) : Qc := Qc_of_Z n.

(** A loaded one-band raster: its band is buffer 0 of the store. *)
Definition sample_raster (w h : Z) (x y pw ph : Qc) (a : ndarray) : SpaDatasetRaster := {|
  FilePath := None;
  WidthInPixels := w;
  HeightInPixels := h;
  NumBands := 1;
  NoDataValue := None;
  TheMask := None;
  TheBands := Some [a];
  GDALDataset := None;
  GDALDataType := Some GDT_Float32;
  XMin := x;
  YMax := y;
  PixelWidth := pw;
  PixelHeight := ph;
  SpatialReference := None;
  GCS := "WGS84";
  UTMZone := None;
  UTMSouth := false
|}.

(** The result of a run without its proofs of canonicity: what a test
    would print. *)
Definition show_grid (g : grid) : list (list Q) := grid_map this g.

(** A 2 by 2 raster at (0, 0) with 10-unit pixels, one band in buffer
    0, holding a negative pixel, a zero and a pixel below [Scale]'s
    threshold. *)
Definition sample_band : ndarray := mk_ndarray 0 0 0 2 2.
Definition sample_heap : heap :=
  [[[zq (-5); zq 3]; [zq 0; Q2Qc (1 # 1000000000)]]].
Definition sample : SpaDatasetRaster :=
  sample_raster 2 2 0 0 (zq 10) (zq (-10)) sample_band.

(** Two rasters over the same bounds [0, -20, 20, 0]: 2 by 2 pixels of
    10 units, and 1 pixel of 20 units. *)
Definition fine_coarse_heap : heap := [[[zq 1; zq 2]; [zq 3; zq 4]]; [[zq 7]]].
Definition fine : SpaDatasetRaster :=
  sample_raster 2 2 0 0 (zq 10) (zq (-10)) (mk_ndarray 0 0 0 2 2).
Definition coarse : SpaDatasetRaster :=
  sample_raster 1 1 0 0 (zq 20) (zq (-20)) (mk_ndarray 1 0 0 1 1).

(** Two loaded rasters that do not overlap: bounds [0, -20, 20, 0] and
    [100, -20, 120, 0]. *)
Definition west_east_heap : heap :=
  [[[zq 1; zq 2]; [zq 3; zq 4]]; [[zq 5; zq 6]; [zq 7; zq 8]]].
Definition sample_ds (x : Z) (g : grid) : gdal_Dataset :=
  mk_gdal_Dataset 2 2 (mk_GeoTransform (zq x) (zq 10) 0 0 0 (zq (-10))) None
    [mk_gdal_Band GDT_Float32 None g].
Definition west : SpaDatasetRaster :=
  set_GDALDataset (Some (sample_ds 0 [[zq 1; zq 2]; [zq 3; zq 4]]))
    (sample_raster 2 2 0 0 (zq 10) (zq (-10)) (mk_ndarray 0 0 0 2 2)).
Definition east : SpaDatasetRaster :=
  set_GDALDataset (Some (sample_ds 100 [[zq 5; zq 6]; [zq 7; zq 8]]))
    (sample_raster 2 2 (zq 100) 0 (zq 10) (zq (-10)) (mk_ndarray 1 0 0 2 2)).

(** A raster with a mask (buffer 1) and no [NoDataValue], as
    [Reclassify] with a [None] output leaves it; the same raster with a
    [NoDataValue]; and an unmasked raster over the same bounds. *)
Definition masked_heap : heap :=
  [[[zq 1; zq 2]; [zq 3; zq 4]]; [[1; 0]; [0; 0]]; [[zq 4; zq 3]; [zq 2; zq 1]]].
Definition mask_array : ndarray := mk_ndarray 1 0 0 2 2.
Definition masked : SpaDatasetRaster :=
  set_TheMask (Some mask_array)
    (sample_raster 2 2 0 0 (zq 10) (zq (-10)) (mk_ndarray 0 0 0 2 2)).
Definition masked_nodata : SpaDatasetRaster :=
  set_NoDataValue (Some (zq (-9999))) masked.
Definition unmasked : SpaDatasetRaster :=
  sample_raster 2 2 0 0 (zq 10) (zq (-10)) (mk_ndarray 2 0 0 2 2).

(** A one-pixel raster holding 120, and two overlapping ranges. *)
Definition pixel_120_heap : heap := [[[zq 120]]].
Definition pixel_120 : SpaDatasetRaster :=
  sample_raster 1 1 0 0 (zq 10) (zq (-10)) (mk_ndarray 0 0 0 1 1).
Definition overlapping_ranges : list input_class :=
  [ClassRange (zq 0) (zq 150); ClassRange (zq 100) (zq 200)].
Definition overlapping_outputs : list (option Qc) := [Some (zq 500); Some (zq 2)].

(** A GDAL dataset of one band that declares [v] as its no-data value
    and holds it in one pixel. *)
Definition nodata_ds (v : Qc) : gdal_Dataset :=
  mk_gdal_Dataset 2 2 (mk_GeoTransform 0 (zq 10) 0 0 0 (zq (-10))) None
    [mk_gdal_Band GDT_Float32 (Some v) [[zq 1; v]; [zq 3; zq 4]]].

(** GDAL datasets of one band of 64-bit floats over the grid of
    [sample], and two grids for them. *)
Definition float_ds (g : grid) : gdal_Dataset :=
  mk_gdal_Dataset 2 2 (mk_GeoTransform 0 (zq 10) 0 0 0 (zq (-10))) None
    [mk_gdal_Band GDT_Float64 None g].
Definition halves : grid := [[Q2Qc (1 # 2); zq 2]; [zq (-3); zq 4]].
Definition units : grid := [[zq 1; zq 2]; [zq 3; zq 4]].

(** Two classes of which the second has no output value. *)
Definition masking_ranges : list input_class :=
  [ClassRange (zq 0) (zq 2); ClassRange (zq 3) (zq 5)].
Definition masking_outputs : list (option Qc) := [Some (zq 9); None].

(** A resampler that takes every second row and column, and a 4 by 4
    raster for it. *)
Definition every_second : SpaResample := mk_SpaResample (zq 2) (zq 2).
Definition wide_heap : heap :=
  [[[zq 0; zq 1; zq 2; zq 3]; [zq 10; zq 11; zq 12; zq 13];
    [zq 20; zq 21; zq 22; zq 23]; [zq 30; zq 31; zq 32; zq 33]]].
Definition wide : SpaDatasetRaster :=
  sample_raster 4 4 0 0 (zq 10) (zq (-10)) (mk_ndarray 0 0 0 4 4).

(** * Vocabulary of the properties *)

(** An integer of magnitude at most [2^26], and a number that is one.
    Sums, differences and products of two such numbers are integers
    below [2^53] in magnitude, which double precision represents: on
    them the floating-point operations of the source round nothing, floor
    division included, and give what the rational arithmetic here gives.
    The properties that state a pixel index or a size in pixels computed
    from coordinates are stated for such numbers. *)
Definition small (n : Z) : Prop := (Z.abs n <= 2 ^ 26)%Z.
Definition whole (x : Qc) : Prop := exists n : Z, x = Qc_of_Z n /\ small n.

(** A number whose integer part [ndarray.astype(int)] can hold: numpy's
    [int] is a 64-bit integer. *)
Definition fits_int64 (x : Qc) : Prop := (- 2 ^ 63 <= py_int x < 2 ^ 63)%Z.

Definition grid_all (P : Qc -> Prop) (g : grid) : Prop := Forall (Forall P) g.

(** [g] has at most [n] rows of at most [m] pixels. *)
Definition fits (n m : nat) (g : grid) : Prop :=
  (length g <= n)%nat /\ Forall (fun row => (length row <= m)%nat) g.

(** [g] is an [n] by [m] rectangle. *)
Definition exact (n m : nat) (g : grid) : Prop :=
  length g = n /\ Forall (fun row => length row = m) g.

(** An allocated array that holds a full rectangle of its shape. *)
Definition wf (h : heap) (a : ndarray) : Prop :=
  (base a < length h)%nat /\ exact (nrows a) (ncols a) (read h a).

Definition any_pixel : Qc -> Prop := fun _ => True.

Definition zero_one : Qc -> Prop := fun x => x = 0 \/ x = 1.

(** [m] only allocates, and its result is a new array all of whose pixels
    satisfy [P]. *)
Definition produces (P : Qc -> Prop) (m : M ndarray) : Prop :=
  forall h a h', m h = Ok (a, h') ->
    h `prefix_of` h' /\ (length h <= base a < length h')%nat /\ grid_all P (read h' a).

(** An allocated array whose pixels satisfy [P]. *)
Definition band_ok (P : Qc -> Prop) (h : heap) (b : ndarray) : Prop :=
  (base b < length h)%nat /\ grid_all P (read h b).

Definition comparisons : list Z :=
  [SPAMATH_EQUAL; SPAMATH_NOT_EQUAL; SPAMATH_LESS; SPAMATH_LESS_OR_EQUAL;
   SPAMATH_GREATER; SPAMATH_GREATER_OR_EQUAL].

(** The unsigned integer types among the supported GDAL types, with
    their width in bits. *)
Definition unsigned_bits (t : GDALType) : option nat :=
  match t with
  | GDT_Byte => Some 8%nat
  | GDT_UInt16 => Some 16%nat
  | GDT_UInt32 => Some 32%nat
  | _ => None
  end.

Definition loop_post (bands NewBands : list ndarray) (BandIndex : nat)
    (NewDataset : SpaDatasetRaster) (h : heap)
    (r : list ndarray * SpaDatasetRaster) (h' : heap) : Prop :=
  h `prefix_of` h' /\ length r.1 = (BandIndex + length bands)%nat /\
  Forall (band_ok zero_one h') r.1 /\
  (bands <> [] -> GDALDataType r.2 = Some GDT_Byte).

(** The intersection rectangle is empty. *)
Definition empty_intersection (b1 b2 : bounds) : Prop :=
  let '(XMin, YMin, XMax, YMax) := common_bounds b1 b2 in
  XMax ≤ XMin \/ YMax ≤ YMin.

(** The array objects a dataset holds: its bands, then its mask. *)
Definition arrays (d : SpaDatasetRaster) : list ndarray :=
  default [] (TheBands d) ++ option_list (TheMask d).

(** The buffers of [d] are allocated in [h]. *)
Definition valid (h : heap) (d : SpaDatasetRaster) : Prop :=
  Forall (fun a => (base a < length h)%nat) (arrays d).

(** [a] looks at a buffer allocated between [h] and [h']. *)
Definition fresh_in (h h' : heap) (a : ndarray) : Prop :=
  (length h <= base a < length h')%nat.

(** [a'] in [h'] is a copy of [a] in [h], in a buffer of its own. *)
Definition copy_of (h h' : heap) (a a' : ndarray) : Prop :=
  fresh_in h h' a' /\ base a' <> base a /\ read h' a' = read h a /\
  nrows a' = nrows a /\ ncols a' = ncols a.

(** Two datasets look at a common buffer. *)
Definition shares_storage (d1 d2 : SpaDatasetRaster) : Prop :=
  exists a1 a2, a1 ∈ arrays d1 /\ a2 ∈ arrays d2 /\ base a1 = base a2.

(** The mask of a result of [Math], given the raster [d] that was cloned
    in store [h]. *)
Definition mask_cloned (d : SpaDatasetRaster) (h : heap)
    (out : SpaDatasetRaster) (h' : heap) : Prop :=
  match TheMask d with
  | Some m =>
      match NoDataValue d with
      | Some _ => exists m', TheMask out = Some m' /\ copy_of h h' m m'
      | None => TheMask out = None
      end
  | None => TheMask out = None
  end.

(** Only the buffers at [locs] may differ between [h] and [h']. *)
Definition frame (locs : list nat) (h h' : heap) : Prop :=
  (length h <= length h')%nat /\
  forall i, (i < length h)%nat -> i ∉ locs -> h' !! i = h !! i.

(** The pixel function of [InputBand[InputBand<0.00000001] = 0]. *)
Definition Scale_pixel (x : Qc) : Qc := if Qc_ltb x Scale_threshold then 0 else x.

(** Does a pixel value match a class? *)
Definition class_matches (mode : string) (c : input_class) (v : Qc) : bool :=
  if bool_decide (mode = "discrete") then
    match c with
    | ClassValue x => Qc_eqb v x
    | ClassRange _ _ => false
    end
  else
    match c with
    | ClassRange lo hi => Qc_ltb lo v && Qc_leb v hi
    | ClassValue _ => false
    end.

(** What the class loop does to one pixel: each class with an output
    value is tested on the value the classes before it left. *)
Fixpoint reclass_pixel (mode : string) (classes : list input_class)
    (outputs : list (option Qc)) (Index : nat) (v : Qc) : Qc :=
  match classes with
  | [] => v
  | c :: rest =>
      let v' := match outputs !! Index with
                | Some (Some o) => if class_matches mode c v then o else v
                | _ => v
                end in
      reclass_pixel mode rest outputs (S Index) v'
  end.

(** The output of the first, and of the last, class with an output value
    that matches the pixel [v] itself. *)
Fixpoint first_match (mode : string) (classes : list input_class)
    (outputs : list (option Qc)) (Index : nat) (v : Qc) : option Qc :=
  match classes with
  | [] => None
  | c :: rest =>
      match outputs !! Index with
      | Some (Some o) =>
          if class_matches mode c v then Some o
          else first_match mode rest outputs (S Index) v
      | _ => first_match mode rest outputs (S Index) v
      end
  end.

Fixpoint last_match (mode : string) (classes : list input_class)
    (outputs : list (option Qc)) (Index : nat) (v : Qc) : option Qc :=
  match classes with
  | [] => None
  | c :: rest =>
      match last_match mode rest outputs (S Index) v with
      | Some o => Some o
      | None =>
          match outputs !! Index with
          | Some (Some o) => if class_matches mode c v then Some o else None
          | _ => None
          end
      end
  end.

Section Vocabulary.
Context `{Collaborators}.

(** [gdal.Translate] refuses a projection window [ulx, uly, lrx, lry]
    that holds no pixel: it returns [None], or raises when GDAL's
    exceptions are switched on. *)
Definition refuses_empty_windows : Prop :=
  forall ds ulx uly lrx lry, lrx ≤ ulx \/ uly ≤ lry ->
    gdal_Translate ds (ulx, uly, lrx, lry) = Ok None \/
    exists e, gdal_Translate ds (ulx, uly, lrx, lry) = Raise e.

(** What one input band and its output band look like after [Scale]. *)
Definition scaled (z : Qc) (h h' : heap) (b b' : ndarray) : Prop :=
  read h' b = grid_map Scale_pixel (read h b) /\
  exists g', ndimage_zoom (grid_map Scale_pixel (read h b)) z 3 "constant" = Ok g' /\
    read h' b' = window 0 0 (grid_shape g').1 (grid_shape g').2 g'.

End Vocabulary.

(** ** Vocabulary of the further properties *)

(** A georeference in whole numbers, as of a raster with 10 m pixels on
    a metric grid. *)
Definition whole_georeference (d : SpaDatasetRaster) : Prop :=
  whole (XMin d) /\ whole (YMax d) /\ whole (PixelWidth d) /\ whole (PixelHeight d).

(** A grid as GDAL and numpy hand it over: every row has the length of the first. *)
Definition rectangular (g : grid) : Prop := exact (grid_shape g).1 (grid_shape g).2 g.

(** [d], in the store [h], is a raster as [Load] reads it in the store
    [h0] from a GDAL dataset all of whose bands hold 64-bit floats: its
    band arrays are numpy [float64] arrays, on which numpy computes in
    double precision whatever the other operand is.  The properties that
    state the pixels of an arithmetic result are stated for such rasters:
    the element type of an array is not part of [ndarray], and on an
    integer array numpy's arithmetic wraps around. *)
Definition loaded_float64 (ds : gdal_Dataset) (h0 : heap) (d : SpaDatasetRaster)
    (h : heap) : Prop :=
  RasterBands ds <> [] /\
  Forall (fun band => DataType band = GDT_Float64 /\ rectangular (ReadAsArray band))
    (RasterBands ds) /\
  exists self, TheBands self = None /\ Load self (Some ds) h0 = Ok (d, h).

(** The [NoDataValue] that [GetBands] keeps: GDAL's, unless it is 0. *)
Definition kept_NoDataValue (b : gdal_Band) : option Qc :=
  match GetNoDataValue b with
  | Some v => if Qc_eqb v 0 then None else Some v
  | None => None
  end.

(** The mask [GetBands] builds from the first band it reads. *)
Definition loaded_mask (NoData : option Qc) (band : gdal_Band) (h' : heap)
    (Mask : option ndarray) : Prop :=
  match NoData with
  | Some v => exists m, Mask = Some m /\ wf h' m /\
      read h' m = grid_map (fun x => of_bool (Qc_eqb x v)) (ReadAsArray band)
  | None => Mask = None
  end.

(** [b] has the shape of [a]. *)
Definition same_shape (a b : ndarray) : Prop := nrows b = nrows a /\ ncols b = ncols a.

(** [numpy.where(mask, x, band)] pixel by pixel. *)
Definition fill_where (x : Qc) (mask band : grid) : grid :=
  zip_with (zip_with (fun c v => if truthy c then x else v)) mask band.

(** Is there a class whose output value is [None], and does one of them
    match the pixel [v]? *)
Fixpoint masks_any (classes : list input_class) (outputs : list (option Qc))
    (Index : nat) : bool :=
  match classes with
  | [] => false
  | _ :: rest =>
      match outputs !! Index with
      | Some None => true
      | _ => masks_any rest outputs (S Index)
      end
  end.

Fixpoint masks_pixel (mode : string) (classes : list input_class)
    (outputs : list (option Qc)) (Index : nat) (v : Qc) : bool :=
  match classes with
  | [] => false
  | c :: rest =>
      match outputs !! Index with
      | Some None => class_matches mode c v || masks_pixel mode rest outputs (S Index) v
      | _ => masks_pixel mode rest outputs (S Index) v
      end
  end.

(** The pixels of the mask that the first loop of [Reclassify] leaves. *)
Definition or_mask (mode : string) (classes : list input_class)
    (outputs : list (option Qc)) (Index : nat) (band mask : grid) : grid :=
  zip_with (zip_with (fun v o =>
    of_bool (masks_pixel mode classes outputs Index v || truthy o))) band mask.

(** What [Math] does to a computed pixel, and to the element type, after
    the operation: the results it takes for Boolean are converted. *)
Definition Math_result_pixel (Operation : Z) (v : Qc) : Qc :=
  if Math_boolean_result Operation then Qc_of_Z (py_int v) else v.

Definition Math_result_type (Operation : Z) (t : option GDALType) : option GDALType :=
  if Math_boolean_result Operation then Some GDT_Byte else t.

(** The pixel functions of the operations of [Math] that are exact on
    rationals: for each operation code, the value of an output pixel
    given the input pixel [v] and the second operand [x]. *)
Definition scalar_pixel_functions : list (Z * (Qc -> Qc -> Qc)) :=
  [(SPAMATH_ADD, fun v x => v + x);
   (SPAMATH_SUBTRACT, fun v x => v - x);
   (SPAMATH_MULTIPLY, fun v x => v * x);
   (SPAMATH_EQUAL, fun v x => of_bool (Qc_eqb v x));
   (SPAMATH_NOT_EQUAL, fun v x => of_bool (negb (Qc_eqb v x)));
   (SPAMATH_GREATER, fun v x => of_bool (Qc_ltb x v));
   (SPAMATH_LESS, fun v x => of_bool (Qc_ltb v x));
   (SPAMATH_GREATER_OR_EQUAL, fun v x => of_bool (Qc_leb x v));
   (SPAMATH_LESS_OR_EQUAL, fun v x => of_bool (Qc_leb v x));
   (SPAMATH_AND, fun v x => of_bool (truthy v && truthy x));
   (SPAMATH_OR, fun v x => of_bool (truthy v || truthy x));
   (SPAMATH_NOT, fun v _ => of_bool (negb (truthy v)));
   (SPAMATH_ROUND_FIX, fun v _ => Qc_of_Z (py_int v));
   (SPAMATH_ROUND_FLOOR, fun v _ => Qc_of_Z (Qfloor (this v)));
   (SPAMATH_ROUND_CEIL, fun v _ => Qc_of_Z (Qceiling (this v)));
   (SPAMATH_ROUND_TRUNC, fun v _ => Qc_of_Z (py_int v));
   (SPAMATH_SQUARE, fun v _ => v * v);
   (SPAMATH_ABSOLUTE, fun v _ => if Qc_ltb v 0 then - v else v)].

Definition raster_pixel_functions : list (Z * (Qc -> Qc -> Qc)) :=
  [(SPAMATH_ADD, fun v w => v + w);
   (SPAMATH_SUBTRACT, fun v w => v - w);
   (SPAMATH_MULTIPLY, fun v w => v * w);
   (SPAMATH_EQUAL, fun v w => of_bool (Qc_eqb v w));
   (SPAMATH_NOT_EQUAL, fun v w => of_bool (negb (Qc_eqb v w)));
   (SPAMATH_GREATER, fun v w => of_bool (Qc_ltb w v));
   (SPAMATH_LESS, fun v w => of_bool (Qc_ltb v w));
   (SPAMATH_GREATER_OR_EQUAL, fun v w => of_bool (Qc_leb w v));
   (SPAMATH_LESS_OR_EQUAL, fun v w => of_bool (Qc_leb v w));
   (SPAMATH_AND, fun v w => of_bool (truthy v && truthy w));
   (SPAMATH_OR, fun v w => of_bool (truthy v || truthy w))].

Definition raster_extrema : list (Z * (Qc -> Qc -> Qc)) :=
  [(SPAMATH_MAX, fun v w => if Qc_ltb v w then w else v);
   (SPAMATH_MIN, fun v w => if Qc_ltb w v then w else v)].

(** The tests of the six comparison operations of [Math]. *)
Definition comparison_tests : list (Z * (Qc -> Qc -> bool)) :=
  [(SPAMATH_EQUAL, Qc_eqb);
   (SPAMATH_NOT_EQUAL, fun v w => negb (Qc_eqb v w));
   (SPAMATH_LESS, Qc_ltb);
   (SPAMATH_LESS_OR_EQUAL, Qc_leb);
   (SPAMATH_GREATER, fun v w => Qc_ltb w v);
   (SPAMATH_GREATER_OR_EQUAL, fun v w => Qc_leb w v)].

(** What [Math] returns for a comparison on a raster with the bands
    [bs]: for each band an array of its shape that holds 0 and 1 only,
    and the type [GDT_Byte], unless there is no band: then the type is
    left as it was. *)
Definition comparison_result (self : SpaDatasetRaster) (bs : list ndarray)
    (out : SpaDatasetRaster) (h' : heap) : Prop :=
  exists bs', TheBands out = Some bs' /\
    Forall2 (fun b b' => same_shape b b' /\ grid_all zero_one (read h' b')) bs bs' /\
    GetType out = match bs with [] => GetType self | _ => Some GDT_Byte end.

(** The operation codes that [Math] knows with a scalar operand. *)
Definition scalar_operations : list Z :=
  [SPAMATH_ADD; SPAMATH_SUBTRACT; SPAMATH_MULTIPLY; SPAMATH_DIVIDE;
   SPAMATH_EQUAL; SPAMATH_NOT_EQUAL; SPAMATH_GREATER; SPAMATH_LESS;
   SPAMATH_GREATER_OR_EQUAL; SPAMATH_LESS_OR_EQUAL; SPAMATH_AND; SPAMATH_OR;
   SPAMATH_NOT; SPAMATH_ROUND; SPAMATH_ROUND_INTEGER; SPAMATH_ROUND_FIX;
   SPAMATH_ROUND_FLOOR; SPAMATH_ROUND_CEIL; SPAMATH_ROUND_TRUNC;
   SPAMATH_NATURAL_LOG; SPAMATH_LOG; SPAMATH_EXPONENT; SPAMATH_POWER;
   SPAMATH_SQUARE; SPAMATH_SQUARE_ROOT; SPAMATH_ABSOLUTE;
   SPAMATH_MAX; SPAMATH_MIN].

(** The point [(x, y)] lies in the rectangle [(XMin, YMin, XMax, YMax)]. *)
Definition inside (b : bounds) (x y : Qc) : Prop :=
  b.1.1.1 ≤ x /\ x ≤ b.1.2 /\ b.1.1.2 ≤ y /\ y ≤ b.2.

(** An array of shape [n] by [m] in a buffer allocated between [h] and
    [h'], all of whose pixels are 0. *)
Definition zeros_in (n m : Z) (h h' : heap) (b : ndarray) : Prop :=
  fresh_in h h' b /\ wf h' b /\ Z.of_nat (nrows b) = n /\ Z.of_nat (ncols b) = m /\
  grid_all (fun v => v = 0) (read h' b).

(** [v] is the value of a pixel of [data] that [mask] does not hide. *)
Definition unmasked_pixel (data : grid) (mask : option grid) (v : Qc) : Prop :=
  exists i j, pixel data i j = Some v /\
    match mask with
    | Some mask => exists c, pixel mask i j = Some c /\ truthy c = false
    | None => True
    end.

(** [g] with the pixel at [(i, j)] set to [x]. *)
Definition grid_set (i j : nat) (x : Qc) (g : grid) : grid :=
  alter (alter (fun _ => x) j) i g.

(** The row or column of the input that output index [i] samples. *)
Definition sampled (rate : Qc) (i : nat) : nat :=
  Z.to_nat (math_floor (Qc_of_Z (Z.of_nat i) * rate + 0)).

(** The pixel that band [k] of the output of [NearestNeighbor] is to
    hold at [(r, c)]. *)
Definition NN_target (self : SpaResample) (h : heap) (bs : list ndarray)
    (k r c : nat) : option Qc :=
  bs !! k ≫= fun b => pixel (read h b) (sampled (RowRate self) r)
                        (sampled (ColumnRate self) c).

(** The store while the loops of [NearestNeighbor] run: the buffers of
    the input are as they were, the output bands are full rectangles,
    and the pixels in [Done] hold their samples. *)
Definition NN_inv (self : SpaResample) (h : heap) (bs New : list ndarray) (L : nat)
    (hh : heap) (Done : nat -> nat -> nat -> Prop) : Prop :=
  length hh = L /\
  (forall i, (i < length h)%nat -> hh !! i = h !! i) /\
  (forall b', b' ∈ New -> wf hh b') /\
  forall k b' r c, New !! k = Some b' -> Done k r c ->
    pixel (read hh b') r c = NN_target self h bs k r c.

(** * Properties *)

(** ** The store monad *)

Lemma bind_Ok {A B} (m : M A) (k : A -> M B) (h : heap) (r : B * heap) :
  bind m k h = Ok r <-> exists a h1, m h = Ok (a, h1) /\ k a h1 = Ok r.
Proof.
  unfold bind. split.
  - destruct (m h) as [[a h1]|e]; [eauto | discriminate].
  - intros (a & h1 & -> & Hk). exact Hk.
Qed.

Lemma lift_Ok {A} (r : result A) (h : heap) (a : A) (h' : heap) :
  lift r h = Ok (a, h') <-> r = Ok a /\ h' = h.
Proof.
  unfold lift. destruct r; split; intros Hr.
  - by inversion Hr.
  - destruct Hr as [Hr ->]. by inversion Hr.
  - discriminate.
  - by destruct Hr.
Qed.

Lemma ret_Ok {A} (a b : A) (h h' : heap) : ret a h = Ok (b, h') <-> a = b /\ h' = h.
Proof. unfold ret. split; [intros Hr; by inversion Hr | by intros [-> ->]]. Qed.

Lemma raise_Ok {A} (e : exn) (h : heap) (r : A * heap) : raise e h = Ok r -> False.
Proof. discriminate. Qed.

(** Splits the hypotheses that say a monadic computation returned. *)
Ltac inv_M :=
  repeat match goal with
  | H : bind _ _ _ = Ok _ |- _ =>
      let a := fresh "a" in let h := fresh "h" in let E := fresh "E" in
      apply bind_Ok in H; destruct H as (a & h & E & H)
  | H : ret _ _ = Ok _ |- _ => apply ret_Ok in H; destruct H as [? ?]; subst
  | H : lift _ _ = Ok _ |- _ => apply lift_Ok in H; destruct H as [H ?]; subst
  | H : raise _ _ = Ok _ |- _ => destruct (raise_Ok _ _ _ H)
  | H : Raise _ = Ok _ |- _ => discriminate H
  | H : Ok _ = Ok _ |- _ => inversion H; clear H; subst
  end.

(** ** Windows and reads *)

Lemma exact_fits n m g : exact n m g -> fits n m g.
Proof.
  intros [Hn Hm]. split; [lia |].
  eapply Forall_impl; [exact Hm | simpl; intros; lia].
Qed.

Lemma window_fits r c n m (g : grid) : fits n m (window r c n m g).
Proof.
  unfold window, fits. rewrite length_fmap, length_take. split; [lia |].
  apply Forall_fmap, Forall_forall. intros row _. simpl.
  rewrite length_take. lia.
Qed.

Lemma window_id n m (g : grid) : fits n m g -> window 0 0 n m g = g.
Proof.
  intros [Hn Hm]. unfold window. rewrite drop_0, take_ge by lia.
  induction Hm as [|row g' Hrow _ IH]; [reflexivity |].
  rewrite fmap_cons, drop_0, take_ge by lia. f_equal.
  apply IH. simpl in Hn. lia.
Qed.

Lemma window_all P r c n m (g : grid) : grid_all P g -> grid_all P (window r c n m g).
Proof.
  unfold grid_all, window. intros Hg.
  apply Forall_fmap. eapply Forall_impl.
  - apply Forall_take, Forall_drop, Hg.
  - intros row Hrow. simpl. by apply Forall_take, Forall_drop.
Qed.

Lemma grid_map_fits {A B} (f : A -> B) n m (g : list (list A)) :
  (length g <= n)%nat /\ Forall (fun row => (length row <= m)%nat) g ->
  (length (grid_map f g) <= n)%nat /\
  Forall (fun row => (length row <= m)%nat) (grid_map f g).
Proof.
  unfold grid_map. intros [Hn Hm]. rewrite length_fmap. split; [done |].
  apply Forall_fmap. eapply Forall_impl; [exact Hm |].
  intros row Hrow. simpl. by rewrite length_fmap.
Qed.

Lemma grid_map_exact (f : Qc -> Qc) n m (g : grid) :
  exact n m g -> exact n m (grid_map f g).
Proof.
  unfold grid_map. intros [Hn Hm]. split; [by rewrite length_fmap |].
  apply Forall_fmap. eapply Forall_impl; [exact Hm |].
  intros row Hrow. simpl. by rewrite length_fmap.
Qed.

Lemma grid_map_all (P : Qc -> Prop) (f : Qc -> Qc) (g : grid) :
  (forall x, P (f x)) -> grid_all P (grid_map f g).
Proof.
  intros Hf. unfold grid_all, grid_map.
  apply Forall_fmap, Forall_forall. intros row _. simpl.
  apply Forall_fmap, Forall_forall. intros x _. apply Hf.
Qed.

Lemma zip_with_all {A B C} (P : C -> Prop) (f : A -> B -> C) (l : list A) (k : list B) :
  (forall x y, P (f x y)) -> Forall P (zip_with f l k).
Proof.
  intros Hf. revert k. induction l as [|x l IH]; intros [|y k]; simpl; auto.
Qed.

Lemma read_alloc (h : heap) (g : grid) n m :
  read (h ++ [g]) (mk_ndarray (length h) 0 0 n m) = window 0 0 n m g.
Proof.
  unfold read. simpl. rewrite lookup_app_r by lia.
  by replace (length h - length h)%nat with 0%nat by lia.
Qed.

Lemma read_prefix (h h' : heap) (a : ndarray) :
  h `prefix_of` h' -> (base a < length h)%nat -> read h' a = read h a.
Proof.
  intros [t ->] Ha. unfold read. by rewrite lookup_app_l.
Qed.

Lemma read_fits (h : heap) (a : ndarray) : fits (nrows a) (ncols a) (read h a).
Proof. apply window_fits. Qed.

Lemma prefix_length_le (h h' : heap) : h `prefix_of` h' -> (length h <= length h')%nat.
Proof. intros [t ->]. rewrite length_app. lia. Qed.

(** ** What the numpy functions allocate *)

Lemma grid_all_any (g : grid) : grid_all any_pixel g.
Proof.
  apply Forall_forall. intros row _. apply Forall_forall. by intros x _.
Qed.

Lemma np_alloc_produces P n m (g : grid) : grid_all P g -> produces P (np_alloc n m g).
Proof.
  intros Hg h a h' Hrun. unfold np_alloc in Hrun. inv_M.
  split; [by apply prefix_app_r |]. simpl. rewrite length_app. simpl.
  split; [lia |]. rewrite read_alloc. by apply window_all.
Qed.

Lemma np_map_produces P (f : Qc -> Qc) (a : ndarray) :
  (forall x, P (f x)) -> produces P (np_map f a).
Proof.
  intros Hf h b h' Hrun. unfold np_map, np_read in Hrun. inv_M.
  eapply np_alloc_produces; [| exact Hrun]. by apply grid_map_all.
Qed.

Lemma np_binary_produces P (f : Qc -> Qc -> Qc) (a : ndarray) (b : np_operand) :
  (forall x y, P (f x y)) -> produces P (np_binary f a b).
Proof.
  intros Hf h c h' Hrun. destruct b as [b|x]; simpl in Hrun.
  - destruct (broadcast_dim (nrows a) (nrows b)) as [n|]; [| inv_M].
    destruct (broadcast_dim (ncols a) (ncols b)) as [m|]; [| inv_M].
    unfold np_read in Hrun. inv_M.
    eapply np_alloc_produces; [| exact Hrun].
    apply zip_with_all. intros r1 r2. by apply zip_with_all.
  - eapply np_map_produces; [| exact Hrun]. intros v. apply Hf.
Qed.

Lemma np_array_produces (a : ndarray) : produces any_pixel (np_array a).
Proof.
  intros h b h' Hrun. unfold np_array, np_read in Hrun. inv_M.
  eapply np_alloc_produces; [| exact Hrun]. apply grid_all_any.
Qed.

Lemma np_where_produces (cond : ndarray) (x : Qc) (a : ndarray) :
  produces any_pixel (np_where cond x a).
Proof.
  intros h b h' Hrun. unfold np_where in Hrun.
  destruct (broadcast_dim (nrows cond) (nrows a)) as [n|]; [| inv_M].
  destruct (broadcast_dim (ncols cond) (ncols a)) as [m|]; [| inv_M].
  unfold np_read in Hrun. inv_M.
  eapply np_alloc_produces; [| exact Hrun]. apply grid_all_any.
Qed.

Lemma produces_weaken (P Q : Qc -> Prop) (m : M ndarray) :
  (forall x, P x -> Q x) -> produces P m -> produces Q m.
Proof.
  intros HPQ Hm h a h' Hrun. destruct (Hm h a h' Hrun) as (Hp & Hb & Hg).
  split; [done |]. split; [done |].
  eapply Forall_impl; [exact Hg |]. intros row Hrow.
  eapply Forall_impl; [exact Hrow | exact HPQ].
Qed.

(** ** Comparisons in [Math] *)

Lemma band_ok_prefix P (h h' : heap) (b : ndarray) :
  h `prefix_of` h' -> band_ok P h b -> band_ok P h' b.
Proof.
  intros Hp [Hb Hg]. split.
  - pose proof (prefix_length_le _ _ Hp). lia.
  - by rewrite (read_prefix h h').
Qed.

Lemma produces_band_ok P (m : M ndarray) h a h' :
  produces P m -> m h = Ok (a, h') -> h `prefix_of` h' /\ band_ok P h' a.
Proof.
  intros Hm Hrun. destruct (Hm _ _ _ Hrun) as (Hp & Hb & Hg).
  split; [done |]. split; [lia | done].
Qed.

Lemma of_bool_zero_one (b : bool) : zero_one (of_bool b).
Proof. destruct b; [by right | by left]. Qed.

Lemma py_int_zero_one (x : Qc) : zero_one x -> zero_one (Qc_of_Z (py_int x)).
Proof.
  intros [-> | ->]; [left | right]; by apply Qc_is_canon.
Qed.

Lemma astype_int_zero_one (b : ndarray) (h : heap) (b' : ndarray) (h' : heap) :
  band_ok zero_one h b -> astype_int b h = Ok (b', h') ->
  h `prefix_of` h' /\ band_ok zero_one h' b'.
Proof.
  intros [Hb Hg] Hrun. unfold astype_int, np_map, np_read in Hrun. inv_M.
  eapply (produces_band_ok zero_one); [| exact Hrun].
  apply np_alloc_produces. unfold grid_all, grid_map.
  apply Forall_fmap. eapply Forall_impl; [exact Hg |].
  intros row Hrow. simpl. apply Forall_fmap.
  eapply Forall_impl; [exact Hrow |]. intros x Hx. by apply py_int_zero_one.
Qed.

Section MathComparison.
Context `{Collaborators}.

Lemma comparison_boolean_result (Operation : Z) :
  Operation ∈ comparisons -> Math_boolean_result Operation = true.
Proof.
  unfold comparisons. rewrite !elem_of_cons, elem_of_nil.
  intros [-> | [-> | [-> | [-> | [-> | [-> | []]]]]]]; reflexivity.
Qed.

Lemma comparison_raster_op (Operation : Z) (TheBand Band2 : ndarray) :
  Operation ∈ comparisons ->
  exists m, Math_raster_op Operation TheBand Band2 = Some m /\ produces zero_one m.
Proof.
  unfold comparisons. rewrite !elem_of_cons, elem_of_nil.
  intros [-> | [-> | [-> | [-> | [-> | [-> | []]]]]]];
    (eexists; split; [reflexivity |]);
    apply np_binary_produces; intros; apply of_bool_zero_one.
Qed.

Lemma comparison_scalar_op (Operation : Z) (TheBand : ndarray) (Input2 : Qc) :
  Operation ∈ comparisons ->
  exists m, Math_scalar_op Operation TheBand Input2 = Some m /\ produces zero_one m.
Proof.
  unfold comparisons. rewrite !elem_of_cons, elem_of_nil.
  intros [-> | [-> | [-> | [-> | [-> | [-> | []]]]]]];
    (eexists; split; [reflexivity |]);
    apply np_binary_produces; intros; apply of_bool_zero_one.
Qed.

(** One turn of the band loop on a comparison: one more band, of 0 and
    1, and the dataset typed as byte. *)
Lemma Math_step_comparison (Operation : Z) (m : M ndarray) (BandIndex : nat)
    (NewBands : list ndarray) (NewDataset : SpaDatasetRaster) (h : heap)
    (r : list ndarray * SpaDatasetRaster) (h' : heap) :
  Math_boolean_result Operation = true ->
  produces zero_one m ->
  length NewBands = BandIndex ->
  Forall (band_ok zero_one h) NewBands ->
  Math_step Operation (Some m) BandIndex NewBands NewDataset h = Ok (r, h') ->
  h `prefix_of` h' /\ length r.1 = S BandIndex /\
  Forall (band_ok zero_one h') r.1 /\ GDALDataType r.2 = Some GDT_Byte.
Proof.
  intros Hbool Hm Hlen Hall Hrun. subst BandIndex.
  unfold Math_step in Hrun. rewrite Hbool in Hrun.
  inv_M. destruct (produces_band_ok _ _ _ _ _ Hm E0) as [Hp1 Hok1].
  rewrite lookup_app_r in Hrun by lia.
  replace (length NewBands - length NewBands)%nat with 0%nat in Hrun by lia.
  simpl in Hrun. inv_M.
  destruct (astype_int_zero_one _ _ _ _ Hok1 E) as [Hp2 Hok2].
  simpl. split; [by etrans |]. split.
  - rewrite length_insert, length_app. simpl. lia.
  - split; [| reflexivity].
    replace (length NewBands) with (length NewBands + 0)%nat by lia.
    rewrite insert_app_r. simpl. apply Forall_app. split.
    + eapply Forall_impl; [exact Hall |]. intros b Hb.
      apply (band_ok_prefix _ h); [by etrans | done].
    + by apply Forall_singleton.
Qed.

Lemma Math_raster_loop_comparison (Operation : Z) (Input2 : SpaDatasetRaster)
    (bands : list ndarray) :
  Operation ∈ comparisons ->
  forall BandIndex NewBands NewDataset h r h',
  length NewBands = BandIndex ->
  Forall (band_ok zero_one h) NewBands ->
  Math_raster_loop Operation Input2 bands BandIndex NewBands NewDataset h = Ok (r, h') ->
  loop_post bands NewBands BandIndex NewDataset h r h'.
Proof.
  intros Hop. induction bands as [|TheBand rest IH];
    intros BandIndex NewBands NewDataset h r h' Hlen Hall Hrun; subst BandIndex;
    simpl in Hrun.
  - inv_M. unfold loop_post. simpl. split; [done |]. split; [lia |]. by split.
  - inv_M. unfold GetBand in E.
    destruct (TheBands Input2) as [bs2|]; [| inv_M].
    destruct (bs2 !! length NewBands) as [Band2|]; inv_M.
    match type of E0 with
    | Math_step _ (Math_raster_op _ _ ?b2) _ _ _ _ = _ =>
        destruct (comparison_raster_op Operation TheBand b2 Hop) as (m & Hm & Hprod)
    end.
    rewrite Hm in E0. destruct a0 as [NewBands1 NewDataset1].
    destruct (Math_step_comparison _ _ _ _ _ _ _ _
                (comparison_boolean_result _ Hop) Hprod eq_refl Hall E0)
      as (Hp1 & Hlen1 & Hall1 & Hty1).
    simpl in *.
    destruct (IH _ _ _ _ _ _ Hlen1 Hall1 Hrun) as (Hp2 & Hlen2 & Hall2 & Hty2).
    unfold loop_post. split; [by etrans |]. split; [simpl; lia |]. split; [done |].
    intros _. destruct rest as [|b rest'].
    + simpl in Hrun. inv_M. exact Hty1.
    + by apply Hty2.
Qed.

Lemma Math_scalar_loop_comparison (Operation : Z) (Input2 : Qc) (bands : list ndarray) :
  Operation ∈ comparisons ->
  forall BandIndex NewBands NewDataset h r h',
  length NewBands = BandIndex ->
  Forall (band_ok zero_one h) NewBands ->
  Math_scalar_loop Operation Input2 bands BandIndex NewBands NewDataset h = Ok (r, h') ->
  loop_post bands NewBands BandIndex NewDataset h r h'.
Proof.
  intros Hop. induction bands as [|TheBand rest IH];
    intros BandIndex NewBands NewDataset h r h' Hlen Hall Hrun; subst BandIndex;
    simpl in Hrun.
  - inv_M. unfold loop_post. simpl. split; [done |]. split; [lia |]. by split.
  - inv_M.
    destruct (comparison_scalar_op Operation TheBand Input2 Hop) as (m & Hm & Hprod).
    rewrite Hm in E. destruct a as [NewBands1 NewDataset1].
    destruct (Math_step_comparison _ _ _ _ _ _ _ _
                (comparison_boolean_result _ Hop) Hprod eq_refl Hall E)
      as (Hp1 & Hlen1 & Hall1 & Hty1).
    simpl in *.
    destruct (IH _ _ _ _ _ _ Hlen1 Hall1 Hrun) as (Hp2 & Hlen2 & Hall2 & Hty2).
    unfold loop_post. split; [by etrans |]. split; [simpl; lia |]. split; [done |].
    intros _. destruct rest as [|b rest'].
    + simpl in Hrun. inv_M. exact Hty1.
    + by apply Hty2.
Qed.

(** For each of the six comparison operations, with a raster or a scalar
    operand, whenever [Math] returns a raster every pixel of every band
    of it is 0 or 1, and (the raster having a band) its type is
    [GDT_Byte], numpy's [uint8]; no unsigned integer type among the GDAL
    types is narrower. *)
Lemma Math_comparison_returns_zero_one (self : SpaDatasetRaster) (Operation : Z)
    (Input2 : math_input) (h : heap) (out : SpaDatasetRaster) (h' : heap) :
  Operation ∈ comparisons ->
  Math self Operation Input2 h = Ok (out, h') ->
  exists bs, TheBands out = Some bs /\
    Forall (fun b => grid_all zero_one (read h' b)) bs /\
    (bs <> [] ->
       GetType out = Some GDT_Byte /\ GetNumPyType out = Some "uint8"%string /\
       forall t n, unsigned_bits t = Some n ->
         unsigned_bits GDT_Byte = Some 8%nat /\ (8 <= n)%nat).
Proof.
  intros Hop Hrun.
  assert (Hfin : forall bands NewDataset h0 r,
    loop_post bands [] 0 NewDataset h0 r h' ->
    exists bs, TheBands (SetBands r.2 r.1) = Some bs /\
      Forall (fun b => grid_all zero_one (read h' b)) bs /\
      (bs <> [] ->
         GetType (SetBands r.2 r.1) = Some GDT_Byte /\
         GetNumPyType (SetBands r.2 r.1) = Some "uint8"%string /\
         forall t n, unsigned_bits t = Some n ->
           unsigned_bits GDT_Byte = Some 8%nat /\ (8 <= n)%nat)).
  { intros bands NewDataset h0 r (Hp & Hlen & Hall & Hty).
    exists r.1. split; [reflexivity |]. split.
    - eapply Forall_impl; [exact Hall |]. by intros b [_ Hb].
    - intros Hne.
      assert (Hb : bands <> []).
      { intros ->. simpl in Hlen. destruct r.1; [done | discriminate]. }
      specialize (Hty Hb).
      unfold GetType, GetNumPyType, SetBands. simpl. rewrite Hty.
      split; [reflexivity |]. split; [reflexivity |].
      intros t n Ht. split; [reflexivity |].
      destruct t; simpl in Ht; inversion Ht; lia. }
  unfold Math in Hrun. destruct Input2 as [Input2|x].
  - destruct (bool_decide _); [inv_M |]. inv_M.
    destruct (TheBands a.1) as [bs|]; [| inv_M]. inv_M.
    eapply Hfin. eapply Math_raster_loop_comparison; eauto.
  - inv_M. destruct (TheBands self) as [bs|]; [| inv_M]. inv_M.
    eapply Hfin. eapply Math_scalar_loop_comparison; eauto.
Qed.

End MathComparison.

(** ** Pixel and reference coordinates *)

Lemma Qfloor_Qc_of_Z (n : Z) : Qfloor (this (Qc_of_Z n)) = n.
Proof. simpl. apply Qfloor_Z. Qed.

Lemma py_floordiv_multiple (n : Z) (x : Qc) :
  x <> 0 -> py_floordiv (Qc_of_Z n * x) x = Ok n.
Proof.
  intros Hx. unfold py_floordiv, Qc_eqb.
  rewrite bool_decide_eq_false_2 by done.
  replace (Qc_of_Z n * x / x) with (Qc_of_Z n) by (by field).
  by rewrite Qfloor_Qc_of_Z.
Qed.

(** C6. Pixel to reference and back.  [GetRefXFromPixelX] is the map of
    the claim; [GetRefYFromPixelY] subtracts [PixelY * PixelHeight] from
    [YMax] where the claim, [GetBounds] and [ExtractByPixels] add it.
    For a georeference in whole numbers, on which the floor division of
    the source rounds nothing, a column index is recovered; a row index
    is converted to another reference coordinate than the claim's
    (unless it is 0) and comes back negated. *)
Theorem pixel_ref_roundtrip_negates_row (self : SpaDatasetRaster) (PixelX PixelY : Z) :
  GetRefXFromPixelX self PixelX = XMin self + Qc_of_Z PixelX * PixelWidth self /\
  GetRefYFromPixelY self PixelY = YMax self - Qc_of_Z PixelY * PixelHeight self /\
  (whole (XMin self) -> whole (PixelWidth self) -> small PixelX ->
   PixelWidth self <> 0 ->
     GetPixelXFromRefX self (GetRefXFromPixelX self PixelX) = Ok PixelX) /\
  (whole (YMax self) -> whole (PixelHeight self) -> small PixelY ->
   PixelHeight self <> 0 ->
     GetPixelYFromRefY self (GetRefYFromPixelY self PixelY) = Ok (- PixelY)%Z /\
     (PixelY <> 0%Z ->
        GetRefYFromPixelY self PixelY <> YMax self + Qc_of_Z PixelY * PixelHeight self)).
Proof.
  split; [reflexivity |]. split; [reflexivity |]. split.
  - intros _ _ _ Hw.
    unfold GetPixelXFromRefX, GetRefXFromPixelX, GetResolution. simpl.
    replace (XMin self + Qc_of_Z PixelX * PixelWidth self - XMin self)
      with (Qc_of_Z PixelX * PixelWidth self) by ring.
    by rewrite py_floordiv_multiple.
  - intros _ _ _ Hh. split.
    + unfold GetPixelYFromRefY, GetRefYFromPixelY, GetResolution. simpl.
      replace (YMax self - (YMax self - Qc_of_Z PixelY * PixelHeight self))
        with (Qc_of_Z PixelY * PixelHeight self) by ring.
      by rewrite py_floordiv_multiple.
    + intros Hy Heq. unfold GetRefYFromPixelY, GetResolution in Heq. cbn [fst snd] in Heq.
      assert (Hz : Qc_of_Z PixelY * PixelHeight self = 0).
      { set (a := Qc_of_Z PixelY * PixelHeight self) in *.
        assert (H2 : (1 + 1) * a = 0).
        { replace ((1 + 1) * a) with (YMax self + a - (YMax self - a)) by ring.
          rewrite <- Heq. ring. }
        apply Qcmult_integral in H2 as [H2 | H2]; [discriminate H2 | exact H2]. }
      apply Qcmult_integral in Hz as [Hz | Hz]; [| done].
      apply Hy. rewrite <- Z2Qc_inj_0 in Hz. by apply Z2Qc_inj in Hz.
Qed.

(** ** ExtractByPixels *)

Lemma GetBands_loaded (self : SpaDatasetRaster) (bs : list ndarray) (h : heap) :
  TheBands self = Some bs -> GetBands self h = Ok ((self, Some bs), h).
Proof. intros Hbs. unfold GetBands. by rewrite Hbs. Qed.

Lemma slice_indices_from (start stop n : Z) :
  (0 <= start <= stop)%Z -> (0 <= n)%Z ->
  slice_indices start stop n =
    (Z.to_nat (Z.min start n), Z.to_nat (Z.min stop n - Z.min start n)).
Proof.
  intros Hs Hn. unfold slice_indices, slice_bound.
  destruct (Z.ltb_spec start 0); [lia |].
  destruct (Z.ltb_spec stop 0); [lia |].
  f_equal. f_equal. lia.
Qed.

Section Extract.
Context `{Collaborators}.

Lemma ExtractByPixels_loop_slices (bs : list ndarray) (c0 r0 c1 r1 : Z) (n : nat) :
  forall BandIndex OutputBands,
  (BandIndex + n <= length bs)%nat ->
  ExtractByPixels_loop (Some bs) c0 r0 c1 r1 n BandIndex OutputBands =
    Ok (OutputBands ++
        ((fun b => np_slice b r0 (r1 + 1) c0 (c1 + 1)) <$> take n (drop BandIndex bs))).
Proof.
  induction n as [|n IH]; intros BandIndex OutputBands Hlen; simpl.
  - by rewrite app_nil_r.
  - destruct (bs !! BandIndex) as [b|] eqn:Hb.
    + rewrite IH by lia. rewrite <- (assoc_L (++)). simpl.
      by rewrite (drop_S _ _ _ Hb).
    + apply lookup_ge_None in Hb. lia.
Qed.

(** C5, as the code has it. For a window that starts inside the source,
    [ExtractByPixels] returns a raster declared [r1-r0+1] by [c1-c0+1]
    whose origin is shifted by [(c0*PixelWidth, r0*PixelHeight)] and whose
    bands are slices of the source bands; a band has that shape when the
    window lies inside the source, and is clipped to the source, without
    any error, when [c1 >= w] or [r1 >= h]. *)
Theorem ExtractByPixels_shape_and_origin (d : SpaDatasetRaster) (c0 r0 c1 r1 : Z)
    (bs : list ndarray) (h : heap) :
  TheBands d = Some bs ->
  NumBands d = Z.of_nat (length bs) ->
  Forall (fun b => Z.of_nat (nrows b) = HeightInPixels d /\
                   Z.of_nat (ncols b) = WidthInPixels d) bs ->
  (0 <= c0 <= c1)%Z -> (0 <= r0 <= r1)%Z ->
  exists out bs',
    SpaResample_ExtractByPixels d c0 r0 c1 r1 h = Ok (out, h) /\
    HeightInPixels out = (r1 - r0 + 1)%Z /\ WidthInPixels out = (c1 - c0 + 1)%Z /\
    XMin out = XMin d + Qc_of_Z c0 * PixelWidth d /\
    YMax out = YMax d + Qc_of_Z r0 * PixelHeight d /\
    TheBands out = Some bs' /\
    bs' = (fun b => np_slice b r0 (r1 + 1) c0 (c1 + 1)) <$> bs /\
    Forall (fun b' =>
      Z.of_nat (nrows b') =
        (Z.min (r1 + 1) (HeightInPixels d) - Z.min r0 (HeightInPixels d))%Z /\
      Z.of_nat (ncols b') =
        (Z.min (c1 + 1) (WidthInPixels d) - Z.min c0 (WidthInPixels d))%Z) bs' /\
    ((c1 < WidthInPixels d)%Z -> (r1 < HeightInPixels d)%Z ->
     Forall (fun b' => Z.of_nat (nrows b') = (r1 - r0 + 1)%Z /\
                       Z.of_nat (ncols b') = (c1 - c0 + 1)%Z) bs').
Proof.
  intros Hbs Hnum Hshape Hc Hr.
  assert (Hclip : Forall (fun b' =>
      Z.of_nat (nrows b') =
        (Z.min (r1 + 1) (HeightInPixels d) - Z.min r0 (HeightInPixels d))%Z /\
      Z.of_nat (ncols b') =
        (Z.min (c1 + 1) (WidthInPixels d) - Z.min c0 (WidthInPixels d))%Z)
    ((fun b => np_slice b r0 (r1 + 1) c0 (c1 + 1)) <$> bs)).
  { apply Forall_fmap. eapply Forall_impl; [exact Hshape |].
    intros b [Hrows Hcols]. unfold np_slice, compose. cbv beta.
    rewrite !slice_indices_from by lia. simpl. lia. }
  eexists _, _. split.
  - unfold SpaResample_ExtractByPixels, bind.
    rewrite (GetBands_loaded _ _ _ Hbs). simpl.
    unfold GetNumBands. simpl. rewrite Hnum, Nat2Z.id.
    rewrite ExtractByPixels_loop_slices by (simpl; lia).
    simpl. rewrite drop_0, firstn_all. reflexivity.
  - simpl. split; [reflexivity |]. split; [reflexivity |].
    split; [reflexivity |]. split; [reflexivity |].
    split; [reflexivity |]. split; [reflexivity |]. split; [exact Hclip |].
    intros Hc1 Hr1. eapply Forall_impl; [exact Hclip |].
    intros b' [Hrows Hcols]. simpl in *. lia.
Qed.

End Extract.

(** ** ResampleToMatch *)

Lemma Qc_ltb_true (x y : Qc) : Qc_ltb x y = true <-> x < y.
Proof. unfold Qc_ltb. apply bool_decide_eq_true. Qed.

Lemma Qc_ltb_false (x y : Qc) : Qc_ltb x y = false <-> y ≤ x.
Proof.
  unfold Qc_ltb. rewrite bool_decide_eq_false. split.
  - apply Qcnot_lt_le.
  - apply Qcle_not_lt.
Qed.

Lemma py_truediv_Ok (x y q : Qc) : py_truediv x y = Ok q <-> y <> 0 /\ q = x / y.
Proof.
  unfold py_truediv, Qc_eqb. case_bool_decide; split.
  - discriminate.
  - by intros [? _].
  - intros Hq. by inversion Hq.
  - by intros [_ ->].
Qed.

Lemma GetBands_resolution (self : SpaDatasetRaster) (h : heap)
    (r : SpaDatasetRaster * option (list ndarray)) (h' : heap) :
  GetBands self h = Ok (r, h') ->
  PixelWidth r.1 = PixelWidth self /\ PixelHeight r.1 = PixelHeight self.
Proof.
  unfold GetBands. intros Hrun.
  destruct (TheBands self); [by inv_M |].
  destruct (GDALDataset self) as [ds|]; [| by inv_M].
  destruct (GetRasterBand ds 1); [| inv_M]. by inv_M.
Qed.

Section Align.
Context `{Collaborators}.

Lemma Scale_loop_resolution (InputBands : option (list ndarray)) (ZoomFactor : Qc)
    (n : nat) :
  forall BandIndex OutputBands OutputDataset h r h',
  Scale_loop InputBands ZoomFactor n BandIndex OutputBands OutputDataset h = Ok (r, h') ->
  PixelWidth r.2 = PixelWidth OutputDataset /\
  PixelHeight r.2 = PixelHeight OutputDataset.
Proof.
  induction n as [|n IH]; intros BandIndex OutputBands OutputDataset h r h' Hrun;
    simpl in Hrun.
  - by inv_M.
  - destruct InputBands as [bs|]; [| inv_M].
    destruct (bs !! BandIndex); [| inv_M]. inv_M.
    by destruct (IH _ _ _ _ _ _ Hrun) as [-> ->].
Qed.

(** [Scale] divides the pixel size by the zoom factor. *)
Lemma Scale_resolution (d : SpaDatasetRaster) (ZoomFactor : Qc) (h : heap)
    (out : SpaDatasetRaster) (h' : heap) :
  SpaResample_Scale d ZoomFactor h = Ok (out, h') ->
  ZoomFactor <> 0 /\
  PixelWidth out = PixelWidth d / ZoomFactor /\
  PixelHeight out = PixelHeight d / ZoomFactor.
Proof.
  unfold SpaResample_Scale. intros Hrun. inv_M.
  destruct (GetBands_resolution _ _ _ _ E) as [Hw Hh].
  apply py_truediv_Ok in E0 as [Hz ->]. apply py_truediv_Ok in E1 as [_ ->].
  destruct (Scale_loop_resolution _ _ _ _ _ _ _ _ _ E2) as [Hw2 Hh2].
  simpl in Hw2, Hh2. split; [done |].
  destruct (TheMask a.1); inv_M; simpl; by rewrite Hw2, Hh2, Hw, Hh.
Qed.

Lemma Qcdiv_div_cancel (x y : Qc) : x <> 0 -> y / x <> 0 -> y / (y / x) = x.
Proof.
  intros Hx Hz.
  assert (Hy : y <> 0).
  { intros ->. apply Hz. unfold Qcdiv. apply Qcmult_0_l. }
  by field.
Qed.

(** C1, as the code has it. For rasters with equal bounds, the raster
    with the smaller (finer) horizontal pixel size is returned as it is
    and the coarser one is resampled with the ratio coarser/finer, which
    [Scale] divides its pixel size by: both outputs have the finer of the
    two pixel sizes.  With equal pixel sizes both are returned as they
    are. *)
Theorem ResampleToMatch_ends_at_finer (d1 d2 : SpaDatasetRaster) (h : heap)
    (r : SpaDatasetRaster * SpaDatasetRaster) (h' : heap) :
  GetBounds d1 = GetBounds d2 ->
  ResampleToMatch d1 d2 h = Ok (r, h') ->
  (PixelWidth d1 < PixelWidth d2 ->
     r.1 = d1 /\ PixelWidth r.2 = PixelWidth d1 /\
     Resample d2 (PixelWidth d2 / PixelWidth d1) h = Ok (r.2, h')) /\
  (PixelWidth d2 < PixelWidth d1 ->
     r.2 = d2 /\ PixelWidth r.1 = PixelWidth d2 /\
     Resample d1 (PixelWidth d1 / PixelWidth d2) h = Ok (r.1, h')) /\
  (PixelWidth d1 = PixelWidth d2 -> r = (d1, d2) /\ h' = h).
Proof.
  intros Hbounds Hrun. unfold ResampleToMatch in Hrun.
  rewrite bool_decide_eq_false_2 in Hrun by (intros Hne; by apply Hne).
  unfold GetResolution in Hrun. simpl in Hrun. inv_M. simpl in Hrun.
  destruct (Qc_ltb (PixelWidth d1) (PixelWidth d2)) eqn:H12;
    [| destruct (Qc_ltb (PixelWidth d2) (PixelWidth d1)) eqn:H21].
  - apply Qc_ltb_true in H12. inv_M.
    match goal with
    | Hd : py_truediv _ _ = Ok _ |- _ => apply py_truediv_Ok in Hd as [Hz ->]
    end.
    match goal with
    | Hs : Resample _ _ _ = Ok _ |- _ =>
        destruct (Scale_resolution _ _ _ _ _ Hs) as (Hz' & Hw & _)
    end.
    split; [| split].
    + intros _. simpl. split; [reflexivity |]. split; [| assumption].
      rewrite Hw. by apply Qcdiv_div_cancel.
    + intros H21. destruct (Qclt_not_le _ _ H12). by apply Qclt_le_weak.
    + intros Heq. rewrite Heq in H12. by destruct (Qclt_not_eq _ _ H12).
  - apply Qc_ltb_true in H21. inv_M.
    match goal with
    | Hd : py_truediv _ _ = Ok _ |- _ => apply py_truediv_Ok in Hd as [Hz ->]
    end.
    match goal with
    | Hs : Resample _ _ _ = Ok _ |- _ =>
        destruct (Scale_resolution _ _ _ _ _ Hs) as (Hz' & Hw & _)
    end.
    split; [| split].
    + intros H12'. destruct (Qclt_not_le _ _ H21). by apply Qclt_le_weak.
    + intros _. simpl. split; [reflexivity |]. split; [| assumption].
      rewrite Hw. by apply Qcdiv_div_cancel.
    + intros Heq. rewrite Heq in H21. by destruct (Qclt_not_eq _ _ H21).
  - apply Qc_ltb_false in H12, H21. inv_M. split; [| split].
    + intros Hlt. by destruct (Qclt_not_le _ _ Hlt).
    + intros Hlt. by destruct (Qclt_not_le _ _ Hlt).
    + done.
Qed.


End Align.

(** ** Storage of a dataset *)

Lemma fresh_in_mono (h0 h h' h1 : heap) (a : ndarray) :
  (length h0 <= length h)%nat -> (length h' <= length h1)%nat ->
  fresh_in h h' a -> fresh_in h0 h1 a.
Proof. unfold fresh_in. lia. Qed.

Lemma np_array_run (a : ndarray) (h : heap) :
  np_array a h = Ok (mk_ndarray (length h) 0 0 (nrows a) (ncols a), h ++ [read h a]).
Proof. reflexivity. Qed.

Lemma np_array_copy (a : ndarray) (h : heap) (a' : ndarray) (h' : heap) :
  (base a < length h)%nat -> np_array a h = Ok (a', h') ->
  h `prefix_of` h' /\ copy_of h h' a a'.
Proof.
  rewrite np_array_run. intros Ha Hrun. inv_M.
  split; [by apply prefix_app_r |]. unfold copy_of, fresh_in. simpl.
  rewrite length_app. simpl. split; [lia |]. split; [lia |].
  split; [| done]. rewrite read_alloc. apply window_id, read_fits.
Qed.

Lemma copy_of_prefix (h h1 h2 : heap) (a a' : ndarray) :
  h1 `prefix_of` h2 -> copy_of h h1 a a' -> copy_of h h2 a a'.
Proof.
  intros Hp ([Hlo Hhi] & Hne & Hread & Hshape).
  pose proof (prefix_length_le _ _ Hp).
  split; [unfold fresh_in; lia |]. split; [done |]. split; [| done].
  by rewrite (read_prefix h1 h2).
Qed.

Lemma copy_of_start (h0 h h' : heap) (a a' : ndarray) :
  h0 `prefix_of` h -> (base a < length h0)%nat ->
  copy_of h h' a a' -> copy_of h0 h' a a'.
Proof.
  intros Hp Ha ([Hlo Hhi] & Hne & Hread & Hshape).
  pose proof (prefix_length_le _ _ Hp).
  split; [unfold fresh_in; lia |]. split; [done |]. split; [| done].
  by rewrite Hread, (read_prefix h0 h).
Qed.

(** The loop of [Clone] over the bands: it always returns, with one copy
    per band. *)
Lemma mapM_np_array (bs : list ndarray) :
  forall h, Forall (fun a => (base a < length h)%nat) bs ->
  exists bs' h', mapM np_array bs h = Ok (bs', h') /\
    h `prefix_of` h' /\ Forall2 (copy_of h h') bs bs'.
Proof.
  induction bs as [|b bs IH]; intros h Hall.
  - exists [], h. split; [reflexivity |]. split; [done | constructor].
  - apply Forall_cons in Hall as [Hb Hall].
    destruct (np_array_copy b h _ _ Hb (np_array_run b h)) as [Hp1 Hcopy].
    destruct (IH (h ++ [read h b])) as (bs' & h' & Hrun & Hp2 & Hcopies).
    { eapply Forall_impl; [exact Hall |]. intros a Ha.
      rewrite length_app. simpl in *. lia. }
    eexists (_ :: bs'), h'. split.
    { simpl. unfold bind at 1. rewrite np_array_run.
      unfold bind at 1. rewrite Hrun. reflexivity. }
    split; [by etrans |]. constructor.
    + by apply (copy_of_prefix _ (h ++ [read h b])).
    + eapply Forall2_impl; [| intros a a' Hc; exact Hc].
      clear -Hcopies Hall Hp1.
      induction Hcopies as [|a a' l l' Hc _ IHl]; [constructor |].
      apply Forall_cons in Hall as [Ha Hall]. constructor; [| by apply IHl].
      by apply (copy_of_start h (h ++ [read h b])).
Qed.

(** What [Clone] returns, for a raster with loaded bands. *)
Lemma Clone_spec (d : SpaDatasetRaster)
    (bs : list ndarray) (h : heap) :
  TheBands d = Some bs -> valid h d ->
  exists d' bs' h',
    Clone d h = Ok (d', h') /\ h `prefix_of` h' /\
    TheBands d' = Some bs' /\ Forall2 (copy_of h h') bs bs' /\
    match TheMask d with
    | Some m =>
        match NoDataValue d with
        | Some _ => exists m', TheMask d' = Some m' /\ copy_of h h' m m'
        | None => TheMask d' = None
        end
    | None => TheMask d' = None
    end.
Proof.
  intros Hbs Hvalid. unfold valid, arrays in Hvalid. rewrite Hbs in Hvalid.
  simpl in Hvalid. apply Forall_app in Hvalid as [Hbands Hmask].
  destruct (mapM_np_array bs h Hbands) as (bs' & h1 & Hrun & Hp & Hcopies).
  unfold Clone. rewrite Hbs. unfold bind at 1. rewrite Hrun.
  destruct (TheMask d) as [m|] eqn:Hm; [destruct (NoDataValue d) as [v|] eqn:Hv |].
  - simpl in Hmask.
    assert (Hb : (base m < length h1)%nat).
    { rewrite Forall_singleton in Hmask. pose proof (prefix_length_le _ _ Hp). lia. }
    destruct (np_array_copy m h1 _ _ Hb (np_array_run m h1)) as [Hp2 Hcopy].
    eexists _, bs', _. unfold bind. rewrite np_array_run. split; [reflexivity |].
    split; [by etrans |]. split; [reflexivity |]. split.
    + eapply Forall2_impl; [exact Hcopies |]. intros a a' Hc.
      by apply (copy_of_prefix _ h1).
    + eexists. split; [reflexivity |].
      apply (copy_of_start h h1); [done | | done].
      by rewrite Forall_singleton in Hmask.
  - eexists _, bs', h1. split; [reflexivity |]. split; [done |].
    split; [reflexivity |]. split; [done | reflexivity].
  - destruct (NoDataValue d); eexists _, bs', h1; (split; [reflexivity |]);
      (split; [done |]); (split; [reflexivity |]); (split; [done | reflexivity]).
Qed.

Lemma Clone_Ok (d d' : SpaDatasetRaster) (h h' : heap) :
  valid h d -> Clone d h = Ok (d', h') ->
  h `prefix_of` h' /\ Forall (fresh_in h h') (arrays d') /\
  match TheMask d with
  | Some m =>
      match NoDataValue d with
      | Some _ => exists m', TheMask d' = Some m' /\ copy_of h h' m m'
      | None => TheMask d' = None
      end
  | None => TheMask d' = None
  end.
Proof.
  intros Hvalid Hrun.
  destruct (TheBands d) as [bs|] eqn:Hbs;
    [| unfold Clone in Hrun; rewrite Hbs in Hrun; inv_M].
  destruct (Clone_spec d bs h Hbs Hvalid)
    as (d'' & bs' & h'' & Hrun' & Hp & Hbs' & Hcopies & Hmask).
  rewrite Hrun in Hrun'. inversion Hrun'; subst d'' h''; clear Hrun'.
  split; [done |]. split; [| done].
  unfold arrays. rewrite Hbs'. simpl. apply Forall_app. split.
  - clear -Hcopies. induction Hcopies as [|a a' l l' [Hf _] _ IH]; by constructor.
  - destruct (TheMask d) as [m|]; [destruct (NoDataValue d) |].
    + destruct Hmask as (m' & -> & [Hf _]). by apply Forall_singleton.
    + rewrite Hmask. constructor.
    + rewrite Hmask. constructor.
Qed.

(** C9, as the code has it. [Clone] of a raster with loaded bands always
    returns; every band of the clone is a copy of the corresponding band,
    in a buffer allocated by the call; the arrays that existed before are
    unchanged; and the mask is copied in the same way when the raster has
    both a mask and a [NoDataValue], while the clone has no mask when
    [NoDataValue] is [None]. *)
Theorem Clone_copies_bands_and_guarded_mask (d : SpaDatasetRaster)
    (bs : list ndarray) (h : heap) :
  TheBands d = Some bs -> valid h d ->
  exists d' bs' h',
    Clone d h = Ok (d', h') /\ h `prefix_of` h' /\
    TheBands d' = Some bs' /\ Forall2 (copy_of h h') bs bs' /\
    match TheMask d with
    | Some m =>
        match NoDataValue d with
        | Some _ => exists m', TheMask d' = Some m' /\ copy_of h h' m m'
        | None => TheMask d' = None
        end
    | None => TheMask d' = None
    end.
Proof. apply Clone_spec. Qed.

(** ** The in-place write of [Scale] *)

Lemma take_drop_imap {A B} (F : nat -> A -> B) (r n : nat) (l : list A) :
  take n (drop r (imap F l)) = imap (fun i => F (r + i)%nat) (take n (drop r l)).
Proof.
  apply list_eq. intros i. rewrite list_lookup_imap.
  destruct (decide (i < n)%nat) as [Hi|Hi].
  - by rewrite !lookup_take_lt, !lookup_drop, list_lookup_imap by done.
  - by rewrite !lookup_take_ge by lia.
Qed.

Lemma truthy_of_bool (b : bool) : truthy (of_bool b) = b.
Proof. by destruct b. Qed.

(** Read through its own window, the written buffer holds the pixels of
    the band with those below the threshold replaced. *)
Lemma window_put_where (a : ndarray) (x : Qc) (f : Qc -> bool) (buf : grid) :
  let W := window (row0 a) (col0 a) (nrows a) (ncols a) buf in
  window (row0 a) (col0 a) (nrows a) (ncols a)
    (put_where a (grid_map (fun v => of_bool (f v)) W) x buf)
  = grid_map (fun v => if f v then x else v) W.
Proof.
  intros W. unfold put_where. unfold window at 1. rewrite take_drop_imap.
  rewrite fmap_imap. unfold grid_map at 2. subst W. unfold window at 2.
  rewrite <- list_fmap_compose, <- imap_const.
  apply imap_ext. intros i row Hrow. simpl.
  rewrite take_drop_imap. rewrite <- imap_const. apply imap_ext.
  intros j v Hv. simpl.
  assert (Hi : (i < nrows a)%nat).
  { apply lookup_take_Some in Hrow. lia. }
  assert (Hj : (j < ncols a)%nat).
  { apply lookup_take_Some in Hv. lia. }
  unfold in_window. rewrite !bool_decide_eq_true_2 by lia. simpl.
  replace (row0 a + i - row0 a)%nat with i by lia.
  replace (col0 a + j - col0 a)%nat with j by lia.
  unfold cond_at, grid_map, window. rewrite !list_lookup_fmap, Hrow. simpl.
  rewrite list_lookup_fmap, Hv. simpl. by rewrite truthy_of_bool.
Qed.

Lemma Scale_pixel_below (x : Qc) : x < Scale_threshold -> Scale_pixel x = 0.
Proof. intros Hx. unfold Scale_pixel. by rewrite (proj2 (Qc_ltb_true _ _) Hx). Qed.

Lemma Scale_pixel_above (x : Qc) : Scale_threshold ≤ x -> Scale_pixel x = x.
Proof. intros Hx. unfold Scale_pixel. by rewrite (proj2 (Qc_ltb_false _ _) Hx). Qed.

Lemma frame_refl locs (h : heap) : frame locs h h.
Proof. by split. Qed.

Lemma frame_trans locs1 locs2 locs (h1 h2 h3 : heap) :
  locs1 ⊆ locs -> locs2 ⊆ locs ->
  frame locs1 h1 h2 -> frame locs2 h2 h3 -> frame locs h1 h3.
Proof.
  intros Hs1 Hs2 [Hl1 Hf1] [Hl2 Hf2]. split; [lia |].
  intros i Hi Hni. rewrite Hf2, Hf1; [done | done | | lia |].
  - intros Hin. by apply Hni, Hs1.
  - intros Hin. by apply Hni, Hs2.
Qed.

Lemma frame_prefix (h h' : heap) : h `prefix_of` h' -> frame [] h h'.
Proof.
  intros Hp. split; [by apply prefix_length_le |].
  intros i Hi _. destruct Hp as [t ->]. by rewrite lookup_app_l.
Qed.

Lemma frame_read locs (h h' : heap) (a : ndarray) :
  frame locs h h' -> (base a < length h)%nat -> base a ∉ locs -> read h' a = read h a.
Proof. intros [_ Hf] Ha Hni. unfold read. by rewrite Hf. Qed.

Section ScaleBody.
Context `{Collaborators}.

(** One turn of the band loop of [Scale], on a band allocated in [h]. *)
Lemma Scale_loop_step (bs : list ndarray) (z : Qc) (n k : nat) (Out : list ndarray)
    (OD : SpaDatasetRaster) (h : heap) (r : list ndarray * SpaDatasetRaster)
    (h' : heap) (b : ndarray) :
  bs !! k = Some b -> (base b < length h)%nat ->
  Scale_loop (Some bs) z (S n) k Out OD h = Ok (r, h') ->
  exists g' h3 OD',
    ndimage_zoom (grid_map Scale_pixel (read h b)) z 3 "constant" = Ok g' /\
    let b' := mk_ndarray (S (length h)) 0 0 (grid_shape g').1 (grid_shape g').2 in
    frame [base b] h h3 /\ length h3 = S (S (length h)) /\
    read h3 b = grid_map Scale_pixel (read h b) /\
    read h3 b' = window 0 0 (grid_shape g').1 (grid_shape g').2 g' /\
    TheMask OD' = TheMask OD /\ PixelWidth OD' = PixelWidth OD /\
    Scale_loop (Some bs) z n (S k) (Out ++ [b']) OD' h3 = Ok (r, h').
Proof.
  intros Hb Hbase Hrun. simpl in Hrun. rewrite Hb in Hrun.
  apply bind_Ok in Hrun as (idx & h1 & Hless & Hrun).
  unfold np_less, np_binary, np_map, np_read, np_alloc, bind in Hless.
  inversion Hless; subst idx h1; clear Hless.
  apply bind_Ok in Hrun as ([] & h2 & Hset & Hrun).
  unfold np_setitem_bool in Hset. simpl in Hset.
  rewrite bool_decide_eq_true_2 in Hset by done.
  inversion Hset; subst h2; clear Hset.
  rewrite read_alloc, (window_id _ _ _ (grid_map_fits _ _ _ _ (read_fits _ _))) in Hrun.
  rewrite alter_app_l in Hrun by done.
  set (F := put_where b _ 0) in Hrun.
  assert (Hread : read (alter F (base b) h ++ [grid_map
                    (fun v => of_bool (Qc_ltb v Scale_threshold)) (read h b)]) b
                  = grid_map Scale_pixel (read h b)).
  { unfold read at 1. rewrite lookup_app_l by (rewrite length_alter; lia).
    rewrite list_lookup_alter_eq. unfold read.
    destruct (h !! base b) as [buf|] eqn:Hbuf.
    - simpl. unfold F, read. rewrite Hbuf. simpl.
      apply (window_put_where b 0 (fun v => Qc_ltb v Scale_threshold) buf).
    - apply lookup_ge_None in Hbuf. lia. }
  apply bind_Ok in Hrun as (g & h2 & Hg & Hrun).
  unfold np_read in Hg. inversion Hg; subst g h2; clear Hg.
  rewrite Hread in Hrun.
  apply bind_Ok in Hrun as (g' & h2 & Hzoom & Hrun).
  apply lift_Ok in Hzoom as [Hzoom ->].
  apply bind_Ok in Hrun as (b' & h3 & Hnew & Hrun).
  unfold np_of_grid, np_alloc in Hnew. inversion Hnew; subst b' h3; clear Hnew.
  rewrite length_app, length_alter in Hrun. simpl in Hrun.
  replace (length h + 1)%nat with (S (length h)) in Hrun by lia.
  eexists g', _, _. split; [exact Hzoom |]. simpl.
  split; [| split; [| split; [| split; [| split; [| split; [| exact Hrun]]]]]].
  - split.
    + rewrite !length_app, length_alter. simpl. lia.
    + intros i Hi Hni. rewrite <- (assoc_L (++)), lookup_app_l
        by (rewrite length_alter; lia).
      apply list_lookup_alter_ne. intros Heq. apply Hni. rewrite <- Heq.
      apply list_elem_of_here.
  - rewrite !length_app, length_alter. simpl. lia.
  - rewrite (read_prefix _ _ b (prefix_app_r _ _ [g'] (reflexivity _)))
      by (rewrite length_app, length_alter; simpl; lia).
    exact Hread.
  - replace (S (length h)) with
      (length (alter F (base b) h ++ [grid_map
         (fun v => of_bool (Qc_ltb v Scale_threshold)) (read h b)]))
      by (rewrite length_app, length_alter; simpl; lia).
    apply read_alloc.
  - reflexivity.
  - reflexivity.
Qed.

End ScaleBody.

(** ** What [GetBands], [Load] and [Crop] allocate *)

Lemma fresh_in_valid (h h' : heap) (l : list ndarray) :
  Forall (fresh_in h h') l -> Forall (fun a => (base a < length h')%nat) l.
Proof.
  intros Hl. eapply Forall_impl; [exact Hl |]. unfold fresh_in. intros a Ha. lia.
Qed.

Lemma valid_grows (h h' : heap) (d : SpaDatasetRaster) :
  (length h <= length h')%nat -> valid h d -> valid h' d.
Proof.
  intros Hl Hv. eapply Forall_impl; [exact Hv |]. intros a Ha. simpl in *. lia.
Qed.

Lemma Forall_fresh_in_mono (h0 h h' h1 : heap) (l : list ndarray) :
  (length h0 <= length h)%nat -> (length h' <= length h1)%nat ->
  Forall (fresh_in h h') l -> Forall (fresh_in h0 h1) l.
Proof.
  intros H0 H1 Hl. eapply Forall_impl; [exact Hl |]. intros a.
  by apply fresh_in_mono.
Qed.

Lemma GetBands_loop_fresh (ds : gdal_Dataset) (NoData : option Qc) (n : nat) :
  forall Count Bands Mask h r h',
  GetBands_loop ds NoData n Count Bands Mask h = Ok (r, h') ->
  h `prefix_of` h' /\
  (exists Bands', r.1 = Bands ++ Bands' /\ Forall (fresh_in h h') Bands') /\
  (r.2 = Mask \/ exists m, r.2 = Some m /\ fresh_in h h' m).
Proof.
  induction n as [|n IH]; intros Count Bands Mask h r h' Hrun; simpl in Hrun.
  - inv_M. split; [done |]. split; [| by left].
    exists []. by rewrite app_nil_r.
  - destruct (GetRasterBand ds (Count + 1)) as [band|]; [| inv_M].
    apply bind_Ok in Hrun as (TheBand & h1 & Hband & Hrun).
    destruct (np_alloc_produces any_pixel _ _ _ (grid_all_any _) _ _ _ Hband)
      as (Hp1 & Hb1 & _).
    apply bind_Ok in Hrun as (Mask1 & h2 & Hmask & Hrun).
    assert (Hm : h1 `prefix_of` h2 /\
                 (Mask1 = Mask \/ exists m, Mask1 = Some m /\ fresh_in h1 h2 m)).
    { destruct NoData as [v|]; [destruct Mask as [m0|] |]; inv_M; try by auto.
      match goal with
      | Hq : np_map _ _ _ = Ok _ |- _ =>
          destruct (np_map_produces any_pixel _ _ (fun _ => I) _ _ _ Hq)
            as (Hp & Hb & _)
      end.
      split; [done |]. right. by eexists. }
    destruct Hm as [Hp2 Hm].
    destruct (IH _ _ _ _ _ _ Hrun) as (Hp3 & (Bands' & Hr & Hfresh) & Hmask3).
    pose proof (prefix_length_le _ _ Hp1). pose proof (prefix_length_le _ _ Hp2).
    pose proof (prefix_length_le _ _ Hp3).
    split; [etrans; [exact Hp1 | etrans; [exact Hp2 | exact Hp3]] |]. split.
    + exists (TheBand :: Bands'). split; [by rewrite Hr, <- (assoc_L (++)) |].
      constructor; [unfold fresh_in; lia |].
      apply (Forall_fresh_in_mono h h2 h' h'); [lia | lia | done].
    + destruct Hmask3 as [-> | (m & -> & Hm3)].
      * destruct Hm as [-> | (m & -> & Hm1)]; [by left |].
        right. eexists. split; [done |]. unfold fresh_in in *. lia.
      * right. eexists. split; [done |]. unfold fresh_in in *. lia.
Qed.

(** [GetBands] either leaves the dataset and the store as they are, or
    loads every array from the GDAL dataset into new buffers. *)
Lemma GetBands_spec (self : SpaDatasetRaster) (h : heap)
    (r : SpaDatasetRaster * option (list ndarray)) (h' : heap) :
  GetBands self h = Ok (r, h') ->
  h `prefix_of` h' /\ r.2 = TheBands r.1 /\
  ((r.1 = self /\ h' = h) \/ Forall (fresh_in h h') (arrays r.1)).
Proof.
  unfold GetBands. intros Hrun.
  destruct (TheBands self) as [bs|] eqn:Hbs; [inv_M; by auto |].
  destruct (GDALDataset self) as [ds|]; [| inv_M; by auto].
  destruct (GetRasterBand ds 1) as [FirstBand|]; [| inv_M].
  apply bind_Ok in Hrun as (lr & h1 & Hloop & Hrun). inv_M.
  destruct (GetBands_loop_fresh _ _ _ _ _ _ _ _ _ Hloop)
    as (Hp & (Bands' & Hr & Hfresh) & Hmask).
  split; [done |]. split; [reflexivity |]. right.
  unfold arrays. simpl. rewrite Hr. simpl. apply Forall_app. split; [done |].
  destruct Hmask as [-> | (m & -> & Hm)]; simpl;
    [constructor | by apply Forall_singleton].
Qed.

Lemma GetBands_valid (self : SpaDatasetRaster) (h : heap)
    (r : SpaDatasetRaster * option (list ndarray)) (h' : heap) :
  valid h self -> GetBands self h = Ok (r, h') -> valid h' r.1.
Proof.
  intros Hvalid Hrun.
  destruct (GetBands_spec _ _ _ _ Hrun) as (Hp & _ & [[-> ->] | Hfresh]); [done |].
  by apply fresh_in_valid in Hfresh.
Qed.

Lemma Load_fresh (self : SpaDatasetRaster) (arg : option gdal_Dataset) (h : heap)
    (d : SpaDatasetRaster) (h' : heap) :
  TheBands self = None -> TheMask self = None ->
  Load self arg h = Ok (d, h') ->
  h `prefix_of` h' /\ Forall (fresh_in h h') (arrays d).
Proof.
  intros Hbs Hm Hrun. unfold Load in Hrun.
  destruct arg as [ds|]; [| inv_M].
  destruct (GetRasterBand ds 1) as [FirstBand|]; [| inv_M].
  apply bind_Ok in Hrun as (r & h1 & Hget & Hrun). inv_M.
  destruct (GetBands_spec _ _ _ _ Hget) as (Hp & _ & [[-> ->] | Hfresh]);
    [| by split].
  split; [done |]. unfold arrays. simpl. rewrite Hbs, Hm. constructor.
Qed.

Section CropStorage.
Context `{Collaborators}.

Lemma Crop_fresh (d : SpaDatasetRaster) (Bounds : bounds) (h : heap)
    (out : SpaDatasetRaster) (h' : heap) :
  Crop d Bounds h = Ok (out, h') ->
  h `prefix_of` h' /\ Forall (fresh_in h h') (arrays out).
Proof.
  unfold Crop, SpaResample_Crop. destruct Bounds as [[[b0 b1] b2] b3].
  intros Hrun. inv_M. eapply Load_fresh; [| | exact Hrun]; reflexivity.
Qed.

End CropStorage.

(** ** The band loop of [Scale] *)

Lemma elem_of_take_drop {A} (x : A) (n k : nat) (l : list A) :
  x ∈ take n (drop k l) -> x ∈ l.
Proof. intros Hx. by apply subseteq_drop with k, subseteq_take with n. Qed.

Lemma Forall2_impl_in {A B} (P Q : A -> B -> Prop) (l : list A) (k : list B) :
  Forall2 P l k -> (forall x y, x ∈ l -> P x y -> Q x y) -> Forall2 Q l k.
Proof.
  induction 1 as [|x y l k Hxy _ IH]; intros Himpl; constructor.
  - apply Himpl; [by left | done].
  - apply IH. intros a b Ha. apply Himpl. by right.
Qed.

Section ScaleLoop.
Context `{Collaborators}.

Lemma Scale_loop_spec (bs : list ndarray) (z : Qc) (n : nat) :
  forall k Out OD h r h',
  Forall (fun b => (base b < length h)%nat) bs ->
  Scale_loop (Some bs) z n k Out OD h = Ok (r, h') ->
  frame (base <$> take n (drop k bs)) h h' /\
  TheMask r.2 = TheMask OD /\
  exists Out', r.1 = Out ++ Out' /\ Forall (fresh_in h h') Out' /\
    length Out' = n /\
    (NoDup (base <$> drop k bs) ->
     Forall2 (scaled z h h') (take n (drop k bs)) Out').
Proof.
  induction n as [|n IH]; intros k Out OD h r h' Halloc Hrun.
  - simpl in Hrun. inv_M. split; [apply frame_refl |]. split; [done |].
    exists []. rewrite app_nil_r. split; [done |]. split; [constructor |].
    split; [done |]. intros _. rewrite take_0. constructor.
  - destruct (bs !! k) as [b|] eqn:Hb; [| simpl in Hrun; rewrite Hb in Hrun; inv_M].
    assert (Hbase : (base b < length h)%nat).
    { eapply Forall_lookup_1 in Halloc; [| exact Hb]. exact Halloc. }
    destruct (Scale_loop_step _ _ _ _ _ _ _ _ _ _ Hb Hbase Hrun)
      as (g' & h3 & OD' & Hzoom & Hf3 & Hlen3 & Hread3 & Hout3 & Hmask3 & _ & Hrest).
    set (b' := mk_ndarray (S (length h)) 0 0 (grid_shape g').1 (grid_shape g').2) in *.
    assert (Halloc3 : Forall (fun b0 => (base b0 < length h3)%nat) bs).
    { eapply Forall_impl; [exact Halloc |]. intros a Ha. simpl in *. lia. }
    destruct (IH _ _ _ _ _ _ Halloc3 Hrest)
      as (Hf & Hmask & Out' & Hr & Hfresh & Hlen & Hcontent).
    rewrite (drop_S _ _ _ Hb). rewrite firstn_cons, fmap_cons.
    assert (Hle : (length h3 <= length h')%nat) by apply Hf.
    split; [| split; [by rewrite Hmask |]].
    { eapply (frame_trans [base b] _ _ h h3 h'); [| | exact Hf3 | exact Hf].
      - intros i Hi. apply list_elem_of_singleton in Hi as ->. by left.
      - intros i Hi. by right. }
    exists (b' :: Out'). split; [by rewrite Hr, <- (assoc_L (++)) |].
    split; [| split; [simpl; lia |]].
    { constructor; [unfold fresh_in; simpl; lia |].
      apply (Forall_fresh_in_mono h h3 h' h'); [lia | lia | done]. }
    intros Hnd. rewrite fmap_cons in Hnd.
    apply NoDup_cons in Hnd as [Hnotin Hnd].
    assert (Hnotin' : base b ∉ base <$> take n (drop (S k) bs)).
    { intros Hin. apply Hnotin. apply list_elem_of_fmap in Hin as (a & -> & Ha).
      apply list_elem_of_fmap. exists a. split; [done |].
      by apply subseteq_take in Ha. }
    constructor.
    + split.
      * rewrite (frame_read _ h3 h' b Hf); [done | lia | done].
      * exists g'. split; [done |].
        rewrite (frame_read _ h3 h' b' Hf); [done | simpl; lia |].
        intros Hin. apply list_elem_of_fmap in Hin as (a & Ha & Hin).
        apply elem_of_take_drop in Hin.
        eapply Forall_forall in Halloc; [| exact Hin]. simpl in *. lia.
    + specialize (Hcontent Hnd).
      eapply Forall2_impl_in; [exact Hcontent |].
      intros a a' Ha (Hra & g2 & Hz2 & Hra').
      assert (Hsame : read h3 a = read h a).
      { apply (frame_read [base b]); [done | |].
        - apply elem_of_take_drop in Ha.
          eapply Forall_forall in Halloc; [| exact Ha]. exact Halloc.
        - intros Hin. apply list_elem_of_singleton in Hin. apply Hnotin.
          rewrite <- Hin. apply list_elem_of_fmap. exists a. split; [done |].
          by apply subseteq_take in Ha. }
      unfold scaled. rewrite <- Hsame. split; [done |]. by exists g2.
Qed.

End ScaleLoop.

Section ScaleSpec.
Context `{Collaborators}.

Lemma Scale_loop_no_bands (z : Qc) (n k : nat) (Out : list ndarray)
    (OD : SpaDatasetRaster) (h : heap) (r : list ndarray * SpaDatasetRaster) (h' : heap) :
  Scale_loop None z n k Out OD h = Ok (r, h') -> r.1 = Out /\ h' = h /\ TheMask r.2 = TheMask OD.
Proof. destruct n; simpl; intros Hrun; by inv_M. Qed.

Lemma scaled_prefix (z : Qc) (h h1 h2 : heap) (b b' : ndarray) :
  h1 `prefix_of` h2 -> (base b < length h1)%nat -> (base b' < length h1)%nat ->
  scaled z h h1 b b' -> scaled z h h2 b b'.
Proof.
  intros Hp Hb Hb' (Hr & g' & Hz & Hr'). split.
  - by rewrite (read_prefix h1 h2).
  - exists g'. split; [done |]. by rewrite (read_prefix h1 h2).
Qed.

(** [Scale]: every array of the output is in a buffer allocated by the
    call; only the buffers of the input bands are written; and each
    input band, thresholded in place, is what the filter was given. *)
Lemma Scale_spec (d : SpaDatasetRaster) (z : Qc) (h : heap)
    (out : SpaDatasetRaster) (h' : heap) :
  valid h d ->
  SpaResample_Scale d z h = Ok (out, h') ->
  (length h <= length h')%nat /\
  Forall (fresh_in h h') (arrays out) /\
  forall bs, TheBands d = Some bs ->
    let done_bands := take (Z.to_nat (NumBands d)) bs in
    frame (base <$> done_bands) h h' /\
    (NoDup (base <$> bs) ->
     exists bs', TheBands out = Some bs' /\ Forall2 (scaled z h h') done_bands bs').
Proof.
  intros Hvalid Hrun. unfold SpaResample_Scale in Hrun.
  apply bind_Ok in Hrun as (r & h1 & Hget & Hrun).
  destruct (GetBands_spec _ _ _ _ Hget) as (Hp1 & Hr2 & Hcase).
  pose proof (GetBands_valid _ _ _ _ Hvalid Hget) as Hvalid1.
  apply bind_Ok in Hrun as (ph & h0 & Hph & Hrun).
  apply lift_Ok in Hph as [_ ->].
  apply bind_Ok in Hrun as (pw & h0 & Hpw & Hrun).
  apply lift_Ok in Hpw as [_ ->].
  apply bind_Ok in Hrun as (lr & h2 & Hloop & Hrun).
  unfold GetNumBands in Hloop. simpl in Hloop.
  set (n := Z.to_nat (NumBands d)) in *.
  assert (Hloop_spec :
    frame (base <$> take n (default [] r.2)) h1 h2 /\
    Forall (fresh_in h1 h2) lr.1 /\ TheMask lr.2 = None /\
    (forall bs, r.2 = Some bs -> NoDup (base <$> bs) ->
       Forall2 (scaled z h1 h2) (take n bs) lr.1)).
  { destruct r.2 as [bs|] eqn:Hbs.
    - assert (Halloc : Forall (fun b => (base b < length h1)%nat) bs).
      { unfold valid, arrays in Hvalid1. rewrite <- Hr2 in Hvalid1.
        by apply Forall_app in Hvalid1 as [? _]. }
      destruct (Scale_loop_spec _ _ _ _ _ _ _ _ _ Halloc Hloop)
        as (Hf & Hmask & Out' & Hr & Hfresh & Hlen & Hcontent).
      rewrite drop_0 in Hf, Hcontent. simpl in Hr. subst Out'.
      split; [done |]. split; [done |]. split; [done |].
      intros bs0 Hbs0. inversion Hbs0; subst bs0. exact Hcontent.
    - destruct (Scale_loop_no_bands _ _ _ _ _ _ _ _ Hloop) as (Hr & -> & Hmask).
      rewrite Hr. simpl. rewrite take_nil. split; [apply frame_refl |].
      split; [constructor |]. split; [done |]. intros bs0 Hbs0. discriminate. }
  destruct Hloop_spec as (Hf & Hfresh & Hmask & Hcontent).
  pose proof (prefix_length_le _ _ Hp1) as Hl1.
  assert (Hl2 : (length h1 <= length h2)%nat) by apply Hf.
  assert (Hend : h2 `prefix_of` h' /\
    exists lm, arrays out = lr.1 ++ lm /\ Forall (fresh_in h2 h') lm /\
               TheBands out = Some lr.1).
  { destruct (TheMask r.1) as [m|].
    - apply bind_Ok in Hrun as (g & h0 & Hg & Hrun).
      unfold np_read in Hg. inversion Hg; subst g h0; clear Hg.
      apply bind_Ok in Hrun as (g' & h0 & Hz & Hrun).
      apply lift_Ok in Hz as [Hz ->].
      apply bind_Ok in Hrun as (OutputMask & h3 & Hnew & Hrun). inv_M.
      destruct (np_alloc_produces any_pixel _ _ _ (grid_all_any _) _ _ _ Hnew)
        as (Hp & Hb & _).
      split; [done |]. exists [OutputMask]. split; [reflexivity |].
      split; [by apply Forall_singleton | reflexivity].
    - inv_M. split; [done |]. exists []. unfold arrays. simpl.
      split; [reflexivity |]. split; [constructor | reflexivity]. }
  destruct Hend as (Hp3 & lm & Harrays & Hlm & Hout).
  pose proof (prefix_length_le _ _ Hp3) as Hl3.
  split; [lia |]. split.
  { rewrite Harrays. apply Forall_app. split.
    - apply (Forall_fresh_in_mono h h1 h2 h'); [lia | lia | done].
    - apply (Forall_fresh_in_mono h h2 h' h'); [lia | lia | done]. }
  intros bs Hbs done_bands.
  rewrite (GetBands_loaded d bs h Hbs) in Hget.
  inversion Hget; subst r h1; clear Hget. simpl in *.
  split.
  - eapply (frame_trans _ [] _ h h2 h'); [done | | exact Hf | by apply frame_prefix].
    intros i Hi. by apply not_elem_of_nil in Hi.
  - intros Hnd. exists lr.1. split; [done |].
    specialize (Hcontent bs eq_refl Hnd).
    assert (Halloc : Forall (fun b => (base b < length h)%nat) bs).
    { unfold valid, arrays in Hvalid. rewrite Hbs in Hvalid.
      by apply Forall_app in Hvalid as [? _]. }
    clear -Hcontent Hfresh Hp3 Halloc Hl2.
    assert (Hin : Forall (fun b => (base b < length h2)%nat) (take n bs)).
    { apply Forall_take. eapply Forall_impl; [exact Halloc |].
      intros a Ha. simpl in *. lia. }
    induction Hcontent as [|b b' l l' Hs _ IH]; [constructor |].
    apply Forall_cons in Hfresh as [[_ Hb'] Hfresh].
    apply Forall_cons in Hin as [Hb Hin].
    constructor; [| by apply IH].
    by apply (scaled_prefix z h h2 h').
Qed.

End ScaleSpec.

(** ** What [ResampleToMatch] and [Math] allocate *)

Section MathStorage.
Context `{Collaborators}.

(** Rasters with the same bounds and horizontal pixel size come back as
    they are. *)
Lemma ResampleToMatch_aligned (d1 d2 : SpaDatasetRaster) (h : heap) :
  GetBounds d1 = GetBounds d2 -> PixelWidth d1 = PixelWidth d2 ->
  ResampleToMatch d1 d2 h = Ok ((d1, d2), h).
Proof.
  intros Hb Hw. unfold ResampleToMatch.
  rewrite bool_decide_eq_false_2 by (intros Hne; by apply Hne).
  unfold GetResolution. cbn [fst snd]. unfold bind, ret. cbn [fst snd].
  rewrite Hw.
  assert (Hirr : Qc_ltb (PixelWidth d2) (PixelWidth d2) = false).
  { apply Qc_ltb_false. apply Qcle_refl. }
  by rewrite Hirr.
Qed.

Lemma ResampleToMatch_valid (d1 d2 : SpaDatasetRaster) (h : heap)
    (r : SpaDatasetRaster * SpaDatasetRaster) (h' : heap) :
  valid h d1 -> valid h d2 ->
  ResampleToMatch d1 d2 h = Ok (r, h') ->
  (length h <= length h')%nat /\ valid h' r.1 /\ valid h' r.2.
Proof.
  intros Hv1 Hv2 Hrun. unfold ResampleToMatch in Hrun.
  apply bind_Ok in Hrun as (p & h1 & Hcrop & Hrun).
  assert (Hp : (length h <= length h1)%nat /\ valid h1 p.1 /\ valid h1 p.2).
  { destruct (bool_decide _).
    - apply bind_Ok in Hcrop as (c1 & h2 & Hc1 & Hcrop).
      apply bind_Ok in Hcrop as (c2 & h3 & Hc2 & Hcrop). inv_M.
      destruct (Crop_fresh _ _ _ _ _ Hc1) as [Hp1 Hf1].
      destruct (Crop_fresh _ _ _ _ _ Hc2) as [Hp2 Hf2].
      pose proof (prefix_length_le _ _ Hp1). pose proof (prefix_length_le _ _ Hp2).
      simpl. split; [lia |]. split.
      + apply (valid_grows h2); [lia |]. by apply fresh_in_valid in Hf1.
      + by apply fresh_in_valid in Hf2.
    - inv_M. by split. }
  destruct Hp as (Hl1 & Hp1 & Hp2). unfold GetResolution in Hrun. cbn [fst snd] in Hrun.
  destruct (Qc_ltb (PixelWidth d1) (PixelWidth d2));
    [| destruct (Qc_ltb (PixelWidth d2) (PixelWidth d1))].
  - apply bind_Ok in Hrun as (z & h2 & Hz & Hrun). apply lift_Ok in Hz as [_ ->].
    apply bind_Ok in Hrun as (c & h2 & Hs & Hrun). inv_M.
    destruct (Scale_spec _ _ _ _ _ Hp2 Hs) as (Hl2 & Hf & _).
    simpl. split; [lia |]. split.
    + by apply (valid_grows h1).
    + by apply fresh_in_valid in Hf.
  - apply bind_Ok in Hrun as (z & h2 & Hz & Hrun). apply lift_Ok in Hz as [_ ->].
    apply bind_Ok in Hrun as (c & h2 & Hs & Hrun). inv_M.
    destruct (Scale_spec _ _ _ _ _ Hp1 Hs) as (Hl2 & Hf & _).
    simpl. split; [lia |]. split.
    + by apply fresh_in_valid in Hf.
    + by apply (valid_grows h1).
  - inv_M. by split.
Qed.

Lemma Math_raster_op_produces (Operation : Z) (TheBand Band2 : ndarray) (m : M ndarray) :
  Math_raster_op Operation TheBand Band2 = Some m -> produces any_pixel m.
Proof.
  assert (Hall : match Math_raster_op Operation TheBand Band2 with
                 | Some m0 => produces any_pixel m0
                 | None => True
                 end).
  { unfold Math_raster_op.
    repeat match goal with
    | |- context [if ?c then _ else _] => destruct c
    end; try exact I; by apply np_binary_produces. }
  intros Hm. by rewrite Hm in Hall.
Qed.

Lemma Math_scalar_op_produces (Operation : Z) (TheBand : ndarray) (Input2 : Qc)
    (m : M ndarray) :
  Math_scalar_op Operation TheBand Input2 = Some m -> produces any_pixel m.
Proof.
  assert (Hall : match Math_scalar_op Operation TheBand Input2 with
                 | Some m0 => produces any_pixel m0
                 | None => True
                 end).
  { unfold Math_scalar_op.
    repeat match goal with
    | |- context [if ?c then _ else _] => destruct c
    end; try exact I;
      first [by apply np_binary_produces | by apply np_map_produces]. }
  intros Hm. by rewrite Hm in Hall.
Qed.

(** One turn of either band loop only allocates; the bands it collects
    are in buffers allocated since [h0], and the mask is not touched. *)
Lemma Math_step_fresh (Operation : Z) (op : option (M ndarray)) (BandIndex : nat)
    (NewBands : list ndarray) (NewDataset : SpaDatasetRaster) (h0 h : heap)
    (r : list ndarray * SpaDatasetRaster) (h' : heap) :
  (forall m, op = Some m -> produces any_pixel m) ->
  (length h0 <= length h)%nat ->
  Forall (fresh_in h0 h) NewBands ->
  Math_step Operation op BandIndex NewBands NewDataset h = Ok (r, h') ->
  h `prefix_of` h' /\ Forall (fresh_in h0 h') r.1 /\ TheMask r.2 = TheMask NewDataset.
Proof.
  intros Hop Hl Hfresh Hrun. unfold Math_step in Hrun.
  apply bind_Ok in Hrun as (NewBands1 & h1 & Happend & Hrun).
  assert (H1 : h `prefix_of` h1 /\ Forall (fresh_in h0 h1) NewBands1).
  { destruct op as [m|].
    - apply bind_Ok in Happend as (b & h2 & Hm & Happend).
      apply ret_Ok in Happend as [Hnb Hh]. subst NewBands1 h1.
      destruct (Hop m eq_refl _ _ _ Hm) as (Hp & Hb & _).
      pose proof (prefix_length_le _ _ Hp).
      split; [done |]. apply Forall_app. split.
      + apply (Forall_fresh_in_mono h0 h0 h h2); [lia | lia | done].
      + apply Forall_singleton. unfold fresh_in. lia.
    - apply ret_Ok in Happend as [Hnb Hh]. subst NewBands1 h1. by split. }
  destruct H1 as [Hp1 Hfresh1]. pose proof (prefix_length_le _ _ Hp1).
  destruct (Math_boolean_result Operation).
  - destruct (NewBands1 !! BandIndex) as [b|]; [| inv_M].
    apply bind_Ok in Hrun as (b' & h2 & Hint & Hrun).
    apply ret_Ok in Hrun as [Hr Hh]. subst r h'.
    destruct (np_map_produces any_pixel _ _ (fun _ => I) _ _ _ Hint) as (Hp2 & Hb & _).
    pose proof (prefix_length_le _ _ Hp2).
    simpl. split; [by etrans |]. split; [| done].
    apply Forall_insert.
    + apply (Forall_fresh_in_mono h0 h0 h1 h2); [lia | lia | done].
    + unfold fresh_in. lia.
  - apply ret_Ok in Hrun as [Hr Hh]. subst r h'. by split.
Qed.

Lemma Math_raster_loop_fresh (Operation : Z) (Input2 : SpaDatasetRaster)
    (bands : list ndarray) (h0 : heap) :
  forall BandIndex NewBands NewDataset h r h',
  (length h0 <= length h)%nat ->
  Forall (fresh_in h0 h) NewBands ->
  Math_raster_loop Operation Input2 bands BandIndex NewBands NewDataset h = Ok (r, h') ->
  h `prefix_of` h' /\ Forall (fresh_in h0 h') r.1 /\ TheMask r.2 = TheMask NewDataset.
Proof.
  induction bands as [|TheBand rest IH];
    intros BandIndex NewBands NewDataset h r h' Hl Hfresh Hrun; simpl in Hrun.
  - inv_M. by split.
  - apply bind_Ok in Hrun as (Band2 & h1 & Hget & Hrun).
    unfold GetBand in Hget. destruct (TheBands Input2) as [bs2|]; [| inv_M].
    destruct (bs2 !! BandIndex); inv_M.
    match goal with
    | Hs : Math_step _ _ _ _ _ _ = Ok _ |- _ =>
        destruct (Math_step_fresh _ _ _ _ _ h0 _ _ _
                    (fun m => Math_raster_op_produces _ _ _ m) Hl Hfresh Hs)
          as (Hp1 & Hf1 & Hm1)
    end.
    pose proof (prefix_length_le _ _ Hp1).
    eapply IH in Hrun as (Hp2 & Hf2 & Hm2); [| lia | exact Hf1].
    split; [by etrans |]. split; [done |]. by rewrite Hm2.
Qed.

Lemma Math_scalar_loop_fresh (Operation : Z) (Input2 : Qc)
    (bands : list ndarray) (h0 : heap) :
  forall BandIndex NewBands NewDataset h r h',
  (length h0 <= length h)%nat ->
  Forall (fresh_in h0 h) NewBands ->
  Math_scalar_loop Operation Input2 bands BandIndex NewBands NewDataset h = Ok (r, h') ->
  h `prefix_of` h' /\ Forall (fresh_in h0 h') r.1 /\ TheMask r.2 = TheMask NewDataset.
Proof.
  induction bands as [|TheBand rest IH];
    intros BandIndex NewBands NewDataset h r h' Hl Hfresh Hrun; simpl in Hrun.
  - inv_M. by split.
  - inv_M.
    match goal with
    | Hs : Math_step _ _ _ _ _ _ = Ok _ |- _ =>
        destruct (Math_step_fresh _ _ _ _ _ h0 _ _ _
                    (fun m => Math_scalar_op_produces _ _ _ m) Hl Hfresh Hs)
          as (Hp1 & Hf1 & Hm1)
    end.
    pose proof (prefix_length_le _ _ Hp1).
    eapply IH in Hrun as (Hp2 & Hf2 & Hm2); [| lia | exact Hf1].
    split; [by etrans |]. split; [done |]. by rewrite Hm2.
Qed.

Lemma mask_cloned_prefix (d : SpaDatasetRaster) (h : heap) (d1 d2 : SpaDatasetRaster)
    (h1 h2 : heap) :
  h1 `prefix_of` h2 -> TheMask d2 = TheMask d1 ->
  mask_cloned d h d1 h1 -> mask_cloned d h d2 h2.
Proof.
  intros Hp Hm. unfold mask_cloned. rewrite Hm.
  destruct (TheMask d); [destruct (NoDataValue d) |]; try done.
  intros (m' & Hm' & Hc). exists m'. split; [done |]. by apply (copy_of_prefix _ h1).
Qed.

(** The scalar branch of [Math]. *)
Lemma Math_scalar_spec (self : SpaDatasetRaster) (Operation : Z) (x : Qc) (h : heap)
    (out : SpaDatasetRaster) (h' : heap) :
  valid h self ->
  Math self Operation (InputNumber x) h = Ok (out, h') ->
  h `prefix_of` h' /\ Forall (fresh_in h h') (arrays out) /\ mask_cloned self h out h'.
Proof.
  intros Hvalid Hrun. unfold Math in Hrun.
  apply bind_Ok in Hrun as (NewDataset & h1 & Hclone & Hrun).
  destruct (Clone_Ok _ _ _ _ Hvalid Hclone) as (Hp1 & Hf1 & Hm1).
  destruct (TheBands self) as [bs|]; [| inv_M].
  apply bind_Ok in Hrun as (r & h2 & Hloop & Hrun).
  apply ret_Ok in Hrun as [Hout Hh]. subst out h'.
  pose proof (prefix_length_le _ _ Hp1).
  eapply (Math_scalar_loop_fresh _ _ _ h) in Hloop as (Hp2 & Hf2 & Hm2);
    [| lia | constructor].
  pose proof (prefix_length_le _ _ Hp2).
  split; [by etrans |]. split.
  - unfold arrays, SetBands. simpl. apply Forall_app. split; [done |].
    rewrite Hm2. unfold arrays in Hf1. apply Forall_app in Hf1 as [_ Hf1].
    apply (Forall_fresh_in_mono h h h1 h2); [lia | lia | done].
  - apply (mask_cloned_prefix _ _ NewDataset _ h1); [done | | done].
    unfold SetBands. simpl. exact Hm2.
Qed.

(** The raster branch of [Math]: the two operands are aligned, the first
    aligned raster is cloned, and the bands are computed into new
    buffers. *)
Lemma Math_raster_spec (self d2 : SpaDatasetRaster) (Operation : Z) (h : heap)
    (out : SpaDatasetRaster) (h' : heap) :
  valid h self -> valid h d2 ->
  Math self Operation (InputDataset d2) h = Ok (out, h') ->
  exists Input1 Input2 h1,
    ResampleToMatch self d2 h = Ok ((Input1, Input2), h1) /\
    valid h1 Input1 /\ h1 `prefix_of` h' /\
    Forall (fresh_in h1 h') (arrays out) /\ mask_cloned Input1 h1 out h'.
Proof.
  intros Hv1 Hv2 Hrun. unfold Math in Hrun.
  destruct (bool_decide _); [inv_M |].
  apply bind_Ok in Hrun as ([Input1 Input2] & h1 & Halign & Hrun).
  destruct (ResampleToMatch_valid _ _ _ _ _ Hv1 Hv2 Halign) as (Hl & Hva & Hvb).
  simpl in *.
  apply bind_Ok in Hrun as (NewDataset & h2 & Hclone & Hrun).
  destruct (Clone_Ok _ _ _ _ Hva Hclone) as (Hp1 & Hf1 & Hm1).
  destruct (TheBands Input1) as [bs|]; [| inv_M].
  apply bind_Ok in Hrun as (r & h3 & Hloop & Hrun).
  apply ret_Ok in Hrun as [Hout Hh]. subst out h'.
  pose proof (prefix_length_le _ _ Hp1).
  eapply (Math_raster_loop_fresh _ _ _ h1) in Hloop as (Hp2 & Hf2 & Hm2);
    [| lia | constructor].
  pose proof (prefix_length_le _ _ Hp2).
  exists Input1, Input2, h1. split; [done |]. split; [done |].
  split; [by etrans |]. split.
  - unfold arrays, SetBands. simpl. apply Forall_app. split; [done |].
    rewrite Hm2. unfold arrays in Hf1. apply Forall_app in Hf1 as [_ Hf1].
    apply (Forall_fresh_in_mono h1 h1 h2 h3); [lia | lia | done].
  - apply (mask_cloned_prefix _ _ NewDataset _ h2); [done | | done].
    unfold SetBands. simpl. exact Hm2.
Qed.

End MathStorage.

(** ** Scale, the transforms and the masks *)

Lemma fresh_not_shared (h h' : heap) (d out : SpaDatasetRaster) :
  valid h d -> Forall (fresh_in h h') (arrays out) -> ~ shares_storage out d.
Proof.
  intros Hv Hf (a1 & a2 & H1 & H2 & Heq).
  eapply Forall_forall in Hv; [| exact H2].
  eapply Forall_forall in Hf; [| exact H1].
  unfold fresh_in in Hf. simpl in Hv. lia.
Qed.

Lemma prefix_unchanged (h h' : heap) (d : SpaDatasetRaster) :
  valid h d -> h `prefix_of` h' -> forall a, a ∈ arrays d -> read h' a = read h a.
Proof.
  intros Hv Hp a Ha. apply read_prefix; [done |].
  eapply Forall_forall in Hv; [| exact Ha]. exact Hv.
Qed.

Lemma frame_weaken (locs locs' : list nat) (h h' : heap) :
  locs ⊆ locs' -> frame locs h h' -> frame locs' h h'.
Proof.
  intros Hsub [Hl Hf]. split; [done |]. intros i Hi Hni. apply Hf; [done |].
  intros Hin. by apply Hni, Hsub.
Qed.

Section Transforms.
Context `{Collaborators}.

(** C7, as the code has it. In [Scale], before the filter is applied to
    a band, exactly the pixels whose value (not magnitude) is below
    [0.00000001], every negative pixel among them, are replaced by zero,
    in the input band itself; the pixels at or above it are passed on as
    they are. *)
Theorem Scale_zeroes_values_below_threshold (d : SpaDatasetRaster) (z : Qc)
    (bs : list ndarray) (h : heap) (out : SpaDatasetRaster) (h' : heap) :
  TheBands d = Some bs ->
  NumBands d = Z.of_nat (length bs) ->
  NoDup (base <$> bs) ->
  valid h d ->
  SpaResample_Scale d z h = Ok (out, h') ->
  (exists bs', TheBands out = Some bs' /\
     Forall2 (fun b b' =>
       read h' b = grid_map Scale_pixel (read h b) /\
       exists g',
         ndimage_zoom (grid_map Scale_pixel (read h b)) z 3 "constant" = Ok g' /\
         read h' b' = window 0 0 (grid_shape g').1 (grid_shape g').2 g') bs bs') /\
  (forall x, x < Scale_threshold -> Scale_pixel x = 0) /\
  (forall x, Scale_threshold ≤ x -> Scale_pixel x = x).
Proof.
  intros Hbs Hnum Hnd Hvalid Hrun.
  destruct (Scale_spec _ _ _ _ _ Hvalid Hrun) as (_ & _ & Hbands).
  destruct (Hbands bs Hbs) as [_ Hcontent].
  rewrite Hnum, Nat2Z.id, firstn_all in Hcontent.
  split; [exact (Hcontent Hnd) |].
  split; [apply Scale_pixel_below | apply Scale_pixel_above].
Qed.

Lemma ExtractByPixels_loop_Ok (bs : list ndarray) (c0 r0 c1 r1 : Z) (n : nat) :
  forall BandIndex OutputBands r,
  ExtractByPixels_loop (Some bs) c0 r0 c1 r1 n BandIndex OutputBands = Ok r ->
  r = OutputBands ++
      ((fun b => np_slice b r0 (r1 + 1) c0 (c1 + 1)) <$> take n (drop BandIndex bs)).
Proof.
  induction n as [|n IH]; intros BandIndex OutputBands r Hrun; simpl in Hrun.
  - inversion Hrun. by rewrite app_nil_r.
  - destruct (bs !! BandIndex) as [b|] eqn:Hb; [| discriminate].
    apply IH in Hrun. rewrite Hrun, <- (assoc_L (++)). simpl.
    by rewrite (drop_S _ _ _ Hb).
Qed.

(** C8, as the code has it. [Math] with a scalar operand, and [Math]
    with a raster operand of the same bounds and horizontal pixel size,
    return a raster all of whose band and mask arrays are in buffers
    allocated by the call, shared with no input, and leave the arrays of
    the inputs as they were.  [Scale] returns arrays in buffers of its
    own too, and writes to no buffer but those of the input's bands.
    [ExtractByPixels] allocates nothing: its bands are slices of the
    input's bands, looking at the same buffers.  [ResampleToMatch]
    returns the two input rasters themselves when their bounds and
    horizontal pixel sizes agree. *)
Theorem transforms_storage (d d2 : SpaDatasetRaster) (h : heap) :
  valid h d -> valid h d2 ->
  (forall Operation x out h',
     Math d Operation (InputNumber x) h = Ok (out, h') ->
     ~ shares_storage out d /\ forall a, a ∈ arrays d -> read h' a = read h a) /\
  (forall Operation out h',
     GetBounds d = GetBounds d2 -> PixelWidth d = PixelWidth d2 ->
     Math d Operation (InputDataset d2) h = Ok (out, h') ->
     ~ shares_storage out d /\ ~ shares_storage out d2 /\
     forall a, a ∈ arrays d ++ arrays d2 -> read h' a = read h a) /\
  (forall z out h',
     SpaResample_Scale d z h = Ok (out, h') ->
     ~ shares_storage out d /\
     forall bs, TheBands d = Some bs -> frame (base <$> bs) h h') /\
  (forall c0 r0 c1 r1 bs out h',
     TheBands d = Some bs ->
     SpaResample_ExtractByPixels d c0 r0 c1 r1 h = Ok (out, h') ->
     h' = h /\ TheMask out = None /\
     TheBands out = Some ((fun b => np_slice b r0 (r1 + 1) c0 (c1 + 1)) <$>
                            take (Z.to_nat (NumBands d)) bs) /\
     forall b, base (np_slice b r0 (r1 + 1) c0 (c1 + 1)) = base b) /\
  (GetBounds d = GetBounds d2 -> PixelWidth d = PixelWidth d2 ->
   ResampleToMatch d d2 h = Ok ((d, d2), h)).
Proof.
  intros Hv Hv2. split; [| split; [| split; [| split]]].
  - intros Operation x out h' Hrun.
    destruct (Math_scalar_spec _ _ _ _ _ _ Hv Hrun) as (Hp & Hf & _).
    split; [by apply (fresh_not_shared h h') | by apply prefix_unchanged].
  - intros Operation out h' Hb Hw Hrun.
    destruct (Math_raster_spec _ _ _ _ _ _ Hv Hv2 Hrun)
      as (Input1 & Input2 & h1 & Halign & _ & Hp & Hf & _).
    rewrite (ResampleToMatch_aligned _ _ _ Hb Hw) in Halign.
    inversion Halign; subst Input1 Input2 h1; clear Halign.
    split; [by apply (fresh_not_shared h h') |].
    split; [by apply (fresh_not_shared h h') |].
    intros a Ha. apply elem_of_app in Ha as [Ha | Ha].
    + by apply (prefix_unchanged h h' d).
    + by apply (prefix_unchanged h h' d2).
  - intros z out h' Hrun.
    destruct (Scale_spec _ _ _ _ _ Hv Hrun) as (_ & Hf & Hbands).
    split; [by apply (fresh_not_shared h h') |].
    intros bs Hbs. destruct (Hbands bs Hbs) as [Hframe _].
    eapply frame_weaken; [| exact Hframe].
    intros i Hi. apply list_elem_of_fmap in Hi as (b & -> & Hb).
    apply list_elem_of_fmap. exists b. split; [done |].
    by apply subseteq_take in Hb.
  - intros c0 r0 c1 r1 bs out h' Hbs Hrun.
    unfold SpaResample_ExtractByPixels, bind in Hrun.
    rewrite (GetBands_loaded _ _ _ Hbs) in Hrun. simpl in Hrun.
    unfold GetNumBands in Hrun. simpl in Hrun.
    destruct (ExtractByPixels_loop _ _ _ _ _ _ _ _) as [bs'|e] eqn:Hloop;
      [| discriminate].
    apply ExtractByPixels_loop_Ok in Hloop. rewrite drop_0 in Hloop. simpl in Hloop.
    simpl in Hrun. inversion Hrun; subst out h'; clear Hrun. simpl.
    split; [reflexivity |]. split; [reflexivity |]. split; [by rewrite Hloop |].
    intros b. unfold np_slice.
    destruct (slice_indices r0 (r1 + 1) (Z.of_nat (nrows b))).
    by destruct (slice_indices c0 (c1 + 1) (Z.of_nat (ncols b))).
  - apply ResampleToMatch_aligned.
Qed.

(** C10, as the code has it. The mask of the result of a raster-raster
    [Math] is the mask of the clone of the first operand as aligned by
    [ResampleToMatch]: a copy of that raster's mask when it has a mask
    and a [NoDataValue], and no mask otherwise.  The mask of the second
    operand takes no part in it. *)
Theorem Math_mask_is_first_operand_clone (self d2 : SpaDatasetRaster) (Operation : Z)
    (h : heap) (out : SpaDatasetRaster) (h' : heap) :
  valid h self -> valid h d2 ->
  Math self Operation (InputDataset d2) h = Ok (out, h') ->
  exists Input1 Input2 h1,
    ResampleToMatch self d2 h = Ok ((Input1, Input2), h1) /\
    match TheMask Input1 with
    | Some m =>
        match NoDataValue Input1 with
        | Some _ =>
            exists m', TheMask out = Some m' /\ read h' m' = read h1 m /\
                       nrows m' = nrows m /\ ncols m' = ncols m
        | None => TheMask out = None
        end
    | None => TheMask out = None
    end.
Proof.
  intros Hv Hv2 Hrun.
  destruct (Math_raster_spec _ _ _ _ _ _ Hv Hv2 Hrun)
    as (Input1 & Input2 & h1 & Halign & _ & _ & _ & Hmask).
  exists Input1, Input2, h1. split; [done |]. unfold mask_cloned in Hmask.
  destruct (TheMask Input1) as [m|]; [| done].
  destruct (NoDataValue Input1); [| done].
  destruct Hmask as (m' & Hm' & _ & _ & Hread & Hshape). by exists m'.
Qed.

End Transforms.

(** ** Reclassify *)

Lemma wf_prefix (h h' : heap) (a : ndarray) : h `prefix_of` h' -> wf h a -> wf h' a.
Proof.
  intros Hp [Hb He]. pose proof (prefix_length_le _ _ Hp).
  split; [lia |]. by rewrite (read_prefix h h').
Qed.

Lemma grid_map_id (g : grid) : grid_map (fun v => v) g = g.
Proof.
  unfold grid_map. rewrite <- (list_fmap_id g) at 2.
  apply list_fmap_ext. intros i row _. apply list_fmap_id.
Qed.

Lemma grid_map_compose (f g : Qc -> Qc) (G : grid) :
  grid_map g (grid_map f G) = grid_map (fun v => g (f v)) G.
Proof.
  unfold grid_map. rewrite <- list_fmap_compose.
  apply list_fmap_ext. intros i row _. simpl. by rewrite <- list_fmap_compose.
Qed.

Lemma grid_map_ext (f g : Qc -> Qc) (G : grid) :
  (forall v, f v = g v) -> grid_map f G = grid_map g G.
Proof.
  intros Hfg. unfold grid_map. apply list_fmap_ext. intros i row _.
  apply list_fmap_ext. intros j v _. apply Hfg.
Qed.

Lemma zip_grid_map (f : Qc -> Qc -> Qc) (p q : Qc -> Qc) (G : grid) :
  zip_with (zip_with f) (grid_map p G) (grid_map q G)
  = grid_map (fun v => f (p v) (q v)) G.
Proof.
  unfold grid_map. rewrite zip_with_fmap_l, zip_with_fmap_r, zip_with_diag.
  apply list_fmap_ext. intros i row _. simpl.
  by rewrite zip_with_fmap_l, zip_with_fmap_r, zip_with_diag.
Qed.

Lemma stretch_id {A} (n : nat) (l : list A) : length l = n -> stretch n l = l.
Proof.
  intros Hl. unfold stretch. destruct l as [|x [|y l]]; try done.
  simpl in Hl. by subst n.
Qed.

Lemma broadcast_to_exact (n m : nat) (g : grid) : exact n m g -> broadcast_to n m g = g.
Proof.
  intros [Hn Hm]. unfold broadcast_to.
  assert (Hrows : stretch m <$> g = g).
  { rewrite <- (list_fmap_id g) at 2. apply Forall_fmap_ext_1.
    eapply Forall_impl; [exact Hm |]. intros row Hrow. by apply stretch_id. }
  rewrite Hrows. by apply stretch_id.
Qed.

Lemma broadcast_dim_same (n : nat) : broadcast_dim n n = Some n.
Proof. unfold broadcast_dim. by rewrite decide_True. Qed.

Lemma read_alloc_exact (h : heap) (g : grid) (n m : nat) :
  exact n m g ->
  let a := mk_ndarray (length h) 0 0 n m in
  read (h ++ [g]) a = g /\ wf (h ++ [g]) a.
Proof.
  intros He a. assert (Hr : read (h ++ [g]) a = g).
  { unfold a. rewrite read_alloc. by apply window_id, exact_fits. }
  split; [done |]. split.
  - simpl. rewrite length_app. simpl. lia.
  - by rewrite Hr.
Qed.

(** A unary function, and a binary function on two arrays of one shape,
    applied to full rectangles. *)
Lemma np_map_wf (f : Qc -> Qc) (a : ndarray) (h : heap) (a' : ndarray) (h' : heap) :
  wf h a -> np_map f a h = Ok (a', h') ->
  h `prefix_of` h' /\ wf h' a' /\ nrows a' = nrows a /\ ncols a' = ncols a /\
  read h' a' = grid_map f (read h a).
Proof.
  intros [Hb He] Hrun. unfold np_map, np_read, np_alloc, bind in Hrun.
  inversion Hrun; subst a' h'; clear Hrun.
  destruct (read_alloc_exact h _ _ _ (grid_map_exact f _ _ _ He)) as [Hr Hwf].
  split; [by apply prefix_app_r |]. split; [exact Hwf |].
  split; [reflexivity |]. split; [reflexivity |]. exact Hr.
Qed.

Lemma exact_zip (f : Qc -> Qc -> Qc) (n m : nat) (g1 g2 : grid) :
  exact n m g1 -> exact n m g2 -> exact n m (zip_with (zip_with f) g1 g2).
Proof.
  intros [Hn1 Hm1] [Hn2 Hm2]. split.
  - rewrite length_zip_with. lia.
  - clear Hn1 Hn2. revert g2 Hm2.
    induction Hm1 as [|r1 g1 Hr1 _ IH]; intros [|r2 g2] Hm2; simpl; try constructor.
    + apply Forall_cons in Hm2 as [Hr2 _]. rewrite length_zip_with. lia.
    + apply Forall_cons in Hm2 as [_ Hm2]. by apply IH.
Qed.

Lemma np_binary_wf (f : Qc -> Qc -> Qc) (a b : ndarray) (h : heap)
    (c : ndarray) (h' : heap) :
  wf h a -> wf h b -> nrows b = nrows a -> ncols b = ncols a ->
  np_binary f a (Arr b) h = Ok (c, h') ->
  h `prefix_of` h' /\ wf h' c /\ nrows c = nrows a /\ ncols c = ncols a /\
  read h' c = zip_with (zip_with f) (read h a) (read h b).
Proof.
  intros [Hba Hea] [Hbb Heb] Hn Hm Hrun. unfold np_binary in Hrun.
  rewrite Hn, Hm, !broadcast_dim_same in Hrun. rewrite Hn, Hm in Heb.
  unfold np_read, np_alloc, bind in Hrun.
  rewrite !broadcast_to_exact in Hrun by done.
  inversion Hrun; subst c h'; clear Hrun.
  destruct (read_alloc_exact h _ _ _ (exact_zip f _ _ _ _ Hea Heb)) as [Hr Hwf].
  split; [by apply prefix_app_r |]. split; [exact Hwf |].
  split; [reflexivity |]. split; [reflexivity |]. exact Hr.
Qed.

Lemma np_where_wf (cond : ndarray) (x : Qc) (a : ndarray) (h : heap)
    (c : ndarray) (h' : heap) :
  wf h cond -> wf h a -> nrows cond = nrows a -> ncols cond = ncols a ->
  np_where cond x a h = Ok (c, h') ->
  h `prefix_of` h' /\ wf h' c /\ nrows c = nrows a /\ ncols c = ncols a /\
  read h' c = zip_with (zip_with (fun c v => if truthy c then x else v))
                (read h cond) (read h a).
Proof.
  intros [Hbc Hec] [Hba Hea] Hn Hm Hrun. unfold np_where in Hrun.
  rewrite Hn, Hm, !broadcast_dim_same in Hrun. rewrite Hn, Hm in Hec.
  unfold np_read, np_alloc, bind in Hrun.
  rewrite !broadcast_to_exact in Hrun by done.
  inversion Hrun; subst c h'; clear Hrun.
  destruct (read_alloc_exact h _ _ _
              (exact_zip (fun c v => if truthy c then x else v) _ _ _ _ Hec Hea))
    as [Hr Hwf].
  split; [by apply prefix_app_r |]. split; [exact Hwf |].
  split; [reflexivity |]. split; [reflexivity |]. exact Hr.
Qed.

Lemma class_BooleanArray_wf (mode : string) (c : input_class) (b : ndarray) (h : heap)
    (B : ndarray) (h' : heap) :
  wf h b -> class_BooleanArray mode c b h = Ok (B, h') ->
  h `prefix_of` h' /\ wf h' B /\ nrows B = nrows b /\ ncols B = ncols b /\
  read h' B = grid_map (fun v => of_bool (class_matches mode c v)) (read h b).
Proof.
  intros Hwf Hrun. unfold class_BooleanArray, class_matches in *.
  destruct (bool_decide (mode = "discrete")); destruct c as [x|lo hi]; try by inv_M.
  - by apply np_map_wf.
  - apply bind_Ok in Hrun as (a1 & h1 & Hgt & Hrun).
    apply bind_Ok in Hrun as (a2 & h2 & Hle & Hrun).
    destruct (np_map_wf _ _ _ _ _ Hwf Hgt) as (Hp1 & Hwf1 & Hn1 & Hm1 & Hr1).
    destruct (np_map_wf _ _ _ _ _ (wf_prefix _ _ _ Hp1 Hwf) Hle)
      as (Hp2 & Hwf2 & Hn2 & Hm2 & Hr2).
    destruct (np_binary_wf _ _ _ _ _ _ (wf_prefix _ _ _ Hp2 Hwf1) Hwf2
                ltac:(congruence) ltac:(congruence) Hrun)
      as (Hp3 & Hwf3 & Hn3 & Hm3 & Hr3).
    split; [by etrans; [| etrans] |]. split; [done |].
    split; [congruence |]. split; [congruence |].
    rewrite Hr3, Hr2, (read_prefix h1 h2 a1 Hp2) by apply Hwf1.
    rewrite Hr1, (read_prefix h h1 b Hp1) by apply Hwf.
    rewrite zip_grid_map. apply grid_map_ext. intros v.
    by rewrite !truthy_of_bool.
Qed.

Lemma class_BooleanArray_produces (mode : string) (c : input_class) (b : ndarray) :
  produces any_pixel (class_BooleanArray mode c b).
Proof.
  intros h B h' Hrun. unfold class_BooleanArray in Hrun.
  destruct (bool_decide (mode = "discrete")); destruct c as [x|lo hi]; try by inv_M.
  - exact (np_binary_produces any_pixel _ _ _ (fun _ _ => I) _ _ _ Hrun).
  - apply bind_Ok in Hrun as (a1 & h1 & Hgt & Hrun).
    apply bind_Ok in Hrun as (a2 & h2 & Hle & Hrun).
    destruct (np_binary_produces any_pixel _ _ _ (fun _ _ => I) _ _ _ Hgt) as (Hp1 & _).
    destruct (np_binary_produces any_pixel _ _ _ (fun _ _ => I) _ _ _ Hle) as (Hp2 & _).
    destruct (np_binary_produces any_pixel _ _ _ (fun _ _ => I) _ _ _ Hrun)
      as (Hp3 & Hb & Hg).
    pose proof (prefix_length_le _ _ Hp1). pose proof (prefix_length_le _ _ Hp2).
    split; [by etrans; [| etrans] |]. split; [lia | done].
Qed.

Lemma Reclassify_mask_prefix (mode : string) (TheBand : ndarray)
    (InputClasses : list input_class) (OutputClasses : list (option Qc)) :
  forall Index Mask h r h',
  Reclassify_mask mode TheBand InputClasses OutputClasses Index Mask h = Ok (r, h') ->
  h `prefix_of` h'.
Proof.
  induction InputClasses as [|c rest IH]; intros Index Mask h r h' Hrun; simpl in Hrun.
  - by inv_M.
  - destruct (OutputClasses !! Index) as [OutputValue|]; [| inv_M].
    apply bind_Ok in Hrun as (Mask1 & h1 & Hstep & Hrun).
    apply IH in Hrun. etrans; [| exact Hrun].
    destruct OutputValue as [o|]; [by inv_M |].
    apply bind_Ok in Hstep as (B & h2 & HB & Hstep).
    destruct (class_BooleanArray_produces _ _ _ _ _ _ HB) as (Hp1 & _).
    destruct Mask as [m|]; [| by inv_M].
    apply bind_Ok in Hstep as (m' & h3 & Hor & Hstep).
    destruct (np_binary_produces any_pixel
                (fun x y => of_bool (truthy x || truthy y)) B (Arr m)
                (fun _ _ => I) _ _ _ Hor) as (Hp2 & _).
    inv_M. by etrans.
Qed.

(** The class loop over one band rewrites each pixel by [reclass_pixel]. *)
Lemma Reclassify_band_pixels (mode : string) (InputClasses : list input_class)
    (OutputClasses : list (option Qc)) :
  forall Index b h b' h',
  wf h b ->
  Reclassify_band mode InputClasses OutputClasses Index b h = Ok (b', h') ->
  h `prefix_of` h' /\ wf h' b' /\
  read h' b' = grid_map (reclass_pixel mode InputClasses OutputClasses Index) (read h b).
Proof.
  induction InputClasses as [|c rest IH]; intros Index b h b' h' Hwf Hrun;
    simpl in Hrun.
  - apply ret_Ok in Hrun as [<- ->]. split; [done |]. split; [done |].
    simpl. by rewrite grid_map_id.
  - destruct (OutputClasses !! Index) as [OutputValue|] eqn:Hout; [| inv_M].
    apply bind_Ok in Hrun as (b1 & h1 & Hstep & Hrun).
    assert (Hstep_spec : h `prefix_of` h1 /\ wf h1 b1 /\
      read h1 b1 = grid_map (fun v =>
        match OutputValue with
        | Some o => if class_matches mode c v then o else v
        | None => v
        end) (read h b)).
    { destruct OutputValue as [o|].
      - apply bind_Ok in Hstep as (B & h2 & HB & Hstep).
        destruct (class_BooleanArray_wf _ _ _ _ _ _ Hwf HB)
          as (Hp1 & HwfB & Hn & Hm & HrB).
        destruct (np_where_wf _ _ _ _ _ _ HwfB (wf_prefix _ _ _ Hp1 Hwf) Hn Hm Hstep)
          as (Hp2 & Hwf2 & _ & _ & Hr2).
        split; [by etrans |]. split; [done |].
        rewrite Hr2, HrB, (read_prefix h h2 b Hp1) by apply Hwf.
        rewrite <- (grid_map_id (read h b)) at 2. rewrite zip_grid_map.
        apply grid_map_ext. intros v. by rewrite truthy_of_bool.
      - apply ret_Ok in Hstep as [<- ->]. split; [done |]. split; [done |].
        by rewrite grid_map_id. }
    destruct Hstep_spec as (Hp1 & Hwf1 & Hr1).
    destruct (IH _ _ _ _ _ Hwf1 Hrun) as (Hp2 & Hwf2 & Hr2).
    split; [by etrans |]. split; [done |].
    rewrite Hr2, Hr1, grid_map_compose. apply grid_map_ext. intros v.
    simpl. rewrite Hout. by destruct OutputValue.
Qed.

Lemma mapM_Reclassify_band (mode : string) (InputClasses : list input_class)
    (OutputClasses : list (option Qc)) (bs : list ndarray) :
  forall h bs' h',
  Forall (wf h) bs ->
  mapM (Reclassify_band mode InputClasses OutputClasses 0) bs h = Ok (bs', h') ->
  h `prefix_of` h' /\
  Forall2 (fun b b' =>
    read h' b' = grid_map (reclass_pixel mode InputClasses OutputClasses 0) (read h b))
    bs bs'.
Proof.
  induction bs as [|b bs IH]; intros h bs' h' Hwf Hrun; simpl in Hrun.
  - apply ret_Ok in Hrun as [<- ->]. split; [done | constructor].
  - apply Forall_cons in Hwf as [Hwfb Hwf].
    apply bind_Ok in Hrun as (b1 & h1 & Hband & Hrun).
    apply bind_Ok in Hrun as (bs1 & h2 & Hrest & Hrun).
    apply ret_Ok in Hrun as [<- ->].
    destruct (Reclassify_band_pixels _ _ _ _ _ _ _ _ Hwfb Hband) as (Hp1 & Hwf1 & Hr1).
    assert (Hwf' : Forall (wf h1) bs).
    { eapply Forall_impl; [exact Hwf |]. intros a. by apply wf_prefix. }
    destruct (IH _ _ _ Hwf' Hrest) as (Hp2 & Hall).
    split; [by etrans |]. constructor.
    + rewrite (read_prefix h1 h2 b1 Hp2) by apply Hwf1. exact Hr1.
    + eapply Forall2_impl_in; [exact Hall |]. intros a a' Ha Hra.
      rewrite Hra. f_equal. apply read_prefix; [done |].
      eapply Forall_forall in Hwf; [| exact Ha]. apply Hwf.
Qed.

(** A pixel that the classes leave alone. *)
Lemma reclass_pixel_unmatched (mode : string) (classes : list input_class)
    (outputs : list (option Qc)) (v : Qc) :
  Forall (fun c => class_matches mode c v = false) classes ->
  forall Index, reclass_pixel mode classes outputs Index v = v.
Proof.
  induction 1 as [|c rest Hc _ IH]; intros Index; simpl; [done |].
  rewrite Hc. destruct (outputs !! Index) as [[o|]|]; apply IH.
Qed.

(** When no output value is itself in a class, the loop is first-match. *)
Lemma reclass_pixel_first_match (mode : string) (classes : list input_class)
    (outputs : list (option Qc)) :
  (forall o, Some o ∈ outputs ->
     Forall (fun c => class_matches mode c o = false) classes) ->
  forall Index v,
  reclass_pixel mode classes outputs Index v
  = default v (first_match mode classes outputs Index v).
Proof.
  intros Hno. revert Hno.
  induction classes as [|c rest IH]; intros Hno Index v; simpl; [done |].
  assert (Hrest : forall o, Some o ∈ outputs ->
            Forall (fun c0 => class_matches mode c0 o = false) rest).
  { intros o Ho. specialize (Hno o Ho). by apply Forall_cons in Hno as [_ ?]. }
  destruct (outputs !! Index) as [[o|]|] eqn:Hout; try by apply IH.
  destruct (class_matches mode c v); [| by apply IH].
  simpl. apply reclass_pixel_unmatched. apply Hrest.
  by apply list_elem_of_lookup_2 in Hout.
Qed.

(** C3, as the code has it. [Reclassify] applies the classes in input
    order, each class with an output value being tested on the band as
    the classes before it left it ([reclass_pixel]), not on the
    original pixel.  Hence, when no output value falls in a class, a
    pixel that matches several classes ends with the output of the
    first class that matches it, and a pixel that matches none is kept. *)
Theorem Reclassify_tests_rewritten_band (self : SpaDatasetRaster)
    (InputClasses : list input_class) (OutputClasses : list (option Qc))
    (mode : string) (bs : list ndarray) (h : heap)
    (out : SpaDatasetRaster) (h' : heap) :
  TheBands self = Some bs -> valid h self -> Forall (wf h) bs ->
  Reclassify self InputClasses OutputClasses mode h = Ok (out, h') ->
  (exists bs', TheBands out = Some bs' /\
     Forall2 (fun b b' =>
       read h' b' = grid_map (reclass_pixel mode InputClasses OutputClasses 0) (read h b))
       bs bs') /\
  ((forall o, Some o ∈ OutputClasses ->
      Forall (fun c => class_matches mode c o = false) InputClasses) ->
   forall v, reclass_pixel mode InputClasses OutputClasses 0 v
             = default v (first_match mode InputClasses OutputClasses 0 v)).
Proof.
  intros Hbs Hvalid Hwf Hrun. split; [| intros Hno v; by apply reclass_pixel_first_match].
  unfold Reclassify in Hrun.
  apply bind_Ok in Hrun as (NewDataset & h1 & Hclone & Hrun).
  destruct (Clone_Ok _ _ _ _ Hvalid Hclone) as (Hp1 & _ & _).
  rewrite Hbs in Hrun. destruct (bs !! 0%nat) as [TheBand|]; [| inv_M].
  apply bind_Ok in Hrun as (Mask & h2 & Hmask & Hrun).
  apply Reclassify_mask_prefix in Hmask as Hp2.
  apply bind_Ok in Hrun as (NewBands & h3 & Hbands & Hrun).
  unfold SetMask, bind, ret in Hrun. inversion Hrun; subst out h'; clear Hrun.
  assert (Hp : h `prefix_of` h2) by (by etrans).
  assert (Hwf2 : Forall (wf h2) bs).
  { eapply Forall_impl; [exact Hwf |]. intros a. by apply wf_prefix. }
  destruct (mapM_Reclassify_band _ _ _ _ _ _ _ Hwf2 Hbands) as (Hp3 & Hall).
  exists NewBands. split; [reflexivity |].
  eapply Forall2_impl_in; [exact Hall |]. intros a a' Ha Hra.
  rewrite Hra. f_equal. apply read_prefix; [done |].
  eapply Forall_forall in Hwf; [| exact Ha]. apply Hwf.
Qed.

(** * Further properties *)

(** ** Pixel and reference coordinates, and windows *)

Lemma Qc_floor_le (x : Qc) : Qc_of_Z (Qfloor (this x)) ≤ x.
Proof. unfold Qcle. simpl. apply Qfloor_le. Qed.

Lemma Qc_lt_floor (x : Qc) : x < Qc_of_Z (Qfloor (this x) + 1).
Proof. unfold Qclt. simpl. apply Qlt_floor. Qed.

Lemma Qc_floor_unique (x : Qc) (n : Z) :
  Qc_of_Z n ≤ x -> x < Qc_of_Z (n + 1) -> Qfloor (this x) = n.
Proof.
  intros Hle Hlt.
  pose proof (Qc_floor_le x) as Hf. pose proof (Qc_lt_floor x) as Hc.
  assert (H1 : Qc_of_Z n < Qc_of_Z (Qfloor (this x) + 1))
    by (eapply Qcle_lt_trans; [exact Hle | exact Hc]).
  assert (H2 : Qc_of_Z (Qfloor (this x)) < Qc_of_Z (n + 1))
    by (eapply Qcle_lt_trans; [exact Hf | exact Hlt]).
  apply Z2Qc_inj_lt in H1, H2. lia.
Qed.

Lemma py_floordiv_Ok (x y : Qc) :
  y <> 0 -> py_floordiv x y = Ok (Qfloor (this (x / y))).
Proof.
  intros Hy. unfold py_floordiv, Qc_eqb. by rewrite bool_decide_eq_false_2.
Qed.

Lemma Qclt_not_eq' (x y : Qc) : x < y -> y <> x.
Proof. intros Hlt ->. by apply Qclt_not_eq in Hlt. Qed.

(** X1. For an origin, a positive pixel width and a coordinate [RefX]
    that are whole numbers, [GetPixelXFromRefX] returns the column whose
    half-open interval of reference coordinates, as [GetRefXFromPixelX]
    lays the columns out, holds [RefX]; no other column does. *)
Theorem GetPixelXFromRefX_is_the_column (self : SpaDatasetRaster) (RefX : Qc) :
  whole (XMin self) -> whole (PixelWidth self) -> whole RefX ->
  0 < PixelWidth self ->
  exists PixelX, GetPixelXFromRefX self RefX = Ok PixelX /\
    GetRefXFromPixelX self PixelX ≤ RefX /\
    RefX < GetRefXFromPixelX self (PixelX + 1) /\
    forall p, GetRefXFromPixelX self p ≤ RefX -> RefX < GetRefXFromPixelX self (p + 1) ->
              p = PixelX.
Proof.
  intros _ _ _ Hw. pose proof (Qclt_not_eq' _ _ Hw) as Hne.
  unfold GetPixelXFromRefX, GetRefXFromPixelX, GetResolution. cbn [fst snd].
  rewrite py_floordiv_Ok by done.
  set (t := (RefX - XMin self) / PixelWidth self).
  assert (Ht : RefX = XMin self + t * PixelWidth self) by (unfold t; by field).
  clearbody t. subst RefX.
  exists (Qfloor (this t)). split; [f_equal; lia |].
  split; [| split].
  - apply Qcplus_le_mono_l, Qcmult_le_compat_r.
    + apply Qc_floor_le.
    + by apply Qclt_le_weak.
  - apply Qcplus_lt_mono_l, Qcmult_lt_compat_r; [done |].
    apply Qc_lt_floor.
  - intros p Hlo Hhi. symmetry. apply Qc_floor_unique.
    + apply Qcplus_le_mono_l in Hlo.
      by apply Qcmult_le_mono_pos_r in Hlo.
    + apply Qcplus_lt_mono_l in Hhi.
      by apply Qcmult_lt_mono_pos_r in Hhi.
Qed.

Lemma Qc_of_Z_neg_mul (q : Z) (s : Qc) : Qc_of_Z (0 - q) * - s = Qc_of_Z q * s.
Proof. rewrite Z2Qc_inj_sub, Z2Qc_inj_0. ring. Qed.

(** X2. For a north-up raster (negative [PixelHeight]) whose top edge
    and pixel height are whole numbers, and a whole number [RefY],
    [GetPixelYFromRefY] returns the row [PixelY] with
    [YMax + PixelY*PixelHeight <= RefY < YMax + (PixelY-1)*PixelHeight]:
    with the rows laid out as [GetBounds] and [ExtractByPixels] lay them
    out, that is one more than the row that holds [RefY], unless [RefY]
    is on a row edge. *)
Theorem GetPixelYFromRefY_north_up (self : SpaDatasetRaster) (RefY : Qc) :
  whole (YMax self) -> whole (PixelHeight self) -> whole RefY ->
  PixelHeight self < 0 ->
  exists PixelY, GetPixelYFromRefY self RefY = Ok PixelY /\
    YMax self + Qc_of_Z PixelY * PixelHeight self ≤ RefY /\
    RefY < YMax self + Qc_of_Z (PixelY - 1) * PixelHeight self.
Proof.
  intros _ _ _ Hh. pose proof (Qclt_not_eq _ _ Hh) as Hne.
  unfold GetPixelYFromRefY, GetResolution. cbn [fst snd].
  rewrite py_floordiv_Ok by done.
  set (s := - PixelHeight self).
  assert (Hs : 0 < s).
  { unfold s. apply Qclt_minus_iff in Hh. by rewrite Qcplus_0_l in Hh. }
  assert (Hph : PixelHeight self = - s) by (unfold s; ring).
  set (t := (YMax self - RefY) / PixelHeight self).
  assert (Ht : RefY = YMax self + t * s) by (unfold t, s; by field).
  clearbody t s. subst RefY. rewrite Hph.
  exists (0 - Qfloor (this t))%Z. split; [reflexivity |].
  rewrite Qc_of_Z_neg_mul.
  replace (0 - Qfloor (this t) - 1)%Z with (0 - (Qfloor (this t) + 1))%Z by lia.
  rewrite Qc_of_Z_neg_mul. split.
  - apply Qcplus_le_mono_l, Qcmult_le_compat_r.
    + apply Qc_floor_le.
    + by apply Qclt_le_weak.
  - apply Qcplus_lt_mono_l, Qcmult_lt_compat_r; [done |]. apply Qc_lt_floor.
Qed.

Lemma GetPixelXFromRefX_edge (self : SpaDatasetRaster) (n : Z) :
  PixelWidth self <> 0 ->
  GetPixelXFromRefX self (XMin self + Qc_of_Z n * PixelWidth self) = Ok n.
Proof.
  intros Hw. unfold GetPixelXFromRefX, GetResolution. cbn [fst snd].
  replace (XMin self + Qc_of_Z n * PixelWidth self - XMin self)
    with (Qc_of_Z n * PixelWidth self) by ring.
  by rewrite py_floordiv_multiple.
Qed.

Lemma GetPixelYFromRefY_edge (self : SpaDatasetRaster) (n : Z) :
  PixelHeight self <> 0 ->
  GetPixelYFromRefY self (YMax self + Qc_of_Z n * PixelHeight self) = Ok n.
Proof.
  intros Hh. unfold GetPixelYFromRefY, GetResolution. cbn [fst snd].
  replace (YMax self - (YMax self + Qc_of_Z n * PixelHeight self))
    with (Qc_of_Z (- n) * PixelHeight self) by (rewrite Z2Qc_inj_opp; ring).
  rewrite py_floordiv_multiple by done. f_equal. lia.
Qed.

Lemma GetPixelXFromRefX_origin (self : SpaDatasetRaster) :
  PixelWidth self <> 0 -> GetPixelXFromRefX self (XMin self) = Ok 0%Z.
Proof.
  intros Hw. pose proof (GetPixelXFromRefX_edge self 0 Hw) as H0.
  by rewrite Z2Qc_inj_0, Qcmult_0_l, Qcplus_0_r in H0.
Qed.

Lemma GetPixelYFromRefY_origin (self : SpaDatasetRaster) :
  PixelHeight self <> 0 -> GetPixelYFromRefY self (YMax self) = Ok 0%Z.
Proof.
  intros Hh. pose proof (GetPixelYFromRefY_edge self 0 Hh) as H0.
  by rewrite Z2Qc_inj_0, Qcmult_0_l, Qcplus_0_r in H0.
Qed.

(** X3. For a georeference in whole numbers, [GetPixelYFromRefY]
    inverts the map from a row edge to its reference coordinate that
    [GetBounds] and [ExtractByPixels] use, [YMax + r*PixelHeight]; and
    the corners of [GetBounds] are the pixel corners [(0, 0)] and
    [(WidthInPixels, HeightInPixels)]. *)
Theorem GetBounds_corners_are_pixel_corners (self : SpaDatasetRaster) (r : Z) :
  whole_georeference self -> small r ->
  small (WidthInPixels self) -> small (HeightInPixels self) ->
  PixelWidth self <> 0 -> PixelHeight self <> 0 ->
  GetPixelYFromRefY self (YMax self + Qc_of_Z r * PixelHeight self) = Ok r /\
  let TheBounds := GetBounds self in
  GetPixelXFromRefX self TheBounds.1.1.1 = Ok 0%Z /\
  GetPixelYFromRefY self TheBounds.2 = Ok 0%Z /\
  GetPixelXFromRefX self TheBounds.1.2 = Ok (WidthInPixels self) /\
  GetPixelYFromRefY self TheBounds.1.1.2 = Ok (HeightInPixels self).
Proof.
  intros _ _ _ _ Hw Hh. split; [by apply GetPixelYFromRefY_edge |].
  unfold GetBounds, GetResolution. cbn [fst snd].
  split; [| split; [| split]].
  - by apply GetPixelXFromRefX_origin.
  - by apply GetPixelYFromRefY_origin.
  - by apply GetPixelXFromRefX_edge.
  - by apply GetPixelYFromRefY_edge.
Qed.

Lemma pixel_window (r c n m : nat) (g : grid) (i j : nat) :
  (i < n)%nat -> (j < m)%nat ->
  pixel (window r c n m g) i j = pixel g (r + i) (c + j).
Proof.
  intros Hi Hj. unfold pixel, window.
  rewrite list_lookup_fmap, lookup_take_lt, lookup_drop by done.
  destruct (g !! (r + i)%nat) as [row|]; [| reflexivity]. simpl.
  by rewrite lookup_take_lt, lookup_drop.
Qed.

Lemma take_drop_take {A} (r n n' : nat) (l : list A) :
  (r + n' <= n)%nat -> take n' (drop r (take n l)) = take n' (drop r l).
Proof.
  intros Hn. apply list_eq. intros i.
  destruct (decide (i < n')%nat) as [Hi|Hi].
  - rewrite !lookup_take_lt, !lookup_drop by done. by rewrite lookup_take_lt by lia.
  - by rewrite !lookup_take_ge by lia.
Qed.

Lemma window_window (r c n m r' c' n' m' : nat) (g : grid) :
  (r' + n' <= n)%nat -> (c' + m' <= m)%nat ->
  window r' c' n' m' (window r c n m g) = window (r + r') (c + c') n' m' g.
Proof.
  intros Hn Hm. unfold window.
  rewrite <- fmap_drop, <- fmap_take, <- list_fmap_compose.
  rewrite take_drop_take, drop_drop by done.
  apply list_fmap_ext. intros k row _. simpl.
  by rewrite take_drop_take, drop_drop.
Qed.

Lemma read_np_slice (h : heap) (b : ndarray) (r0 r1 c0 c1 : Z) :
  (0 <= r0 <= r1)%Z -> (r1 <= Z.of_nat (nrows b))%Z ->
  (0 <= c0 <= c1)%Z -> (c1 <= Z.of_nat (ncols b))%Z ->
  read h (np_slice b r0 r1 c0 c1)
  = window (Z.to_nat r0) (Z.to_nat c0) (Z.to_nat (r1 - r0)) (Z.to_nat (c1 - c0)) (read h b).
Proof.
  intros Hr Hr1 Hc Hc1. unfold np_slice.
  rewrite !slice_indices_from by lia.
  unfold read. cbn [base row0 col0 nrows ncols].
  rewrite window_window by lia.
  f_equal; lia.
Qed.

Section ExtractMore.
Context `{Collaborators}.

Lemma ExtractByPixels_loaded (d : SpaDatasetRaster) (c0 r0 c1 r1 : Z)
    (bs : list ndarray) (h : heap) :
  TheBands d = Some bs -> NumBands d = Z.of_nat (length bs) ->
  exists out,
    SpaResample_ExtractByPixels d c0 r0 c1 r1 h = Ok (out, h) /\
    TheBands out = Some ((fun b => np_slice b r0 (r1 + 1) c0 (c1 + 1)) <$> bs) /\
    WidthInPixels out = (c1 - c0 + 1)%Z /\ HeightInPixels out = (r1 - r0 + 1)%Z /\
    XMin out = XMin d + Qc_of_Z c0 * PixelWidth d /\
    YMax out = YMax d + Qc_of_Z r0 * PixelHeight d /\
    PixelWidth out = PixelWidth d /\ PixelHeight out = PixelHeight d /\
    TheMask out = None.
Proof.
  intros Hbs Hnum. eexists. split.
  - unfold SpaResample_ExtractByPixels, bind.
    rewrite (GetBands_loaded _ _ _ Hbs). simpl.
    unfold GetNumBands. simpl. rewrite Hnum, Nat2Z.id.
    rewrite ExtractByPixels_loop_slices by (simpl; lia).
    simpl. rewrite drop_0, firstn_all. reflexivity.
  - simpl. repeat split.
Qed.

(** X4. Whenever [ExtractByPixels] returns, the bounds of the result,
    as [GetBounds] computes them, are the rectangle of the columns
    [c0..c1] and rows [r0..r1] of the source, both ends included, and
    the resolution is that of the source. *)
Theorem ExtractByPixels_bounds (d : SpaDatasetRaster) (c0 r0 c1 r1 : Z) (h : heap)
    (out : SpaDatasetRaster) (h' : heap) :
  SpaResample_ExtractByPixels d c0 r0 c1 r1 h = Ok (out, h') ->
  GetResolution out = GetResolution d /\
  GetBounds out =
    (XMin d + Qc_of_Z c0 * PixelWidth d, YMax d + Qc_of_Z (r1 + 1) * PixelHeight d,
     XMin d + Qc_of_Z (c1 + 1) * PixelWidth d, YMax d + Qc_of_Z r0 * PixelHeight d).
Proof.
  unfold SpaResample_ExtractByPixels. intros Hrun.
  apply bind_Ok in Hrun as (r & h1 & _ & Hrun).
  apply bind_Ok in Hrun as (OutputBands & h2 & _ & Hrun).
  apply ret_Ok in Hrun as [<- _].
  split; [reflexivity |].
  unfold GetBounds, GetResolution. simpl.
  replace (r1 + 1)%Z with (r0 + (r1 - r0 + 1))%Z by lia.
  replace (c1 + 1)%Z with (c0 + (c1 - c0 + 1))%Z by lia.
  rewrite !Z2Qc_inj_add, !Qcmult_plus_distr_l, !Qcplus_assoc. reflexivity.
Qed.

(** X5. For a window inside a loaded raster, pixel [(i, j)] of each
    band returned by [ExtractByPixels] is pixel [(r0+i, c0+j)] of the
    corresponding source band, and the store is left as it was. *)
Theorem ExtractByPixels_pixels (d : SpaDatasetRaster) (c0 r0 c1 r1 : Z)
    (bs : list ndarray) (h : heap) :
  TheBands d = Some bs -> NumBands d = Z.of_nat (length bs) ->
  Forall (fun b => Z.of_nat (nrows b) = HeightInPixels d /\
                   Z.of_nat (ncols b) = WidthInPixels d) bs ->
  (0 <= c0 <= c1)%Z -> (c1 < WidthInPixels d)%Z ->
  (0 <= r0 <= r1)%Z -> (r1 < HeightInPixels d)%Z ->
  exists out bs',
    SpaResample_ExtractByPixels d c0 r0 c1 r1 h = Ok (out, h) /\
    TheBands out = Some bs' /\
    Forall2 (fun b b' =>
      forall i j, (Z.of_nat i <= r1 - r0)%Z -> (Z.of_nat j <= c1 - c0)%Z ->
        pixel (read h b') i j = pixel (read h b) (Z.to_nat r0 + i) (Z.to_nat c0 + j))
      bs bs'.
Proof.
  intros Hbs Hnum Hshape Hc Hc1 Hr Hr1.
  destruct (ExtractByPixels_loaded d c0 r0 c1 r1 bs h Hbs Hnum)
    as (out & Hrun & Hout & _).
  exists out, ((fun b => np_slice b r0 (r1 + 1) c0 (c1 + 1)) <$> bs).
  split; [exact Hrun |]. split; [exact Hout |].
  apply Forall2_fmap_r, Forall_Forall2_diag.
  eapply Forall_impl; [exact Hshape |]. intros b [Hrows Hcols] i j Hi Hj.
  rewrite read_np_slice by lia. apply pixel_window; lia.
Qed.

Lemma np_slice_whole (b : ndarray) (r1 c1 : Z) :
  (Z.of_nat (nrows b) <= r1)%Z -> (Z.of_nat (ncols b) <= c1)%Z ->
  np_slice b 0 r1 0 c1 = b.
Proof.
  intros Hr Hc. unfold np_slice. rewrite !slice_indices_from by lia.
  destruct b as [ba ro co n m]. simpl in *. f_equal; lia.
Qed.

(** X6. For a georeference in whole numbers, [NumpyCrop] to a
    rectangle whose sides are pixel edges, from column edge [c0] to
    column edge [c1] and from row edge [r0] to row edge [r1], is
    [ExtractByPixels] with [c1] and [r1] as the last column and row
    included: the result is one column and one row larger than the
    rectangle. *)
Theorem NumpyCrop_on_pixel_edges (d : SpaDatasetRaster) (c0 r0 c1 r1 : Z) (h : heap) :
  whole_georeference d -> small c0 -> small r0 -> small c1 -> small r1 ->
  PixelWidth d <> 0 -> PixelHeight d <> 0 ->
  NumpyCrop d (XMin d + Qc_of_Z c0 * PixelWidth d, YMax d + Qc_of_Z r1 * PixelHeight d,
               XMin d + Qc_of_Z c1 * PixelWidth d, YMax d + Qc_of_Z r0 * PixelHeight d) h
  = SpaResample_ExtractByPixels d c0 r0 c1 r1 h.
Proof.
  intros _ _ _ _ _ Hw Hh. unfold NumpyCrop, SpaResample_NumpyCrop, bind, lift.
  by rewrite !GetPixelXFromRefX_edge, !GetPixelYFromRefY_edge.
Qed.

(** X7. [NumpyCrop] of a loaded raster with a georeference in whole
    numbers to its own bounds returns the same band arrays under a
    header that is one pixel wider and one pixel taller than the raster,
    so the bounds of the result are not those of the raster. *)
Theorem NumpyCrop_to_own_bounds (d : SpaDatasetRaster) (bs : list ndarray) (h : heap) :
  whole_georeference d -> small (WidthInPixels d) -> small (HeightInPixels d) ->
  TheBands d = Some bs -> NumBands d = Z.of_nat (length bs) ->
  Forall (fun b => Z.of_nat (nrows b) = HeightInPixels d /\
                   Z.of_nat (ncols b) = WidthInPixels d) bs ->
  PixelWidth d <> 0 -> PixelHeight d <> 0 ->
  exists out,
    NumpyCrop d (GetBounds d) h = Ok (out, h) /\
    TheBands out = Some bs /\
    WidthInPixels out = (WidthInPixels d + 1)%Z /\
    HeightInPixels out = (HeightInPixels d + 1)%Z /\
    XMin out = XMin d /\ YMax out = YMax d /\
    GetResolution out = GetResolution d /\
    GetBounds out <> GetBounds d.
Proof.
  intros _ _ _ Hbs Hnum Hshape Hw Hh.
  destruct (ExtractByPixels_loaded d 0 0 (WidthInPixels d) (HeightInPixels d) bs h
              Hbs Hnum)
    as (out & Hrun & Hout & Hwo & Hho & Hx & Hy & Hpw & Hph & _).
  exists out. split.
  { unfold NumpyCrop, SpaResample_NumpyCrop, GetBounds, GetResolution, bind, lift.
    cbn [fst snd].
    rewrite GetPixelXFromRefX_origin, GetPixelYFromRefY_origin by done.
    rewrite GetPixelXFromRefX_edge, GetPixelYFromRefY_edge by done.
    exact Hrun. }
  assert (Hx' : XMin out = XMin d) by (rewrite Hx, Z2Qc_inj_0; ring).
  assert (Hy' : YMax out = YMax d) by (rewrite Hy, Z2Qc_inj_0; ring).
  split.
  { rewrite Hout. f_equal. rewrite <- (list_fmap_id bs) at 2.
    apply Forall_fmap_ext_1. eapply Forall_impl; [exact Hshape |].
    intros b [Hrows Hcols]. unfold id. apply np_slice_whole; lia. }
  split; [rewrite Hwo; lia |]. split; [rewrite Hho; lia |].
  split; [exact Hx' |]. split; [exact Hy' |].
  split; [unfold GetResolution; by rewrite Hpw, Hph |].
  unfold GetBounds, GetResolution. cbn [fst snd].
  rewrite Hx', Hy', Hwo, Hpw, Hph, Z.sub_0_r. intros Heq.
  apply (f_equal (fun b : bounds => b.1.2)) in Heq as Hxmax. cbn [fst snd] in Hxmax.
  apply Hw.
  replace (PixelWidth d)
    with (XMin d + Qc_of_Z (WidthInPixels d + 1) * PixelWidth d
          - (XMin d + Qc_of_Z (WidthInPixels d) * PixelWidth d))
    by (rewrite Z2Qc_inj_add, Z2Qc_inj_1; ring).
  rewrite Hxmax. ring.
Qed.

End ExtractMore.

(** ** Loading from a GDAL dataset *)

Lemma GetRasterBand_lookup (ds : gdal_Dataset) (Count : Z) :
  (0 <= Count)%Z -> GetRasterBand ds (Count + 1) = RasterBands ds !! Z.to_nat Count.
Proof.
  intros Hc. unfold GetRasterBand. destruct (Z.ltb_spec (Count + 1) 1); [lia |].
  f_equal. lia.
Qed.

Lemma np_of_grid_rectangular (g : grid) (h : heap) :
  rectangular g ->
  exists a, np_of_grid g h = Ok (a, h ++ [g]) /\ base a = length h /\
    wf (h ++ [g]) a /\ read (h ++ [g]) a = g /\
    nrows a = (grid_shape g).1 /\ ncols a = (grid_shape g).2.
Proof.
  intros Hg. eexists. split; [reflexivity |]. split; [reflexivity |].
  destruct (read_alloc_exact h g _ _ Hg) as [Hr Hwf].
  split; [done |]. split; [done |]. split; reflexivity.
Qed.

Lemma GetBands_loop_reads (ds : gdal_Dataset) (NoData : option Qc) (n : nat) :
  forall (Count : nat) Bands Mask h,
  (Count + n <= length (RasterBands ds))%nat ->
  Forall (fun band => rectangular (ReadAsArray band)) (RasterBands ds) ->
  exists Bands' Mask' h',
    GetBands_loop ds NoData n (Z.of_nat Count) Bands Mask h
      = Ok ((Bands ++ Bands', Mask'), h') /\
    h `prefix_of` h' /\
    Forall2 (fun b band => wf h' b /\ read h' b = ReadAsArray band /\
                           nrows b = (grid_shape (ReadAsArray band)).1 /\
                           ncols b = (grid_shape (ReadAsArray band)).2)
      Bands' (take n (drop Count (RasterBands ds))) /\
    (forall m, Mask = Some m -> Mask' = Some m) /\
    (NoData = None -> Mask' = Mask) /\
    (n = 0%nat -> Mask' = Mask) /\
    (forall band, Mask = None -> RasterBands ds !! Count = Some band -> n <> 0%nat ->
       loaded_mask NoData band h' Mask').
Proof.
  induction n as [|n IH]; intros Count Bands Mask h Hlen Hrect.
  - exists [], Mask, h. simpl. rewrite app_nil_r. split; [reflexivity |].
    split; [done |]. split; [constructor |]. repeat split; try done.
  - simpl. rewrite GetRasterBand_lookup by lia. rewrite Nat2Z.id.
    destruct (RasterBands ds !! Count) as [band|] eqn:Hband;
      [| apply lookup_ge_None in Hband; lia].
    assert (Hg : rectangular (ReadAsArray band)).
    { eapply Forall_forall in Hrect; [exact Hrect |].
      by apply list_elem_of_lookup_2 in Hband. }
    destruct (np_of_grid_rectangular _ h Hg)
      as (TheBand & Hrun1 & Hbase & Hwf1 & Hr1 & Hshape1).
    unfold bind at 1. rewrite Hrun1.
    set (h1 := h ++ [ReadAsArray band]) in *.
    assert (Hp1 : h `prefix_of` h1) by (by apply prefix_app_r).
    (* the mask step *)
    assert (Hmask : exists Mask1 h2,
      (match NoData, Mask with
       | Some v, None =>
           bind (np_map (fun v0 => of_bool (Qc_eqb v0 v)) TheBand) (fun m => ret (Some m))
       | _, _ => ret Mask
       end) h1 = Ok (Mask1, h2) /\ h1 `prefix_of` h2 /\
      (forall m, Mask = Some m -> Mask1 = Some m) /\
      (NoData = None -> Mask1 = Mask) /\
      (Mask = None -> loaded_mask NoData band h2 Mask1) /\
      (Mask = None -> NoData <> None -> is_Some Mask1)).
    { destruct NoData as [v|]; [destruct Mask as [m0|] |].
      - exists (Some m0), h1. repeat split; try done.
      - destruct (np_map (fun v0 => of_bool (Qc_eqb v0 v)) TheBand h1)
          as [[m h2]|] eqn:Heq; [| discriminate Heq].
        destruct (np_map_wf _ _ _ _ _ Hwf1 Heq) as (Hp2 & Hwf2 & _ & _ & Hr2).
        exists (Some m), h2. unfold bind. rewrite Heq. split; [reflexivity |].
        split; [done |]. split; [done |]. split; [done |]. split.
        + intros _. exists m. split; [done |]. split; [done |]. by rewrite Hr2, Hr1.
        + by eexists.
      - exists Mask, h1. repeat split; try done. }
    destruct Hmask as (Mask1 & h2 & Hrun2 & Hp2 & Hkeep1 & Hnone1 & Hnew1 & Hsome1).
    unfold bind at 1. 
    rewrite Hrun2.
    replace (Z.of_nat Count + 1)%Z with (Z.of_nat (S Count)) by lia.
    destruct (IH (S Count) (Bands ++ [TheBand]) Mask1 h2 ltac:(lia) Hrect)
      as (Bands' & Mask' & h' & Hrun3 & Hp3 & Hall & Hkeep3 & Hnone3 & Hzero3 & Hnew3).
    exists (TheBand :: Bands'), Mask', h'. rewrite Hrun3.
    split; [by rewrite <- (assoc_L (++)) |].
    split; [etrans; [exact Hp1 | etrans; [exact Hp2 | exact Hp3]] |].
    assert (Hp13 : h1 `prefix_of` h') by (by etrans).
    split.
    { rewrite (drop_S _ _ _ Hband). simpl. constructor; [| exact Hall].
      split; [by apply (wf_prefix h1) |]. split; [| exact Hshape1].
      rewrite (read_prefix h1 h') by (done || apply Hwf1). exact Hr1. }
    split.
    { intros m Hm. apply Hkeep3. by apply Hkeep1. }
    split.
    { intros Hn. rewrite Hnone3 by done. by apply Hnone1. }
    split; [discriminate |].
    intros band' HMask Hband' _. injection Hband' as <-. specialize (Hnew1 HMask).
    destruct NoData as [v|].
    + destruct Hnew1 as (m & -> & Hwfm & Hrm).
      rewrite (Hkeep3 m eq_refl). exists m. split; [done |].
      split; [by apply (wf_prefix h2) |].
      rewrite (read_prefix h2 h') by (done || apply Hwfm). exact Hrm.
    + simpl in *. rewrite Hnone3 by done. exact Hnew1.
Qed.

Lemma Load_reads (self : SpaDatasetRaster) (ds : gdal_Dataset) (FirstBand : gdal_Band)
    (rest : list gdal_Band) (h : heap) :
  TheBands self = None -> RasterBands ds = FirstBand :: rest ->
  Forall (fun band => rectangular (ReadAsArray band)) (RasterBands ds) ->
  exists d bs h',
    Load self (Some ds) h = Ok (d, h') /\ h `prefix_of` h' /\
    (GDALDataset d = Some ds /\ GDALDataType d = Some (DataType FirstBand) /\
     WidthInPixels d = RasterXSize ds /\ HeightInPixels d = RasterYSize ds /\
     NumBands d = RasterCount ds /\
     XMin d = gt0 (GetGeoTransform ds) /\ YMax d = gt3 (GetGeoTransform ds) /\
     PixelWidth d = gt1 (GetGeoTransform ds) /\
     PixelHeight d = gt5 (GetGeoTransform ds)) /\
    TheBands d = Some bs /\
    Forall2 (fun b band => wf h' b /\ read h' b = ReadAsArray band /\
                           nrows b = (grid_shape (ReadAsArray band)).1 /\
                           ncols b = (grid_shape (ReadAsArray band)).2)
      bs (RasterBands ds) /\
    NoDataValue d = kept_NoDataValue FirstBand /\
    loaded_mask (kept_NoDataValue FirstBand) FirstBand h' (TheMask d).
Proof.
  intros Hbs Hds Hrect.
  assert (Hfirst : GetRasterBand ds 1 = Some FirstBand).
  { unfold GetRasterBand. simpl. by rewrite Hds. }
  destruct (GetBands_loop_reads ds (kept_NoDataValue FirstBand)
              (length (RasterBands ds)) 0 [] None h ltac:(simpl; lia) Hrect)
    as (Bands' & Mask' & h' & Hloop & Hp & Hall & _ & _ & _ & Hmask).
  rewrite drop_0, firstn_all in Hall. change (Z.of_nat 0) with 0%Z in Hloop.
  simpl in Hloop.
  specialize (Hmask FirstBand eq_refl).
  rewrite Hds in Hmask. specialize (Hmask eq_refl ltac:(simpl; lia)).
  eexists _, Bands', h'. split.
  { unfold Load. rewrite Hfirst. unfold bind, GetBands. simpl. rewrite Hbs, Hfirst.
    fold (kept_NoDataValue FirstBand). unfold RasterCount. rewrite Nat2Z.id.
    unfold bind. rewrite Hloop. reflexivity. }
  simpl. split; [done |]. split; [repeat split |]. split; [reflexivity |].
  split; [done |]. split; [reflexivity | exact Hmask].
Qed.

(** X8. [Load] of an object without bands from an in-memory GDAL
    dataset with at least one band always returns: the header is the
    size, band count, geotransform and first band's type of the
    dataset, and band [i] holds the array of the dataset's band [i]. *)
Theorem Load_reads_header_and_bands (self : SpaDatasetRaster) (ds : gdal_Dataset)
    (FirstBand : gdal_Band) (rest : list gdal_Band) (h : heap) :
  TheBands self = None -> RasterBands ds = FirstBand :: rest ->
  Forall (fun band => rectangular (ReadAsArray band)) (RasterBands ds) ->
  exists d bs h',
    Load self (Some ds) h = Ok (d, h') /\ h `prefix_of` h' /\
    GetType d = Some (DataType FirstBand) /\
    GetWidthInPixels d = RasterXSize ds /\ GetHeightInPixels d = RasterYSize ds /\
    GetNumBands d = Z.of_nat (length bs) /\
    GetResolution d = (gt1 (GetGeoTransform ds), gt5 (GetGeoTransform ds)) /\
    XMin d = gt0 (GetGeoTransform ds) /\ YMax d = gt3 (GetGeoTransform ds) /\
    TheBands d = Some bs /\
    Forall2 (fun b band => read h' b = ReadAsArray band) bs (RasterBands ds).
Proof.
  intros Hbs Hds Hrect.
  destruct (Load_reads self ds FirstBand rest h Hbs Hds Hrect)
    as (d & bs & h' & Hrun & Hp & Hhead & Hbands & Hall & _).
  destruct Hhead as (_ & Hty & Hw & Hh & Hn & Hx & Hy & Hpw & Hph).
  exists d, bs, h'. split; [done |]. split; [done |]. split; [done |].
  split; [done |]. split; [done |]. split.
  { unfold GetNumBands. rewrite Hn. unfold RasterCount. f_equal.
    symmetry. by eapply Forall2_length. }
  split; [unfold GetResolution; by rewrite Hpw, Hph |].
  split; [done |]. split; [done |]. split; [done |].
  eapply Forall2_impl; [exact Hall |]. by intros b band (_ & Hr & _).
Qed.


(** What [loaded_float64] says of the raster: its header is that of the
    GDAL dataset, and its bands are allocated arrays that hold the grids
    of the dataset's bands. *)
Lemma loaded_float64_bands (ds : gdal_Dataset) (h0 : heap) (d : SpaDatasetRaster)
    (h : heap) :
  loaded_float64 ds h0 d h ->
  exists bs,
    h0 `prefix_of` h /\ TheBands d = Some bs /\ valid h d /\
    Forall2 (fun b band => wf h b /\ read h b = ReadAsArray band /\
                           nrows b = (grid_shape (ReadAsArray band)).1 /\
                           ncols b = (grid_shape (ReadAsArray band)).2)
      bs (RasterBands ds) /\
    GetType d = Some GDT_Float64 /\
    WidthInPixels d = RasterXSize ds /\ HeightInPixels d = RasterYSize ds /\
    NumBands d = RasterCount ds /\
    XMin d = gt0 (GetGeoTransform ds) /\ YMax d = gt3 (GetGeoTransform ds) /\
    PixelWidth d = gt1 (GetGeoTransform ds) /\
    PixelHeight d = gt5 (GetGeoTransform ds).
Proof.
  intros (Hne & Hall & self & Hbs & Hload).
  destruct (RasterBands ds) as [|FirstBand rest] eqn:Hds; [done |].
  assert (Hrect : Forall (fun band => rectangular (ReadAsArray band)) (RasterBands ds)).
  { rewrite Hds. eapply Forall_impl; [exact Hall |]. by intros band [_ ?]. }
  destruct (Load_reads self ds FirstBand rest h0 Hbs Hds Hrect)
    as (d' & bs & h' & Hrun & Hp & Hhead & Hbands & Hreads & _ & Hmask).
  rewrite Hrun in Hload. injection Hload as -> ->.
  destruct Hhead as (_ & Hty & Hw & Hh & Hn & Hx & Hy & Hpw & Hph).
  rewrite Hds in Hreads.
  exists bs. split; [done |]. split; [done |]. split.
  { unfold valid, arrays. rewrite Hbands. cbn [default]. apply Forall_app. split.
    - clear -Hreads. induction Hreads as [|b band bs' bands' Hb _ IH]; constructor;
        [apply Hb | exact IH].
    - unfold loaded_mask in Hmask. destruct (kept_NoDataValue FirstBand).
      + destruct Hmask as (m & -> & Hwf & _). apply Forall_singleton. apply Hwf.
      + rewrite Hmask. constructor. }
  split; [done |]. split.
  { unfold GetType. rewrite Hty. f_equal. by apply Forall_cons in Hall as [[? _] _]. }
  done.
Qed.

(** ** SetMask *)

Lemma Forall_wf_prefix (h h' : heap) (l : list ndarray) :
  h `prefix_of` h' -> Forall (wf h) l -> Forall (wf h') l.
Proof. intros Hp Hl. eapply Forall_impl; [exact Hl |]. intros a. by apply wf_prefix. Qed.

Lemma np_where_run (cond : ndarray) (x : Qc) (a : ndarray) (h : heap) :
  wf h cond -> wf h a -> same_shape a cond ->
  exists c h', np_where cond x a h = Ok (c, h') /\ h `prefix_of` h' /\ wf h' c /\
    same_shape a c /\ fresh_in h h' c /\
    read h' c = fill_where x (read h cond) (read h a).
Proof.
  intros Hc Ha [Hn Hm].
  assert (Hrun : exists c h', np_where cond x a h = Ok (c, h') /\ fresh_in h h' c).
  { unfold np_where. rewrite Hn, Hm, !broadcast_dim_same.
    eexists _, _. split; [reflexivity |]. unfold fresh_in. simpl.
    rewrite length_app. simpl. lia. }
  destruct Hrun as (c & h' & Hrun & Hfresh).
  destruct (np_where_wf _ _ _ _ _ _ Hc Ha Hn Hm Hrun) as (Hp & Hwf & Hn' & Hm' & Hr).
  exists c, h'. split; [done |]. split; [done |]. split; [done |].
  split; [by split |]. split; [done |]. exact Hr.
Qed.

Lemma mapM_np_where (cond : ndarray) (x : Qc) (bs : list ndarray) :
  forall h, wf h cond -> Forall (wf h) bs -> Forall (same_shape cond) bs ->
  exists bs' h', mapM (np_where cond x) bs h = Ok (bs', h') /\ h `prefix_of` h' /\
    Forall (fresh_in h h') bs' /\
    Forall2 (fun b b' => wf h' b' /\ same_shape b b' /\
                         read h' b' = fill_where x (read h cond) (read h b)) bs bs'.
Proof.
  induction bs as [|b bs IH]; intros h Hc Hwf Hshape.
  - exists [], h. split; [reflexivity |]. split; [done |]. split; constructor.
  - apply Forall_cons in Hwf as [Hb Hwf]. apply Forall_cons in Hshape as [Hsb Hshape].
    destruct (np_where_run cond x b h Hc Hb) as (c & h1 & Hrun1 & Hp1 & Hwf1 & Hs1 & Hf1 & Hr1).
    { destruct Hsb. split; congruence. }
    destruct (IH h1 (wf_prefix _ _ _ Hp1 Hc) (Forall_wf_prefix _ _ _ Hp1 Hwf) Hshape)
      as (bs' & h' & Hrun & Hp2 & Hfresh & Hall).
    pose proof (prefix_length_le _ _ Hp1). pose proof (prefix_length_le _ _ Hp2).
    exists (c :: bs'), h'. split.
    { simpl. unfold bind at 1. rewrite Hrun1. unfold bind at 1. by rewrite Hrun. }
    split; [by etrans |]. split.
    { constructor; [unfold fresh_in in *; lia |].
      apply (Forall_fresh_in_mono h h1 h' h'); [lia | lia | done]. }
    constructor.
    + split; [by apply (wf_prefix h1) |]. split; [done |].
      rewrite (read_prefix h1 h') by (done || apply Hwf1). exact Hr1.
    + eapply Forall2_impl_in; [exact Hall |]. intros a a' Ha (Hwa & Hsa & Hra).
      split; [done |]. split; [done |]. rewrite Hra.
      rewrite (read_prefix h h1 cond) by (done || apply Hc).
      rewrite (read_prefix h h1 a); [done | done |].
      eapply Forall_forall in Hwf; [| exact Ha]. apply Hwf.
Qed.

(** X10. [SetMask] with a [NewValue] writes [NewValue] into new band
    arrays where the mask that the raster had before the call is set,
    keeps the other pixels, drops the GDAL dataset, and installs the
    array it was given as the mask. *)
Theorem SetMask_fills_under_old_mask (d : SpaDatasetRaster) (NewMask : option ndarray)
    (NewValue : Qc) (bs : list ndarray) (m : ndarray) (h : heap) :
  TheBands d = Some bs -> TheMask d = Some m ->
  wf h m -> Forall (wf h) bs -> Forall (same_shape m) bs ->
  exists out bs' h',
    SetMask d NewMask (Some NewValue) h = Ok (out, h') /\ h `prefix_of` h' /\
    GetMask out = NewMask /\ GDALDataset out = None /\
    TheBands out = Some bs' /\ Forall (fresh_in h h') bs' /\
    Forall2 (fun b b' => read h' b' = fill_where NewValue (read h m) (read h b)) bs bs'.
Proof.
  intros Hbs Hm Hwfm Hwf Hshape.
  destruct (mapM_np_where m NewValue bs h Hwfm Hwf Hshape)
    as (bs' & h' & Hrun & Hp & Hfresh & Hall).
  eexists _, bs', h'. split.
  { unfold SetMask. unfold bind at 1. unfold bind at 1.
    rewrite (GetBands_loaded d bs h Hbs). cbn [fst snd]. rewrite Hm.
    unfold bind at 1.
    change (np_where_opt (Some m) NewValue) with (np_where m NewValue). rewrite Hrun. reflexivity. }
  split; [done |]. split; [reflexivity |]. split; [reflexivity |].
  split; [reflexivity |]. split; [done |].
  eapply Forall2_impl; [exact Hall |]. by intros b b' (_ & _ & Hr).
Qed.

(** ** The mask of Reclassify *)

Lemma masks_pixel_none (mode : string) (classes : list input_class)
    (outputs : list (option Qc)) (v : Qc) :
  forall Index, masks_any classes outputs Index = false ->
  masks_pixel mode classes outputs Index v = false.
Proof.
  induction classes as [|c rest IH]; intros Index Hany; simpl in *; [done |].
  destruct (outputs !! Index) as [[o|]|]; try done; by apply IH.
Qed.

Lemma zip_with_zip_with_r {A B C D} (f : A -> C -> D) (g : A -> B -> C)
    (l : list A) (k : list B) :
  zip_with f l (zip_with g l k) = zip_with (fun x y => f x (g x y)) l k.
Proof.
  revert k. induction l as [|x l IH]; intros [|y k]; simpl; [done.. |].
  by rewrite IH.
Qed.

Lemma grid_zip_zip_r (f g : Qc -> Qc -> Qc) (G K : grid) :
  zip_with (zip_with f) G (zip_with (zip_with g) G K)
  = zip_with (zip_with (fun x y => f x (g x y))) G K.
Proof.
  rewrite zip_with_zip_with_r. apply zip_with_ext; [| done..].
  intros r s. apply zip_with_zip_with_r.
Qed.

Lemma grid_zip_map_l (f : Qc -> Qc -> Qc) (p : Qc -> Qc) (G K : grid) :
  zip_with (zip_with f) (grid_map p G) K = zip_with (zip_with (fun x y => f (p x) y)) G K.
Proof.
  unfold grid_map. rewrite zip_with_fmap_l. apply zip_with_ext; [| done..].
  intros r s. apply zip_with_fmap_l.
Qed.

Lemma grid_zip_map_r (f : Qc -> Qc -> Qc) (p : Qc -> Qc) (G : grid) :
  zip_with (zip_with f) G (grid_map p G) = grid_map (fun x => f x (p x)) G.
Proof.
  rewrite <- (grid_map_id G) at 1. apply zip_grid_map.
Qed.

Lemma grid_zip_ext (f g : Qc -> Qc -> Qc) (G K : grid) :
  (forall x y, f x y = g x y) ->
  zip_with (zip_with f) G K = zip_with (zip_with g) G K.
Proof.
  intros Hfg. apply zip_with_ext; [| done..]. intros r s.
  by apply zip_with_ext.
Qed.

Lemma Reclassify_mask_Some (mode : string) (TheBand : ndarray)
    (InputClasses : list input_class) (OutputClasses : list (option Qc)) :
  forall Index m h r h',
  wf h TheBand -> wf h m -> same_shape TheBand m ->
  Reclassify_mask mode TheBand InputClasses OutputClasses Index (Some m) h = Ok (r, h') ->
  h `prefix_of` h' /\
  exists m', r = Some m' /\ wf h' m' /\ same_shape TheBand m' /\
    (masks_any InputClasses OutputClasses Index = false -> m' = m) /\
    (masks_any InputClasses OutputClasses Index = true ->
       fresh_in h h' m' /\
       read h' m' = or_mask mode InputClasses OutputClasses Index
                      (read h TheBand) (read h m)).
Proof.
  induction InputClasses as [|c rest IH]; intros Index m h r h' Hwb Hwm Hs Hrun;
    simpl in Hrun.
  - apply ret_Ok in Hrun as [<- ->]. split; [done |]. exists m.
    split; [done |]. split; [done |]. split; [done |]. by split.
  - destruct (OutputClasses !! Index) as [OutputValue|] eqn:Hout; [| inv_M].
    apply bind_Ok in Hrun as (Mask1 & h1 & Hstep & Hrun). simpl. rewrite Hout.
    destruct OutputValue as [o|].
    + apply ret_Ok in Hstep as [<- ->].
      destruct (IH (S Index) m h r h' Hwb Hwm Hs Hrun)
        as (Hp & m' & -> & Hwf' & Hs' & Hsame & Hnew).
      split; [done |]. exists m'. split; [done |]. split; [done |].
      split; [done |]. split; [done |]. intros Hany.
      destruct (Hnew Hany) as [Hf Hr]. split; [done |]. rewrite Hr.
      unfold or_mask. apply grid_zip_ext. intros x y. simpl. by rewrite Hout.
    + apply bind_Ok in Hstep as (B & h2 & HB & Hstep).
      apply bind_Ok in Hstep as (m1 & h3 & Hor & Hstep).
      apply ret_Ok in Hstep as [<- ->].
      destruct (class_BooleanArray_wf _ _ _ _ _ _ Hwb HB) as (Hp1 & HwfB & HnB & HmB & HrB).
      destruct Hs as [Hsn Hsm].
      destruct (np_binary_wf _ _ _ _ _ _ HwfB (wf_prefix _ _ _ Hp1 Hwm)
                  ltac:(congruence) ltac:(congruence) Hor)
        as (Hp2 & Hwf1 & Hn1 & Hm1 & Hr1).
      assert (Hp : h `prefix_of` h3) by (by etrans).
      assert (Hfresh1 : fresh_in h h3 m1).
      { destruct (np_binary_produces any_pixel _ B (Arr m) (fun _ _ => I) _ _ _ Hor)
          as (_ & Hb & _).
        pose proof (prefix_length_le _ _ Hp1). unfold fresh_in. lia. }
      assert (Hread1 : read h3 m1 = zip_with (zip_with (fun v o =>
                of_bool (class_matches mode c v || truthy o))) (read h TheBand) (read h m)).
      { rewrite Hr1, HrB, (read_prefix h h2 m Hp1) by apply Hwm.
        rewrite grid_zip_map_l. apply grid_zip_ext. intros x y.
        by rewrite truthy_of_bool. }
      destruct (IH (S Index) m1 h3 r h' (wf_prefix _ _ _ Hp Hwb) Hwf1
                  ltac:(split; congruence) Hrun)
        as (Hp3 & m' & -> & Hwf' & Hs' & Hsame & Hnew).
      split; [by etrans |]. exists m'. split; [done |]. split; [done |].
      split; [done |]. split; [done |]. intros _.
      destruct (masks_any rest OutputClasses (S Index)) eqn:Hany.
      * destruct (Hnew eq_refl) as [Hf Hr]. split.
        { pose proof (prefix_length_le _ _ Hp). unfold fresh_in in *. lia. }
        rewrite Hr, Hread1, (read_prefix h h3 TheBand Hp) by apply Hwb.
        unfold or_mask. rewrite grid_zip_zip_r. apply grid_zip_ext. intros x y.
        simpl. rewrite Hout, truthy_of_bool. f_equal.
        destruct (class_matches mode c x), (masks_pixel mode rest OutputClasses (S Index) x),
          (truthy y); reflexivity.
      * rewrite (Hsame eq_refl). split.
        { pose proof (prefix_length_le _ _ Hp3). unfold fresh_in in *. lia. }
        rewrite (read_prefix h3 h' m1 Hp3) by apply Hwf1. rewrite Hread1.
        unfold or_mask. apply grid_zip_ext. intros x y. simpl. rewrite Hout.
        by rewrite (masks_pixel_none _ _ _ _ _ Hany), orb_false_r.
Qed.

Lemma Reclassify_mask_None (mode : string) (TheBand : ndarray)
    (InputClasses : list input_class) (OutputClasses : list (option Qc)) :
  forall Index h r h',
  wf h TheBand ->
  Reclassify_mask mode TheBand InputClasses OutputClasses Index None h = Ok (r, h') ->
  h `prefix_of` h' /\
  (masks_any InputClasses OutputClasses Index = false -> r = None) /\
  (masks_any InputClasses OutputClasses Index = true ->
     exists m', r = Some m' /\ wf h' m' /\ same_shape TheBand m' /\ fresh_in h h' m' /\
       read h' m' = grid_map (fun v => of_bool (masks_pixel mode InputClasses
                                                  OutputClasses Index v))
                      (read h TheBand)).
Proof.
  induction InputClasses as [|c rest IH]; intros Index h r h' Hwb Hrun; simpl in Hrun.
  - apply ret_Ok in Hrun as [<- ->]. by repeat split.
  - destruct (OutputClasses !! Index) as [OutputValue|] eqn:Hout; [| inv_M].
    apply bind_Ok in Hrun as (Mask1 & h1 & Hstep & Hrun). simpl. rewrite Hout.
    destruct OutputValue as [o|].
    + apply ret_Ok in Hstep as [<- ->].
      destruct (IH (S Index) h r h' Hwb Hrun) as (Hp & Hnone & Hnew).
      split; [done |]. split; [done |]. intros Hany.
      destruct (Hnew Hany) as (m' & -> & Hwf' & Hs' & Hf & Hr).
      exists m'. split; [done |]. split; [done |]. split; [done |]. split; [done |].
      rewrite Hr. apply grid_map_ext. intros v. simpl. by rewrite ?Hout.
    + apply bind_Ok in Hstep as (B & h2 & HB & Hstep).
      apply ret_Ok in Hstep as [<- ->].
      destruct (class_BooleanArray_wf _ _ _ _ _ _ Hwb HB) as (Hp1 & HwfB & HnB & HmB & HrB).
      destruct (class_BooleanArray_produces _ _ _ _ _ _ HB) as (_ & HfB & _).
      destruct (Reclassify_mask_Some mode TheBand rest OutputClasses (S Index) B h2 r h'
                  (wf_prefix _ _ _ Hp1 Hwb) HwfB ltac:(by split) Hrun)
        as (Hp2 & m' & -> & Hwf' & Hs' & Hsame & Hnew).
      split; [by etrans |]. split; [done |]. intros _.
      exists m'. split; [done |]. split; [done |]. split; [done |].
      pose proof (prefix_length_le _ _ Hp1). pose proof (prefix_length_le _ _ Hp2).
      destruct (masks_any rest OutputClasses (S Index)) eqn:Hany.
      * destruct (Hnew eq_refl) as [Hf Hr]. split; [unfold fresh_in in *; lia |].
        rewrite Hr. unfold or_mask.
        rewrite HrB, (read_prefix h h2 TheBand Hp1) by apply Hwb.
        rewrite grid_zip_map_r. apply grid_map_ext. intros v. simpl.
        rewrite ?Hout, truthy_of_bool. f_equal. apply orb_comm.
      * rewrite (Hsame eq_refl). split; [unfold fresh_in; lia |].
        rewrite (read_prefix h2 h' B Hp2) by apply HwfB. rewrite HrB.
        apply grid_map_ext. intros v. simpl. rewrite ?Hout.
        by rewrite (masks_pixel_none _ _ _ _ _ Hany), orb_false_r.
Qed.

(** [Clone] keeps the header. *)
Lemma Clone_header (d d' : SpaDatasetRaster) (h h' : heap) :
  Clone d h = Ok (d', h') ->
  NoDataValue d' = NoDataValue d /\ GDALDataType d' = GDALDataType d /\
  WidthInPixels d' = WidthInPixels d /\ HeightInPixels d' = HeightInPixels d /\
  NumBands d' = NumBands d /\ XMin d' = XMin d /\ YMax d' = YMax d /\
  PixelWidth d' = PixelWidth d /\ PixelHeight d' = PixelHeight d /\
  GDALDataset d' = None /\ FilePath d' = None.
Proof.
  unfold Clone. intros Hrun. destruct (TheBands d) as [bs|]; [| inv_M].
  apply bind_Ok in Hrun as (nb & h1 & _ & Hrun).
  assert (Hd : exists m, d' = set_TheMask m (set_TheBands (Some nb)
                                (CopyPropertiesButNotData SpaDatasetRaster_init d))).
  { destruct (NoDataValue d), (TheMask d); inv_M; by eexists. }
  destruct Hd as [m ->]. simpl. by repeat split.
Qed.

(** What the runs of [Reclassify] that return have done, step by step. *)
Lemma Reclassify_Ok (self : SpaDatasetRaster) (InputClasses : list input_class)
    (OutputClasses : list (option Qc)) (mode : string) (bs : list ndarray) (h : heap)
    (out : SpaDatasetRaster) (h' : heap) :
  TheBands self = Some bs -> valid h self -> Forall (wf h) bs ->
  Reclassify self InputClasses OutputClasses mode h = Ok (out, h') ->
  exists TheBand NewDataset h1 Mask h2,
    bs !! 0%nat = Some TheBand /\
    Clone self h = Ok (NewDataset, h1) /\ h `prefix_of` h1 /\
    Reclassify_mask mode TheBand InputClasses OutputClasses 0 (TheMask self) h1
      = Ok (Mask, h2) /\
    h2 `prefix_of` h' /\ TheMask out = Mask /\
    NoDataValue out = NoDataValue self.
Proof.
  intros Hbs Hvalid Hwf Hrun. unfold Reclassify in Hrun.
  apply bind_Ok in Hrun as (NewDataset & h1 & Hclone & Hrun).
  destruct (Clone_Ok _ _ _ _ Hvalid Hclone) as (Hp1 & _ & _).
  rewrite Hbs in Hrun. destruct (bs !! 0%nat) as [TheBand|]; [| inv_M].
  apply bind_Ok in Hrun as (Mask & h2 & Hmask & Hrun).
  apply Reclassify_mask_prefix in Hmask as Hp2.
  apply bind_Ok in Hrun as (NewBands & h3 & Hbands & Hrun).
  unfold SetMask, bind, ret in Hrun. inversion Hrun; subst out h'; clear Hrun.
  assert (Hwf2 : Forall (wf h2) bs).
  { eapply Forall_impl; [exact Hwf |]. intros a. apply wf_prefix. by etrans. }
  destruct (mapM_Reclassify_band _ _ _ _ _ _ _ Hwf2 Hbands) as (Hp3 & _).
  exists TheBand, NewDataset, h1, Mask, h2.
  split; [done |]. split; [done |]. split; [done |]. split; [done |].
  split; [done |]. split; [reflexivity |]. simpl.
  by destruct (Clone_header _ _ _ _ Hclone) as [-> _].
Qed.

(** X11. When no class has [None] as its output value, the raster that
    [Reclassify] returns has the mask of the input, the very array: a
    masked input and its reclassified raster share storage. *)
Theorem Reclassify_without_None_shares_mask (self : SpaDatasetRaster)
    (InputClasses : list input_class) (OutputClasses : list (option Qc))
    (mode : string) (bs : list ndarray) (h : heap)
    (out : SpaDatasetRaster) (h' : heap) :
  TheBands self = Some bs -> valid h self -> Forall (wf h) bs ->
  (forall m, TheMask self = Some m -> wf h m /\ Forall (fun b => same_shape b m) bs) ->
  masks_any InputClasses OutputClasses 0 = false ->
  Reclassify self InputClasses OutputClasses mode h = Ok (out, h') ->
  GetMask out = GetMask self /\ NoDataValue out = NoDataValue self /\
  (is_Some (GetMask self) -> shares_storage out self).
Proof.
  intros Hbs Hvalid Hwf Hmask Hany Hrun.
  destruct (Reclassify_Ok _ _ _ _ _ _ _ _ Hbs Hvalid Hwf Hrun)
    as (TheBand & ND & h1 & Mask & h2 & Hb0 & _ & Hp1 & Hloop & _ & Hout & Hnd).
  assert (Hwb : wf h1 TheBand).
  { apply (wf_prefix h); [done |]. eapply Forall_forall in Hwf; [exact Hwf |].
    by apply list_elem_of_lookup_2 in Hb0. }
  assert (Hsame : Mask = TheMask self).
  { destruct (TheMask self) as [m|] eqn:Hm.
    - destruct (Hmask m eq_refl) as [Hwm Hshape].
      destruct (Reclassify_mask_Some _ _ _ _ _ _ _ _ _ Hwb (wf_prefix _ _ _ Hp1 Hwm)
                  ltac:(eapply Forall_forall in Hshape; [exact Hshape |];
                        by apply list_elem_of_lookup_2 in Hb0) Hloop)
        as (_ & m' & -> & _ & _ & Heq & _).
      by rewrite (Heq Hany).
    - destruct (Reclassify_mask_None _ _ _ _ _ _ _ _ Hwb Hloop) as (_ & Hnone & _).
      by apply Hnone. }
  unfold GetMask. rewrite Hout, Hsame. split; [done |]. split; [done |].
  intros [m Hm]. exists m, m. unfold arrays. rewrite Hout, Hsame, Hm.
  split; [| split; [| done]]; apply elem_of_app; right; simpl; apply list_elem_of_here.
Qed.

(** X12. When some class has [None] as its output value, [Reclassify]
    returns a raster with a new mask, computed from the first band
    only: a pixel is masked when one of the classes with output [None]
    matches the first band's pixel, or when the input's mask, if any,
    is set there. *)
Theorem Reclassify_masks_None_classes (self : SpaDatasetRaster)
    (InputClasses : list input_class) (OutputClasses : list (option Qc))
    (mode : string) (TheBand : ndarray) (rest : list ndarray) (h : heap)
    (out : SpaDatasetRaster) (h' : heap) :
  TheBands self = Some (TheBand :: rest) -> valid h self ->
  Forall (wf h) (TheBand :: rest) ->
  (forall m, TheMask self = Some m -> wf h m /\ same_shape TheBand m) ->
  masks_any InputClasses OutputClasses 0 = true ->
  Reclassify self InputClasses OutputClasses mode h = Ok (out, h') ->
  exists m', GetMask out = Some m' /\ fresh_in h h' m' /\
    read h' m' =
      match GetMask self with
      | Some m => or_mask mode InputClasses OutputClasses 0 (read h TheBand) (read h m)
      | None => grid_map (fun v => of_bool (masks_pixel mode InputClasses OutputClasses 0 v))
                  (read h TheBand)
      end.
Proof.
  intros Hbs Hvalid Hwf Hmask Hany Hrun.
  destruct (Reclassify_Ok _ _ _ _ _ _ _ _ Hbs Hvalid Hwf Hrun)
    as (b0 & ND & h1 & Mask & h2 & Hb0 & _ & Hp1 & Hloop & Hp2 & Hout & _).
  injection Hb0 as <-.
  apply Forall_cons in Hwf as [Hwb0 _].
  pose proof (wf_prefix _ _ _ Hp1 Hwb0) as Hwb.
  pose proof (prefix_length_le _ _ Hp1). pose proof (prefix_length_le _ _ Hp2).
  unfold GetMask. rewrite Hout.
  destruct (TheMask self) as [m|] eqn:Hm.
  - destruct (Hmask m eq_refl) as [Hwm Hshape].
    destruct (Reclassify_mask_Some _ _ _ _ _ _ _ _ _ Hwb (wf_prefix _ _ _ Hp1 Hwm)
                Hshape Hloop)
      as (_ & m' & -> & Hwf' & _ & _ & Hnew).
    destruct (Hnew Hany) as [Hf Hr]. exists m'. split; [done |].
    split; [unfold fresh_in in *; lia |].
    rewrite (read_prefix h2 h' m' Hp2) by apply Hwf'. rewrite Hr.
    rewrite (read_prefix h h1 TheBand Hp1) by apply Hwb0.
    by rewrite (read_prefix h h1 m Hp1) by apply Hwm.
  - destruct (Reclassify_mask_None _ _ _ _ _ _ _ _ Hwb Hloop) as (_ & _ & Hnew).
    destruct (Hnew Hany) as (m' & -> & Hwf' & _ & Hf & Hr). exists m'.
    split; [done |]. split; [unfold fresh_in in *; lia |].
    rewrite (read_prefix h2 h' m' Hp2) by apply Hwf'. rewrite Hr.
    by rewrite (read_prefix h h1 TheBand Hp1) by apply Hwb0.
Qed.

(** ** The pixels of Math *)

Lemma grid_map_zip (p : Qc -> Qc) (f : Qc -> Qc -> Qc) (G K : grid) :
  grid_map p (zip_with (zip_with f) G K) = zip_with (zip_with (fun x y => p (f x y))) G K.
Proof.
  unfold grid_map. revert K. induction G as [|r G IH]; intros [|s K]; simpl; [done.. |].
  rewrite IH. f_equal. revert s. induction r as [|x r IHr]; intros [|y s]; simpl; [done.. |].
  by rewrite IHr.
Qed.

Section MathPixels.
Context `{Collaborators}.

(** One turn of a band loop of [Math] whose operation returned the
    array [b]: [b], converted if the result counts as Boolean, is
    appended. *)
Lemma Math_step_appends (Operation : Z) (m : M ndarray) (NewBands : list ndarray)
    (NewDataset : SpaDatasetRaster) (h : heap) (b : ndarray) (h1 : heap) :
  m h = Ok (b, h1) -> h `prefix_of` h1 -> wf h1 b -> fresh_in h h1 b ->
  exists b' h',
    Math_step Operation (Some m) (length NewBands) NewBands NewDataset h
      = Ok ((NewBands ++ [b'],
             if Math_boolean_result Operation
             then set_GDALDataType (Some GDT_Byte) NewDataset else NewDataset), h') /\
    h `prefix_of` h' /\ wf h' b' /\ same_shape b b' /\ fresh_in h h' b' /\
    read h' b' = grid_map (Math_result_pixel Operation) (read h1 b).
Proof.
  intros Hm Hp Hwf Hfresh. unfold Math_step, Math_result_pixel.
  unfold bind at 1. unfold bind at 1. rewrite Hm. cbn [ret].
  destruct (Math_boolean_result Operation).
  - rewrite lookup_app_r, Nat.sub_diag by lia. cbn [lookup list_lookup].
    destruct (astype_int b h1) as [[b' h']|] eqn:Hint; [| discriminate Hint].
    destruct (np_map_wf _ _ _ _ _ Hwf Hint) as (Hp2 & Hwf2 & Hn & Hk & Hr).
    destruct (np_map_produces any_pixel _ _ (fun _ => I) _ _ _ Hint) as (_ & Hb & _).
    exists b', h'. unfold bind. rewrite Hint. split.
    { unfold ret. do 3 f_equal.
      rewrite insert_app_r_alt, Nat.sub_diag by lia. reflexivity. }
    pose proof (prefix_length_le _ _ Hp).
    split; [by etrans |]. split; [done |]. split; [by split |].
    split; [unfold fresh_in in *; lia |]. exact Hr.
  - exists b, h1. split; [reflexivity |]. split; [done |]. split; [done |].
    split; [by split |]. split; [done |]. by rewrite grid_map_id.
Qed.

Lemma np_map_run (f : Qc -> Qc) (a : ndarray) (h : heap) :
  wf h a ->
  exists b h1, np_map f a h = Ok (b, h1) /\ h `prefix_of` h1 /\ wf h1 b /\
    same_shape a b /\ fresh_in h h1 b /\ read h1 b = grid_map f (read h a).
Proof.
  intros Hwf.
  destruct (np_map f a h) as [[b h1]|] eqn:Hrun; [| discriminate Hrun].
  destruct (np_map_wf _ _ _ _ _ Hwf Hrun) as (Hp & Hwf1 & Hn & Hk & Hr).
  destruct (np_map_produces any_pixel f a (fun _ => I) _ _ _ Hrun) as (_ & Hb & _).
  exists b, h1. split; [done |]. split; [done |]. split; [done |].
  split; [by split |]. split; [exact Hb | exact Hr].
Qed.

Lemma np_binary_run (f : Qc -> Qc -> Qc) (a b : ndarray) (h : heap) :
  wf h a -> wf h b -> same_shape a b ->
  exists c h1, np_binary f a (Arr b) h = Ok (c, h1) /\ h `prefix_of` h1 /\ wf h1 c /\
    same_shape a c /\ fresh_in h h1 c /\
    read h1 c = zip_with (zip_with f) (read h a) (read h b).
Proof.
  intros Ha Hb [Hn Hk].
  assert (Hrun : exists c h1, np_binary f a (Arr b) h = Ok (c, h1)).
  { unfold np_binary. rewrite Hn, Hk, !broadcast_dim_same. by eexists _, _. }
  destruct Hrun as (c & h1 & Hrun).
  destruct (np_binary_wf _ _ _ _ _ _ Ha Hb Hn Hk Hrun) as (Hp & Hwf1 & Hn1 & Hk1 & Hr).
  destruct (np_binary_produces any_pixel f a (Arr b) (fun _ _ => I) _ _ _ Hrun)
    as (_ & Hfr & _).
  exists c, h1. split; [done |]. split; [done |]. split; [done |].
  split; [by split |]. split; [exact Hfr | exact Hr].
Qed.

(** The scalar loop, for an operation of the chain that maps [f] over
    the band. *)
Lemma Math_scalar_loop_pixels (Operation : Z) (x : Qc) (f : Qc -> Qc) :
  (forall b, Math_scalar_op Operation b x = Some (np_map f b)) ->
  forall bands NewBands NewDataset h,
  Forall (wf h) bands ->
  exists Out h',
    Math_scalar_loop Operation x bands (length NewBands) NewBands NewDataset h
      = Ok ((NewBands ++ Out,
             match bands with
             | [] => NewDataset
             | _ => if Math_boolean_result Operation
                    then set_GDALDataType (Some GDT_Byte) NewDataset else NewDataset
             end), h') /\
    h `prefix_of` h' /\ Forall (fresh_in h h') Out /\
    Forall2 (fun b b' => wf h' b' /\ same_shape b b' /\
      read h' b' = grid_map (fun v => Math_result_pixel Operation (f v)) (read h b))
      bands Out.
Proof.
  intros Hop. induction bands as [|b bands IH]; intros NewBands NewDataset h Hwf.
  - exists [], h. simpl. rewrite app_nil_r. split; [reflexivity |].
    split; [done |]. split; constructor.
  - apply Forall_cons in Hwf as [Hb Hwf].
    destruct (np_map_run f b h Hb) as (c & h1 & Hrun1 & Hp1 & Hwf1 & Hs1 & Hf1 & Hr1).
    destruct (Math_step_appends Operation (np_map f b) NewBands NewDataset h c h1
                Hrun1 Hp1 Hwf1 Hf1)
      as (b' & h2 & Hstep & Hp2 & Hwf2 & Hs2 & Hf2 & Hr2).
    destruct (IH (NewBands ++ [b'])
                (if Math_boolean_result Operation
                 then set_GDALDataType (Some GDT_Byte) NewDataset else NewDataset)
                h2 (Forall_wf_prefix _ _ _ Hp2 Hwf))
      as (Out & h' & Hloop & Hp3 & Hfresh & Hall).
    exists (b' :: Out), h'. split.
    { simpl. rewrite Hop. unfold bind. rewrite Hstep. cbn [fst snd].
      rewrite length_app in Hloop. simpl in Hloop.
      replace (S (length NewBands)) with (length NewBands + 1)%nat by lia.
      rewrite Hloop. rewrite <- (assoc_L (++)). simpl. do 3 f_equal.
      destruct bands; [reflexivity |]. by destruct (Math_boolean_result Operation). }
    pose proof (prefix_length_le _ _ Hp2). pose proof (prefix_length_le _ _ Hp3).
    split; [by etrans |]. split.
    { constructor; [unfold fresh_in in *; lia |].
      apply (Forall_fresh_in_mono h h2 h' h'); [lia | lia | done]. }
    constructor.
    + split; [by apply (wf_prefix h2) |]. split.
      { destruct Hs1, Hs2. split; congruence. }
      rewrite (read_prefix h2 h') by (done || apply Hwf2).
      by rewrite Hr2, Hr1, grid_map_compose.
    + eapply Forall2_impl_in; [exact Hall |]. intros a a' Ha (Hwa & Hsa & Hra).
      split; [done |]. split; [done |]. rewrite Hra. f_equal.
      apply read_prefix; [done |]. eapply Forall_forall in Hwf; [| exact Ha]. apply Hwf.
Qed.

End MathPixels.

Lemma Forall2_via {A B C} (P : A -> B -> Prop) (Q : A -> C -> Prop) (T : B -> C -> Prop)
    (l : list A) (k : list B) (m : list C) :
  (forall a b c, P a b -> Q a c -> T b c) ->
  Forall2 P l k -> Forall2 Q l m -> Forall2 T k m.
Proof.
  intros HT HP. revert m. induction HP as [|a b l k Hab _ IH]; intros m HQ.
  - apply Forall2_nil_inv_l in HQ as ->. constructor.
  - apply Forall2_cons_inv_l in HQ as (c & m' & Hac & HQ & ->).
    constructor; [by eapply HT | by apply IH].
Qed.

Lemma py_int_of_bool (b : bool) : Qc_of_Z (py_int (of_bool b)) = of_bool b.
Proof. destruct b; by apply Qc_is_canon. Qed.

Section MathTables.
Context `{Collaborators}.

Lemma scalar_pixel_functions_chain (Operation : Z) (g : Qc -> Qc -> Qc) :
  (Operation, g) ∈ scalar_pixel_functions ->
  exists f, (forall b x, Math_scalar_op Operation b x = Some (np_map (fun v => f v x) b)) /\
    forall v x, Math_result_pixel Operation (f v x) = g v x.
Proof.
  unfold scalar_pixel_functions. intros Hin.
  repeat (apply elem_of_cons in Hin as [Hin | Hin];
          [injection Hin as -> ->; eexists; split;
           [intros b x; reflexivity
           | intros v x; unfold Math_result_pixel; cbn [Math_boolean_result];
             first [reflexivity | apply py_int_of_bool]] |]).
  by apply elem_of_nil in Hin.
Qed.

Lemma Clone_bounds (d d' : SpaDatasetRaster) (h h' : heap) :
  Clone d h = Ok (d', h') ->
  GetBounds d' = GetBounds d /\ GetResolution d' = GetResolution d /\
  GetType d' = GetType d /\ GetNumBands d' = GetNumBands d.
Proof.
  intros Hrun.
  destruct (Clone_header _ _ _ _ Hrun)
    as (_ & Hty & Hw & Hh & Hn & Hx & Hy & Hpw & Hph & _).
  unfold GetBounds, GetResolution, GetType, GetNumBands. cbn [fst snd].
  by rewrite Hty, Hw, Hh, Hn, Hx, Hy, Hpw, Hph.
Qed.

(** The scalar branch of [Math], for an operation that maps [f] over
    each band. *)
Lemma Math_scalar_pixels (self : SpaDatasetRaster) (Operation : Z) (x : Qc)
    (f : Qc -> Qc) (bs : list ndarray) (h : heap) :
  (forall b, Math_scalar_op Operation b x = Some (np_map f b)) ->
  TheBands self = Some bs -> valid h self -> Forall (wf h) bs ->
  exists out bs' h',
    Math self Operation (InputNumber x) h = Ok (out, h') /\ h `prefix_of` h' /\
    TheBands out = Some bs' /\ Forall (fresh_in h h') bs' /\
    Forall2 (fun b b' => same_shape b b' /\
      read h' b' = grid_map (fun v => Math_result_pixel Operation (f v)) (read h b))
      bs bs' /\
    GetType out = match bs with
                  | [] => GetType self
                  | _ => Math_result_type Operation (GetType self)
                  end /\
    GetBounds out = GetBounds self /\ GetResolution out = GetResolution self.
Proof.
  intros Hop Hbs Hvalid Hwf.
  destruct (Clone_spec self bs h Hbs Hvalid)
    as (ND & cb & h1 & Hclone & Hp1 & _ & _ & _).
  destruct (Clone_bounds _ _ _ _ Hclone) as (Hbounds & Hres & Hty & _).
  destruct (Math_scalar_loop_pixels Operation x f Hop bs [] ND h1
              (Forall_wf_prefix _ _ _ Hp1 Hwf))
    as (Out & h' & Hloop & Hp2 & Hfresh & Hall).
  pose proof (prefix_length_le _ _ Hp1). pose proof (prefix_length_le _ _ Hp2).
  eexists _, Out, h'. split.
  { unfold Math. unfold bind at 1. rewrite Hclone, Hbs.
    unfold bind. simpl in Hloop. rewrite Hloop. reflexivity. }
  split; [by etrans |]. split; [reflexivity |]. split.
  { apply (Forall_fresh_in_mono h h1 h' h'); [lia | lia | done]. }
  split.
  { eapply Forall2_impl_in; [exact Hall |]. intros a a' Ha (_ & Hsa & Hra).
    split; [done |]. rewrite Hra. f_equal. apply read_prefix; [done |].
    eapply Forall_forall in Hwf; [| exact Ha]. apply Hwf. }
  split.
  { unfold Math_result_type. rewrite <- Hty. destruct bs; [reflexivity |].
    by destruct (Math_boolean_result Operation). }
  cbn [fst snd]. rewrite <- Hbounds, <- Hres.
  destruct bs; [done |]. by destruct (Math_boolean_result Operation).
Qed.

(** The scalar branch of [Math] on a raster read from 64-bit float
    bands. *)
Lemma Math_scalar_loaded (ds : gdal_Dataset) (h0 : heap) (self : SpaDatasetRaster)
    (h : heap) (Operation : Z) (g : Qc -> Qc -> Qc) (x : Qc) :
  loaded_float64 ds h0 self h -> (Operation, g) ∈ scalar_pixel_functions ->
  exists out bs' h',
    Math self Operation (InputNumber x) h = Ok (out, h') /\ h `prefix_of` h' /\
    TheBands out = Some bs' /\
    Forall2 (fun band b' => read h' b' = grid_map (fun v => g v x) (ReadAsArray band))
      (RasterBands ds) bs' /\
    GetType out = Math_result_type Operation (Some GDT_Float64) /\
    GetBounds out = GetBounds self /\ GetResolution out = GetResolution self.
Proof.
  intros Hloaded Hin.
  pose proof Hloaded as (Hne & _).
  destruct (loaded_float64_bands _ _ _ _ Hloaded)
    as (bs & _ & Hbs & Hvalid & Hreads & Hty & _).
  destruct (scalar_pixel_functions_chain _ _ Hin) as (f & Hchain & Hpix).
  assert (Hwf : Forall (wf h) bs).
  { clear -Hreads. induction Hreads as [|b band bs' bands' Hb _ IH]; constructor;
      [apply Hb | exact IH]. }
  destruct (Math_scalar_pixels self Operation x (fun v => f v x) bs h
              (fun b => Hchain b x) Hbs Hvalid Hwf)
    as (out & bs' & h' & Hrun & Hp & Hout & _ & Hall & Htype & Hbounds & Hres).
  exists out, bs', h'. split; [done |]. split; [done |]. split; [done |]. split.
  { eapply Forall2_via; [| exact Hreads | exact Hall].
    intros b band b' (_ & Hr & _) (_ & Hr'). rewrite Hr', Hr.
    apply grid_map_ext. intros v. apply Hpix. }
  split; [| by split].
  rewrite Htype, Hty. destruct bs; [| reflexivity].
  apply Forall2_nil_inv_l in Hreads. by destruct Hne.
Qed.

(** X13. For a raster read from 64-bit float bands and each operation
    of [scalar_pixel_functions], [Math] with a number always returns,
    and every band of the result is the pixel function of the operation
    applied to each pixel of the corresponding band and the number; the
    store only grows, the type is [GDT_Byte] after an operation whose
    result counts as Boolean and is kept otherwise, and bounds and
    resolution are kept. *)
Theorem Math_scalar_is_pixelwise (ds : gdal_Dataset) (h0 : heap)
    (self : SpaDatasetRaster) (h : heap) (Operation : Z) (g : Qc -> Qc -> Qc) (x : Qc) :
  loaded_float64 ds h0 self h -> (Operation, g) ∈ scalar_pixel_functions ->
  exists out bs' h',
    Math self Operation (InputNumber x) h = Ok (out, h') /\ h `prefix_of` h' /\
    TheBands out = Some bs' /\
    Forall2 (fun band b' => read h' b' = grid_map (fun v => g v x) (ReadAsArray band))
      (RasterBands ds) bs' /\
    GetType out = Math_result_type Operation (Some GDT_Float64) /\
    GetBounds out = GetBounds self /\ GetResolution out = GetResolution self.
Proof. apply Math_scalar_loaded. Qed.

Lemma drop_cons_lookup {A} (k : nat) (l : list A) (x : A) (l' : list A) :
  drop k l = x :: l' -> l !! k = Some x /\ drop (S k) l = l'.
Proof.
  intros Hd. assert (Hx : l !! k = Some x).
  { rewrite <- (Nat.add_0_r k), <- lookup_drop, Hd. reflexivity. }
  split; [done |]. rewrite (drop_S _ _ _ Hx) in Hd. by injection Hd.
Qed.

(** The raster loop, for an operation of the chain that combines the
    bands pixel by pixel with [f]. *)
Lemma Math_raster_loop_pixels (Operation : Z) (f : Qc -> Qc -> Qc)
    (Input2 : SpaDatasetRaster) (bs2 : list ndarray) :
  (forall b b2, Math_raster_op Operation b b2 = Some (np_binary f b (Arr b2))) ->
  TheBands Input2 = Some bs2 ->
  forall bands bands2 NewBands NewDataset h,
  drop (length NewBands) bs2 = bands2 ->
  Forall (wf h) bands ->
  Forall2 (fun b b2 => wf h b2 /\ same_shape b b2) bands bands2 ->
  exists Out h',
    Math_raster_loop Operation Input2 bands (length NewBands) NewBands NewDataset h
      = Ok ((NewBands ++ Out,
             match bands with
             | [] => NewDataset
             | _ => if Math_boolean_result Operation
                    then set_GDALDataType (Some GDT_Byte) NewDataset else NewDataset
             end), h') /\
    h `prefix_of` h' /\ Forall (fresh_in h h') Out /\
    Forall2 (fun bb b' => wf h' b' /\ same_shape bb.1 b' /\
      read h' b' = zip_with (zip_with (fun v w => Math_result_pixel Operation (f v w)))
                     (read h bb.1) (read h bb.2))
      (zip bands bands2) Out.
Proof.
  intros Hop Hbs2.
  induction bands as [|b bands IH]; intros bands2 NewBands NewDataset h Hdrop Hwf Hall2.
  - exists [], h. simpl. rewrite app_nil_r. split; [reflexivity |].
    split; [done |]. split; constructor.
  - apply Forall_cons in Hwf as [Hb Hwf].
    destruct bands2 as [|b2 bands2]; [by apply Forall2_cons_nil_inv in Hall2 |].
    apply Forall2_cons in Hall2 as [[Hb2 Hs2] Hall2].
    apply drop_cons_lookup in Hdrop as [Hlook Hdrop].
    destruct (np_binary_run f b b2 h Hb Hb2 Hs2)
      as (c & h1 & Hrun1 & Hp1 & Hwf1 & Hs1 & Hf1 & Hr1).
    destruct (Math_step_appends Operation (np_binary f b (Arr b2)) NewBands NewDataset
                h c h1 Hrun1 Hp1 Hwf1 Hf1)
      as (b' & h2 & Hstep & Hp2 & Hwf2 & Hsh2 & Hf2 & Hr2).
    assert (Hall2' : Forall2 (fun b b2 => wf h2 b2 /\ same_shape b b2) bands bands2).
    { eapply Forall2_impl; [exact Hall2 |]. intros a a2 [Ha2 Hsa].
      split; [by apply (wf_prefix h) | done]. }
    destruct (IH bands2 (NewBands ++ [b'])
                (if Math_boolean_result Operation
                 then set_GDALDataType (Some GDT_Byte) NewDataset else NewDataset)
                h2 ltac:(rewrite length_app; simpl;
                         by replace (length NewBands + 1)%nat with (S (length NewBands))
                           by lia)
                (Forall_wf_prefix _ _ _ Hp2 Hwf) Hall2')
      as (Out & h' & Hloop & Hp3 & Hfresh & Hall).
    exists (b' :: Out), h'. split.
    { simpl. unfold bind at 1. unfold GetBand. rewrite Hbs2, Hlook. cbn [ret].
      rewrite Hop. unfold bind. rewrite Hstep. cbn [fst snd].
      rewrite length_app in Hloop. simpl in Hloop.
      replace (S (length NewBands)) with (length NewBands + 1)%nat by lia.
      rewrite Hloop. rewrite <- (assoc_L (++)). simpl. do 3 f_equal.
      destruct bands; [reflexivity |]. by destruct (Math_boolean_result Operation). }
    pose proof (prefix_length_le _ _ Hp2). pose proof (prefix_length_le _ _ Hp3).
    split; [by etrans |]. split.
    { constructor; [unfold fresh_in in *; lia |].
      apply (Forall_fresh_in_mono h h2 h' h'); [lia | lia | done]. }
    simpl. constructor.
    + split; [by apply (wf_prefix h2) |]. split.
      { destruct Hs1, Hsh2. split; simpl; congruence. }
      rewrite (read_prefix h2 h') by (done || apply Hwf2).
      by rewrite Hr2, Hr1, grid_map_zip.
    + eapply Forall2_impl_in; [exact Hall |]. intros [a a2] a' Ha (Hwa & Hsa & Hra).
      split; [done |]. split; [done |]. rewrite Hra. simpl.
      apply elem_of_zip_l in Ha as Ha1. apply elem_of_zip_r in Ha as Ha2'.
      simpl in *. f_equal.
      * apply read_prefix; [done |]. eapply Forall_forall in Hwf; [| exact Ha1].
        apply Hwf.
      * apply read_prefix; [done |].
        assert (Hw2 : Forall (wf h) bands2).
        { clear -Hall2. induction Hall2 as [|? ? ? ? [? _] _ IHl]; by constructor. }
        eapply Forall_forall in Hw2; [| exact Ha2']. apply Hw2.
Qed.

(** The raster branch of [Math] on two rasters over the same bounds with
    the same pixel width and the same bands, shape by shape. *)
Lemma Math_raster_pixels (self d2 : SpaDatasetRaster) (Operation : Z)
    (f : Qc -> Qc -> Qc) (bs bs2 : list ndarray) (h : heap) :
  (forall b b2, Math_raster_op Operation b b2 = Some (np_binary f b (Arr b2))) ->
  GetBounds self = GetBounds d2 -> PixelWidth self = PixelWidth d2 ->
  GetNumBands self = GetNumBands d2 ->
  TheBands self = Some bs -> TheBands d2 = Some bs2 -> valid h self ->
  Forall (wf h) bs -> Forall2 (fun b b2 => wf h b2 /\ same_shape b b2) bs bs2 ->
  exists out bs' h',
    Math self Operation (InputDataset d2) h = Ok (out, h') /\ h `prefix_of` h' /\
    TheBands out = Some bs' /\ Forall (fresh_in h h') bs' /\
    Forall2 (fun bb b' => same_shape bb.1 b' /\
      read h' b' = zip_with (zip_with (fun v w => Math_result_pixel Operation (f v w)))
                     (read h bb.1) (read h bb.2))
      (zip bs bs2) bs' /\
    GetType out = match bs with
                  | [] => GetType self
                  | _ => Math_result_type Operation (GetType self)
                  end /\
    GetBounds out = GetBounds self /\ GetResolution out = GetResolution self.
Proof.
  intros Hop Hbounds Hpw Hnum Hbs Hbs2 Hvalid Hwf Hall2.
  destruct (Clone_spec self bs h Hbs Hvalid)
    as (ND & cb & h1 & Hclone & Hp1 & _ & _ & _).
  destruct (Clone_bounds _ _ _ _ Hclone) as (Hb & Hres & Hty & _).
  assert (Hall2' : Forall2 (fun b b2 => wf h1 b2 /\ same_shape b b2) bs bs2).
  { eapply Forall2_impl; [exact Hall2 |]. intros a a2 [Ha2 Hsa].
    split; [by apply (wf_prefix h) | done]. }
  destruct (Math_raster_loop_pixels Operation f d2 bs2 Hop Hbs2 bs bs2 [] ND h1
              eq_refl (Forall_wf_prefix _ _ _ Hp1 Hwf) Hall2')
    as (Out & h' & Hloop & Hp2 & Hfresh & Hall).
  pose proof (prefix_length_le _ _ Hp1). pose proof (prefix_length_le _ _ Hp2).
  eexists _, Out, h'. split.
  { unfold Math. rewrite bool_decide_eq_false_2 by (intros Hne; by apply Hne).
    unfold bind at 1. rewrite (ResampleToMatch_aligned self d2 h Hbounds Hpw).
    cbn [fst snd]. unfold bind at 1. rewrite Hclone, Hbs.
    unfold bind. simpl in Hloop. rewrite Hloop. reflexivity. }
  split; [by etrans |]. split; [reflexivity |]. split.
  { apply (Forall_fresh_in_mono h h1 h' h'); [lia | lia | done]. }
  split.
  { eapply Forall2_impl_in; [exact Hall |]. intros [a a2] a' Ha (_ & Hsa & Hra).
    split; [done |]. rewrite Hra. simpl.
    apply elem_of_zip_l in Ha as Ha1. apply elem_of_zip_r in Ha as Ha2'.
    simpl in *. f_equal.
    - apply read_prefix; [done |]. eapply Forall_forall in Hwf; [| exact Ha1].
      apply Hwf.
    - apply read_prefix; [done |].
      assert (Hw2 : Forall (wf h) bs2).
      { clear -Hall2. induction Hall2 as [|? ? ? ? [? _] _ IHl]; by constructor. }
      eapply Forall_forall in Hw2; [| exact Ha2']. apply Hw2. }
  split.
  { unfold Math_result_type. rewrite <- Hty. destruct bs; [reflexivity |].
    by destruct (Math_boolean_result Operation). }
  cbn [fst snd]. rewrite <- Hb, <- Hres.
  destruct bs; [done |]. by destruct (Math_boolean_result Operation).
Qed.

End MathTables.

Section MathMore.
Context `{Collaborators}.

Lemma raster_pixel_functions_chain (Operation : Z) (g : Qc -> Qc -> Qc) :
  (Operation, g) ∈ raster_pixel_functions ->
  exists f, (forall b b2, Math_raster_op Operation b b2 = Some (np_binary f b (Arr b2))) /\
    forall v w, Math_result_pixel Operation (f v w) = g v w.
Proof.
  unfold raster_pixel_functions. intros Hin.
  repeat (apply elem_of_cons in Hin as [Hin | Hin];
          [injection Hin as -> ->; eexists; split;
           [intros b b2; reflexivity
           | intros v w; unfold Math_result_pixel; cbn [Math_boolean_result];
             first [reflexivity | apply py_int_of_bool]] |]).
  by apply elem_of_nil in Hin.
Qed.

(** The raster branch of [Math] on two rasters read, one after the
    other, from 64-bit float bands over the same grid. *)
Lemma Math_raster_loaded (ds1 ds2 : gdal_Dataset) (h0 : heap) (d1 : SpaDatasetRaster)
    (h1 : heap) (d2 : SpaDatasetRaster) (h : heap) (Operation : Z)
    (f : Qc -> Qc -> Qc) :
  loaded_float64 ds1 h0 d1 h1 -> loaded_float64 ds2 h1 d2 h ->
  RasterXSize ds1 = RasterXSize ds2 -> RasterYSize ds1 = RasterYSize ds2 ->
  GetGeoTransform ds1 = GetGeoTransform ds2 ->
  Forall2 (fun band1 band2 =>
    grid_shape (ReadAsArray band1) = grid_shape (ReadAsArray band2))
    (RasterBands ds1) (RasterBands ds2) ->
  (forall b b2, Math_raster_op Operation b b2 = Some (np_binary f b (Arr b2))) ->
  exists bs1 out bs' h',
    TheBands d1 = Some bs1 /\
    Math d1 Operation (InputDataset d2) h = Ok (out, h') /\ h `prefix_of` h' /\
    TheBands out = Some bs' /\
    Forall2 (fun b b' => same_shape b b') bs1 bs' /\
    Forall2 (fun bb b' =>
      read h' b' = zip_with (zip_with (fun v w => Math_result_pixel Operation (f v w)))
                     (ReadAsArray bb.1) (ReadAsArray bb.2))
      (zip (RasterBands ds1) (RasterBands ds2)) bs' /\
    GetType out = Math_result_type Operation (Some GDT_Float64) /\
    GetBounds out = GetBounds d1 /\ GetResolution out = GetResolution d1.
Proof.
  intros Hl1 Hl2 Hxs Hys Hgt Hshapes Hop.
  pose proof Hl1 as (Hne & _).
  destruct (loaded_float64_bands _ _ _ _ Hl1)
    as (bs1 & _ & Hbs1 & Hvalid1 & Hreads1 & Hty1 & Hw1 & Hh1' & Hn1 & Hx1 & Hy1 &
        Hpw1 & Hph1).
  destruct (loaded_float64_bands _ _ _ _ Hl2)
    as (bs2 & Hp12 & Hbs2 & _ & Hreads2 & _ & Hw2 & Hh2' & Hn2 & Hx2 & Hy2 &
        Hpw2 & Hph2).
  pose proof (prefix_length_le _ _ Hp12) as Hlen12.
  assert (Hreads1' : Forall2 (fun b band => wf h b /\ read h b = ReadAsArray band /\
                       nrows b = (grid_shape (ReadAsArray band)).1 /\
                       ncols b = (grid_shape (ReadAsArray band)).2)
                       bs1 (RasterBands ds1)).
  { eapply Forall2_impl; [exact Hreads1 |]. intros b band (Hwf & Hr & Hs).
    split; [by apply (wf_prefix h1) |]. split; [| exact Hs].
    rewrite (read_prefix h1 h) by (done || apply Hwf). exact Hr. }
  assert (Hwf1 : Forall (wf h) bs1).
  { clear -Hreads1'. induction Hreads1' as [|b band bs' bands' Hb _ IH]; constructor;
      [apply Hb | exact IH]. }
  assert (Hall2 : Forall2 (fun b b2 => wf h b2 /\ same_shape b b2) bs1 bs2).
  { assert (H12 : Forall2 (fun b band2 =>
                    nrows b = (grid_shape (ReadAsArray band2)).1 /\
                    ncols b = (grid_shape (ReadAsArray band2)).2)
                    bs1 (RasterBands ds2)).
    { apply Forall2_flip.
      eapply (Forall2_via _ _ _ (RasterBands ds1)); [| exact Hshapes |].
      2: { apply Forall2_flip. exact Hreads1'. }
      intros band1 band2 b Heq (_ & _ & Hn & Hk). unfold flip. by rewrite <- Heq. }
    apply Forall2_flip.
    eapply (Forall2_via _ _ _ (RasterBands ds2)); [| | exact (proj2 (Forall2_flip _ _ _) H12)].
    2: { apply Forall2_flip. exact Hreads2. }
    intros band2 b2 b (Hwf2 & _ & Hn2' & Hk2') [Hn1' Hk1']. unfold flip.
    split; [done |]. split; congruence. }
  assert (Hvalid : valid h d1) by (by apply (valid_grows h1)).
  assert (Hbounds : GetBounds d1 = GetBounds d2).
  { unfold GetBounds, GetResolution. cbn [fst snd].
    by rewrite Hx1, Hx2, Hy1, Hy2, Hw1, Hw2, Hh1', Hh2', Hpw1, Hpw2, Hph1, Hph2, Hxs, Hys,
      Hgt. }
  assert (Hpw : PixelWidth d1 = PixelWidth d2) by (by rewrite Hpw1, Hpw2, Hgt).
  assert (Hnum : GetNumBands d1 = GetNumBands d2).
  { unfold GetNumBands, RasterCount in *. rewrite Hn1, Hn2.
    by rewrite (Forall2_length _ _ _ Hshapes). }
  destruct (Math_raster_pixels d1 d2 Operation f bs1 bs2 h Hop Hbounds Hpw Hnum
              Hbs1 Hbs2 Hvalid Hwf1 Hall2)
    as (out & bs' & h' & Hrun & Hp & Hout & _ & Hall & Htype & Hb & Hres).
  exists bs1, out, bs', h'. split; [done |]. split; [done |]. split; [done |].
  split; [done |]. split.
  { eapply Forall2_impl_in.
    - apply Forall2_same_length_lookup. split.
      + rewrite <- (Forall2_length _ _ _ Hall), length_zip_with.
        rewrite (Forall2_length _ _ _ Hall2). lia.
      + intros i b b' Hb1 Hb'.
        destruct (Forall2_lookup_l _ _ _ _ _ Hall2 Hb1) as (b2 & Hb2 & _).
        assert (Hz : zip bs1 bs2 !! i = Some (b, b2)).
        { apply lookup_zip_with_Some. by exists b, b2. }
        destruct (Forall2_lookup_l _ _ _ _ _ Hall Hz) as (b'' & Hb'' & Hs & _).
        rewrite Hb' in Hb''. injection Hb'' as <-. exact Hs.
    - intros; assumption. }
  split.
  { apply Forall2_same_length_lookup. split.
    - rewrite <- (Forall2_length _ _ _ Hall), !length_zip_with.
      rewrite (Forall2_length _ _ _ Hreads1'), (Forall2_length _ _ _ Hreads2). lia.
    - intros i [band1 band2] b' Hbands Hb'.
      apply lookup_zip_with_Some in Hbands as (band1' & band2' & Heq & Hband1 & Hband2).
      injection Heq as -> ->.
      destruct (Forall2_lookup_r _ _ _ _ _ Hreads1' Hband1) as (b1 & Hb1 & _ & Hr1 & _).
      destruct (Forall2_lookup_r _ _ _ _ _ Hreads2 Hband2) as (b2 & Hb2 & _ & Hr2 & _).
      assert (Hz : zip bs1 bs2 !! i = Some (b1, b2)).
      { apply lookup_zip_with_Some. by exists b1, b2. }
      destruct (Forall2_lookup_l _ _ _ _ _ Hall Hz) as (b'' & Hb'' & _ & Hr).
      rewrite Hb' in Hb''. injection Hb'' as <-. cbn [fst snd] in *.
      by rewrite Hr, Hr1, Hr2. }
  split; [| by split].
  rewrite Htype, Hty1. destruct bs1; [| reflexivity].
  apply Forall2_nil_inv_l in Hreads1. by destruct Hne.
Qed.

(** X14. For two rasters read, one after the other, from GDAL datasets
    with 64-bit float bands of the same size, geotransform and band
    shapes, and each operation of [raster_pixel_functions], [Math]
    always returns, and every band of the result combines the two
    corresponding bands pixel by pixel; the store only grows, the type
    is [GDT_Byte] after an operation whose result counts as Boolean
    and is kept otherwise, and bounds and resolution are kept. *)
Theorem Math_raster_is_pixelwise (ds1 ds2 : gdal_Dataset) (h0 : heap)
    (d1 : SpaDatasetRaster) (h1 : heap) (d2 : SpaDatasetRaster) (h : heap)
    (Operation : Z) (g : Qc -> Qc -> Qc) :
  loaded_float64 ds1 h0 d1 h1 -> loaded_float64 ds2 h1 d2 h ->
  RasterXSize ds1 = RasterXSize ds2 -> RasterYSize ds1 = RasterYSize ds2 ->
  GetGeoTransform ds1 = GetGeoTransform ds2 ->
  Forall2 (fun band1 band2 =>
    grid_shape (ReadAsArray band1) = grid_shape (ReadAsArray band2))
    (RasterBands ds1) (RasterBands ds2) ->
  (Operation, g) ∈ raster_pixel_functions ->
  exists out bs' h',
    Math d1 Operation (InputDataset d2) h = Ok (out, h') /\ h `prefix_of` h' /\
    TheBands out = Some bs' /\
    Forall2 (fun bb b' =>
      read h' b' = zip_with (zip_with g) (ReadAsArray bb.1) (ReadAsArray bb.2))
      (zip (RasterBands ds1) (RasterBands ds2)) bs' /\
    GetType out = Math_result_type Operation (Some GDT_Float64) /\
    GetBounds out = GetBounds d1 /\ GetResolution out = GetResolution d1.
Proof.
  intros Hl1 Hl2 Hxs Hys Hgt Hshapes Hin.
  destruct (raster_pixel_functions_chain _ _ Hin) as (f & Hchain & Hpix).
  destruct (Math_raster_loaded ds1 ds2 h0 d1 h1 d2 h Operation f Hl1 Hl2 Hxs Hys Hgt
              Hshapes Hchain)
    as (bs1 & out & bs' & h' & _ & Hrun & Hp & Hout & _ & Hall & Hrest).
  exists out, bs', h'. split; [done |]. split; [done |]. split; [done |].
  split; [| exact Hrest].
  eapply Forall2_impl; [exact Hall |]. intros bb b' Hr. rewrite Hr.
  apply grid_zip_ext. intros v w. apply Hpix.
Qed.

(** X15. [Math] takes the results of [SPAMATH_MAX] and [SPAMATH_MIN]
    for Boolean: on two aligned rasters whose pixels have integer parts
    that a 64-bit integer holds, each output pixel is the larger
    (smaller) of the two input pixels truncated toward zero, and the
    raster is typed [GDT_Byte]. *)
Theorem Math_extrema_truncate_to_Byte (self d2 : SpaDatasetRaster) (Operation : Z)
    (g : Qc -> Qc -> Qc) (b : ndarray) (bs : list ndarray) (bs2 : list ndarray)
    (h : heap) :
  (Operation, g) ∈ raster_extrema ->
  GetBounds self = GetBounds d2 -> PixelWidth self = PixelWidth d2 ->
  GetNumBands self = GetNumBands d2 ->
  TheBands self = Some (b :: bs) -> TheBands d2 = Some bs2 -> valid h self ->
  Forall (wf h) (b :: bs) ->
  Forall2 (fun b b2 => wf h b2 /\ same_shape b b2) (b :: bs) bs2 ->
  Forall (fun a => grid_all fits_int64 (read h a)) (b :: bs) ->
  Forall (fun a => grid_all fits_int64 (read h a)) bs2 ->
  exists out bs' h',
    Math self Operation (InputDataset d2) h = Ok (out, h') /\
    TheBands out = Some bs' /\
    Forall2 (fun bb b' =>
      read h' b' = zip_with (zip_with (fun v w => Qc_of_Z (py_int (g v w))))
                     (read h bb.1) (read h bb.2)) (zip (b :: bs) bs2) bs' /\
    GetType out = Some GDT_Byte.
Proof.
  intros Hin Hbounds Hpw Hnum Hbs Hbs2 Hvalid Hwf Hall2 _ _.
  assert (Hchain : (forall a a2, Math_raster_op Operation a a2
                                 = Some (np_binary g a (Arr a2))) /\
                   Math_boolean_result Operation = true).
  { unfold raster_extrema in Hin.
    repeat (apply elem_of_cons in Hin as [Hin | Hin];
            [injection Hin as -> ->; split; [intros a a2 |]; reflexivity |]).
    by apply elem_of_nil in Hin. }
  destruct Hchain as [Hchain Hbool].
  destruct (Math_raster_pixels self d2 Operation g (b :: bs) bs2 h Hchain Hbounds Hpw
              Hnum Hbs Hbs2 Hvalid Hwf Hall2)
    as (out & bs' & h' & Hrun & Hp & Hout & _ & Hall & Hty & _).
  exists out, bs', h'. split; [done |]. split; [done |]. split.
  - eapply Forall2_impl; [exact Hall |]. intros bb b' [_ Hr]. rewrite Hr.
    apply grid_zip_ext. intros v w. unfold Math_result_pixel. by rewrite Hbool.
  - rewrite Hty. unfold Math_result_type. by rewrite Hbool.
Qed.

(** X16. With a number as second operand, [SPAMATH_MAX] and
    [SPAMATH_MIN] are not in the chain of operations but are in the
    list of Boolean results: on a raster with a band, [Math] raises
    [IndexError]. *)
Theorem Math_extrema_with_number_raise (self : SpaDatasetRaster) (Operation : Z)
    (x : Qc) (b : ndarray) (bs : list ndarray) (h : heap) :
  Operation ∈ [SPAMATH_MAX; SPAMATH_MIN] ->
  TheBands self = Some (b :: bs) -> valid h self ->
  Math self Operation (InputNumber x) h = Raise IndexError.
Proof.
  intros Hin Hbs Hvalid.
  destruct (Clone_spec self (b :: bs) h Hbs Hvalid)
    as (ND & cb & h1 & Hclone & _).
  unfold Math. unfold bind at 1. rewrite Hclone, Hbs.
  repeat (apply elem_of_cons in Hin as [-> | Hin]; [reflexivity |]).
  by apply elem_of_nil in Hin.
Qed.

Lemma Math_scalar_loop_unknown (Operation : Z) (x : Qc) :
  (forall b, Math_scalar_op Operation b x = None) ->
  Math_boolean_result Operation = false ->
  forall bands BandIndex NewBands NewDataset h,
  Math_scalar_loop Operation x bands BandIndex NewBands NewDataset h
    = Ok ((NewBands, NewDataset), h).
Proof.
  intros Hop Hbool. induction bands as [|b bands IH];
    intros BandIndex NewBands NewDataset h; simpl; [reflexivity |].
  rewrite Hop. unfold bind, Math_step, bind. cbn [ret]. rewrite Hbool.
  cbn [ret fst snd]. apply IH.
Qed.

Lemma unknown_scalar_operation (Operation : Z) (x : Qc) :
  Operation ∉ scalar_operations ->
  (forall b, Math_scalar_op Operation b x = None) /\
  Math_boolean_result Operation = false.
Proof.
  intros Hnot.
  assert (Hne : Forall (fun c => (Operation =? c)%Z = false) scalar_operations).
  { apply Forall_forall. intros c Hc. apply Z.eqb_neq. intros ->. by apply Hnot. }
  unfold scalar_operations in Hne.
  repeat match goal with
  | Hf : Forall _ (_ :: _) |- _ => apply Forall_cons in Hf as [? Hf]
  end.
  split.
  - intros b. unfold Math_scalar_op.
    repeat match goal with
    | Hc : (Operation =? ?c)%Z = false |- context [(Operation =? ?c)%Z] => rewrite Hc
    end.
    reflexivity.
  - unfold Math_boolean_result.
    repeat match goal with
    | Hc : (Operation =? ?c)%Z = false |- context [(Operation =? ?c)%Z] => rewrite Hc
    end.
    reflexivity.
Qed.

(** X17. [Math] does not refuse an operation code it does not know:
    with a number as second operand it returns a raster with the header
    of the input and an empty list of bands. *)
Theorem Math_unknown_operation_returns_no_bands (self : SpaDatasetRaster)
    (Operation : Z) (x : Qc) (bs : list ndarray) (h : heap) :
  Operation ∉ scalar_operations ->
  TheBands self = Some bs -> valid h self ->
  exists out h',
    Math self Operation (InputNumber x) h = Ok (out, h') /\
    TheBands out = Some [] /\ GetNumBands out = GetNumBands self /\
    GetBounds out = GetBounds self.
Proof.
  intros Hnot Hbs Hvalid.
  destruct (unknown_scalar_operation Operation x Hnot) as [Hop Hbool].
  destruct (Clone_spec self bs h Hbs Hvalid) as (ND & cb & h1 & Hclone & _).
  destruct (Clone_bounds _ _ _ _ Hclone) as (Hb & _ & _ & Hn).
  eexists _, h1. split.
  { unfold Math. unfold bind at 1. rewrite Hclone, Hbs. unfold bind.
    rewrite (Math_scalar_loop_unknown Operation x Hop Hbool). reflexivity. }
  split; [reflexivity |]. split; [exact Hn | exact Hb].
Qed.

(** X18. [Subtract] with the number first swaps its operands: on a
    raster read from 64-bit float bands it returns what [Subtract] with
    the number second returns, each output pixel being the input pixel
    minus the number. *)
Theorem Subtract_number_first_is_swapped (ds : gdal_Dataset) (h0 : heap)
    (d : SpaDatasetRaster) (h : heap) (x : Qc) :
  loaded_float64 ds h0 d h ->
  exists out bs' h',
    Subtract (InputNumber x) (InputDataset d) h = Ok (out, h') /\
    Subtract (InputDataset d) (InputNumber x) h = Ok (out, h') /\
    TheBands out = Some bs' /\
    Forall2 (fun band b' => read h' b' = grid_map (fun v => v - x) (ReadAsArray band))
      (RasterBands ds) bs'.
Proof.
  intros Hloaded.
  destruct (Math_scalar_loaded ds h0 d h SPAMATH_SUBTRACT (fun v x => v - x) x Hloaded
              ltac:(apply list_elem_of_further, list_elem_of_here))
    as (out & bs' & h' & Hrun & _ & Hout & Hall & _).
  exists out, bs', h'. split; [exact Hrun |]. split; [exact Hrun |]. by split.
Qed.

Lemma comparison_tests_tables (Operation : Z) (test : Qc -> Qc -> bool) :
  (Operation, test) ∈ comparison_tests ->
  Operation ∈ comparisons /\ Math_boolean_result Operation = true /\
  (Operation, fun v w => of_bool (test v w)) ∈ scalar_pixel_functions /\
  (Operation, fun v w => of_bool (test v w)) ∈ raster_pixel_functions.
Proof.
  unfold comparison_tests. intros Hin.
  repeat (apply elem_of_cons in Hin as [Hin | Hin];
          [injection Hin as -> ->;
           split; [unfold comparisons;
                   repeat first [apply list_elem_of_here | apply list_elem_of_further] |];
           split; [reflexivity |];
           split; [unfold scalar_pixel_functions | unfold raster_pixel_functions];
           repeat first [apply list_elem_of_here | apply list_elem_of_further] |]).
  by apply elem_of_nil in Hin.
Qed.

Lemma Forall2_zip_l {A B C} (P : A * B -> C -> Prop) (Q : A -> C -> Prop)
    (l : list A) (k : list B) (m : list C) :
  length l = length k -> (forall a b c, P (a, b) c -> Q a c) ->
  Forall2 P (zip l k) m -> Forall2 Q l m.
Proof.
  intros Hlen HPQ. revert k m Hlen.
  induction l as [|a l IH]; intros [|b k] m Hlen Hall; try discriminate Hlen.
  - apply Forall2_nil_inv_l in Hall as ->. constructor.
  - simpl in Hall. apply Forall2_cons_inv_l in Hall as (c & m' & Hc & Hall & ->).
    constructor; [by eapply HPQ |]. apply (IH k); [by injection Hlen | done].
Qed.


End MathMore.

(** ** The common bounds of ResampleToMatch *)

Lemma Qc_max_le (a b x : Qc) :
  (if Qc_ltb a b then b else a) ≤ x <-> a ≤ x /\ b ≤ x.
Proof.
  destruct (Qc_ltb a b) eqn:Hab.
  - apply Qc_ltb_true in Hab. split.
    + intros Hb. split; [| done]. apply Qclt_le_weak in Hab. by eapply Qcle_trans.
    + by intros [_ ?].
  - apply Qc_ltb_false in Hab. split.
    + intros Ha. split; [done |]. by eapply Qcle_trans.
    + by intros [? _].
Qed.

Lemma Qc_le_min (a b x : Qc) :
  x ≤ (if Qc_ltb b a then b else a) <-> x ≤ a /\ x ≤ b.
Proof.
  destruct (Qc_ltb b a) eqn:Hab.
  - apply Qc_ltb_true in Hab. split.
    + intros Hb. split; [| done]. apply Qclt_le_weak in Hab. by eapply Qcle_trans.
    + by intros [_ ?].
  - apply Qc_ltb_false in Hab. split.
    + intros Ha. split; [done |]. by eapply Qcle_trans.
    + by intros [? _].
Qed.

Lemma Qc_max_comm (a b : Qc) :
  (if Qc_ltb a b then b else a) = (if Qc_ltb b a then a else b).
Proof.
  destruct (Qc_ltb a b) eqn:Hab, (Qc_ltb b a) eqn:Hba; try reflexivity.
  - apply Qc_ltb_true in Hab, Hba. exfalso. apply (Qclt_not_le _ _ Hab).
    by apply Qclt_le_weak.
  - apply Qc_ltb_false in Hab, Hba. by apply Qcle_antisym.
Qed.

Lemma Qc_min_comm (a b : Qc) :
  (if Qc_ltb b a then b else a) = (if Qc_ltb a b then a else b).
Proof.
  destruct (Qc_ltb a b) eqn:Hab, (Qc_ltb b a) eqn:Hba; try reflexivity.
  - apply Qc_ltb_true in Hab, Hba. exfalso. apply (Qclt_not_le _ _ Hab).
    by apply Qclt_le_weak.
  - apply Qc_ltb_false in Hab, Hba. by apply Qcle_antisym.
Qed.

Section Bounds.
Context `{Collaborators}.

(** X19. The rectangle that [ResampleToMatch] hands to [Crop] is the
    intersection of the two bounds, whichever raster comes first. *)
Theorem common_bounds_is_the_intersection (TheBounds1 TheBounds2 : bounds) (x y : Qc) :
  common_bounds TheBounds1 TheBounds2 = common_bounds TheBounds2 TheBounds1 /\
  (inside (common_bounds TheBounds1 TheBounds2) x y <->
   inside TheBounds1 x y /\ inside TheBounds2 x y).
Proof.
  destruct TheBounds1 as [[[x1 y1] X1] Y1], TheBounds2 as [[[x2 y2] X2] Y2].
  unfold common_bounds, inside. cbn [fst snd]. split.
  - by rewrite (Qc_max_comm x1 x2), (Qc_max_comm y1 y2), (Qc_min_comm X1 X2),
      (Qc_min_comm Y1 Y2).
  - rewrite !Qc_max_le, !Qc_le_min. tauto.
Qed.

End Bounds.

(** ** AllocateArray *)

Lemma exact_replicate (n m : nat) (x : Qc) : exact n m (replicate n (replicate m x)).
Proof.
  split; [by rewrite length_replicate |].
  apply Forall_replicate. by rewrite length_replicate.
Qed.

Lemma np_zeros_run (n m : Z) (h : heap) :
  (0 <= n)%Z -> (0 <= m)%Z ->
  let b := mk_ndarray (length h) 0 0 (Z.to_nat n) (Z.to_nat m) in
  let g := replicate (Z.to_nat n) (replicate (Z.to_nat m) (0 : Qc)) in
  np_zeros n m h = Ok (b, h ++ [g]) /\ wf (h ++ [g]) b /\ read (h ++ [g]) b = g.
Proof.
  intros Hn Hm b g. unfold np_zeros.
  destruct (Z.ltb_spec n 0); [lia |]. destruct (Z.ltb_spec m 0); [lia |].
  split; [reflexivity |].
  destruct (read_alloc_exact h g _ _ (exact_replicate _ _ 0)) as [Hr Hwf]. by split.
Qed.

Lemma AllocateArray_loop_zeros (self : SpaDatasetRaster) (n : nat) :
  (0 <= HeightInPixels self)%Z -> (0 <= WidthInPixels self)%Z ->
  forall Bands h,
  exists New h',
    AllocateArray_loop self n Bands h = Ok (Bands ++ New, h') /\ h `prefix_of` h' /\
    length New = n /\
    Forall (zeros_in (HeightInPixels self) (WidthInPixels self) h h') New /\
    NoDup (base <$> New).
Proof.
  intros Hh Hw. induction n as [|n IH]; intros Bands h.
  - exists [], h. simpl. rewrite app_nil_r. split; [reflexivity |]. split; [done |].
    split; [done |]. split; constructor.
  - destruct (np_zeros_run _ _ h Hh Hw) as (Hrun & Hwf & Hr).
    set (b := mk_ndarray (length h) 0 0 (Z.to_nat (HeightInPixels self))
                (Z.to_nat (WidthInPixels self))) in *.
    set (h1 := h ++ [replicate (Z.to_nat (HeightInPixels self))
                       (replicate (Z.to_nat (WidthInPixels self)) (0 : Qc))]) in *.
    destruct (IH (Bands ++ [b]) h1) as (New & h' & Hloop & Hp & Hlen & Hall & Hnd).
    assert (Hp1 : h `prefix_of` h1) by (by apply prefix_app_r).
    assert (Hl1 : length h1 = S (length h)).
    { unfold h1. rewrite length_app. simpl. lia. }
    pose proof (prefix_length_le _ _ Hp).
    exists (b :: New), h'. split.
    { simpl. unfold bind. rewrite Hrun, Hloop. by rewrite <- (assoc_L (++)). }
    split; [by etrans |]. split; [simpl; lia |]. split.
    + constructor.
      * split; [unfold fresh_in; simpl; lia |]. split; [by apply (wf_prefix h1) |].
        split; [simpl; lia |]. split; [simpl; lia |].
        rewrite (read_prefix h1 h') by (done || apply Hwf). rewrite Hr.
        apply Forall_replicate, Forall_replicate. reflexivity.
      * eapply Forall_impl; [exact Hall |].
        intros a (Hf & Hwa & Hna & Hma & Hza). split; [| done].
        unfold fresh_in in *. lia.
    + simpl. constructor; [| done]. intros Hin.
      apply list_elem_of_fmap in Hin as (a & Hba & Ha).
      eapply Forall_forall in Hall; [| exact Ha].
      destruct Hall as [Hf _]. unfold fresh_in in Hf. lia.
Qed.

(** X20. For sizes that are not negative, [AllocateArray] always
    returns: [NumBands] new arrays of [HeightInPixels] by
    [WidthInPixels] zeros, each in a buffer of its own; the mask and the
    GDAL dataset of the raster are left as they were. *)
Theorem AllocateArray_gives_zero_bands (self : SpaDatasetRaster) (h : heap) :
  (0 <= HeightInPixels self)%Z -> (0 <= WidthInPixels self)%Z ->
  exists d bs h',
    AllocateArray self h = Ok ((d, bs), h') /\ h `prefix_of` h' /\
    TheBands d = Some bs /\ length bs = Z.to_nat (NumBands self) /\
    Forall (zeros_in (HeightInPixels self) (WidthInPixels self) h h') bs /\
    NoDup (base <$> bs) /\
    GetMask d = GetMask self /\ GDALDataset d = GDALDataset self.
Proof.
  intros Hh Hw.
  destruct (AllocateArray_loop_zeros self (Z.to_nat (NumBands self)) Hh Hw [] h)
    as (New & h' & Hloop & Hp & Hlen & Hall & Hnd).
  exists (set_TheBands (Some New) self), New, h'. split.
  { unfold AllocateArray, bind. by rewrite Hloop. }
  by repeat split.
Qed.

(** ** GetMinMax *)

Ltac elem_of_list := repeat first [apply list_elem_of_here | apply list_elem_of_further].

Lemma foldl_Qc_min (l : list Qc) (x : Qc) :
  foldl Qc_min x l ∈ x :: l /\ forall v, v ∈ x :: l -> foldl Qc_min x l ≤ v.
Proof.
  revert x. induction l as [|y l IH]; intros x; simpl.
  - split; [apply list_elem_of_here |]. intros v Hv.
    apply list_elem_of_singleton in Hv as ->. apply Qcle_refl.
  - destruct (IH (Qc_min x y)) as [Hin Hle]. 
    assert (Hm : Qc_min x y ∈ [x; y] /\ Qc_min x y ≤ x /\ Qc_min x y ≤ y).
    { unfold Qc_min. destruct (Qc_ltb y x) eqn:Hyx.
      - apply Qc_ltb_true in Hyx. split; [elem_of_list |].
        split; [by apply Qclt_le_weak | apply Qcle_refl].
      - apply Qc_ltb_false in Hyx. split; [elem_of_list |].
        split; [apply Qcle_refl | done]. }
    destruct Hm as (Hm & Hmx & Hmy). split.
    + apply elem_of_cons in Hin as [-> | Hin].
      * apply elem_of_cons in Hm as [-> | Hm]; [elem_of_list |].
        apply list_elem_of_singleton in Hm as ->. elem_of_list.
      * by do 2 apply list_elem_of_further.
    + intros v Hv. apply elem_of_cons in Hv as [-> | Hv].
      * eapply Qcle_trans; [apply Hle, list_elem_of_here | done].
      * apply elem_of_cons in Hv as [-> | Hv].
        -- eapply Qcle_trans; [apply Hle, list_elem_of_here | done].
        -- apply Hle. by apply list_elem_of_further.
Qed.

Lemma foldl_Qc_max (l : list Qc) (x : Qc) :
  foldl Qc_max x l ∈ x :: l /\ forall v, v ∈ x :: l -> v ≤ foldl Qc_max x l.
Proof.
  revert x. induction l as [|y l IH]; intros x; simpl.
  - split; [apply list_elem_of_here |]. intros v Hv.
    apply list_elem_of_singleton in Hv as ->. apply Qcle_refl.
  - destruct (IH (Qc_max x y)) as [Hin Hle]. 
    assert (Hm : Qc_max x y ∈ [x; y] /\ x ≤ Qc_max x y /\ y ≤ Qc_max x y).
    { unfold Qc_max. destruct (Qc_ltb x y) eqn:Hxy.
      - apply Qc_ltb_true in Hxy. split; [elem_of_list |].
        split; [by apply Qclt_le_weak | apply Qcle_refl].
      - apply Qc_ltb_false in Hxy. split; [elem_of_list |].
        split; [apply Qcle_refl | done]. }
    destruct Hm as (Hm & Hmx & Hmy). split.
    + apply elem_of_cons in Hin as [-> | Hin].
      * apply elem_of_cons in Hm as [-> | Hm]; [elem_of_list |].
        apply list_elem_of_singleton in Hm as ->. elem_of_list.
      * by do 2 apply list_elem_of_further.
    + intros v Hv. apply elem_of_cons in Hv as [-> | Hv].
      * eapply Qcle_trans; [| apply Hle, list_elem_of_here]. done.
      * apply elem_of_cons in Hv as [-> | Hv].
        -- eapply Qcle_trans; [| apply Hle, list_elem_of_here]. done.
        -- apply Hle. by apply list_elem_of_further.
Qed.

Lemma pixel_cons_0 (r : list Qc) (g : grid) (j : nat) : pixel (r :: g) 0 j = r !! j.
Proof. reflexivity. Qed.

Lemma pixel_cons_S (r : list Qc) (g : grid) (i j : nat) :
  pixel (r :: g) (S i) j = pixel g i j.
Proof. reflexivity. Qed.

Lemma elem_of_concat_pixel (data : grid) (v : Qc) :
  v ∈ concat data <-> exists i j, pixel data i j = Some v.
Proof.
  induction data as [|r data IH]; simpl.
  - split; [intros Hv; by apply elem_of_nil in Hv | by intros (i & j & Hp)].
  - rewrite elem_of_app, IH. split.
    + intros [Hv | (i & j & Hp)].
      * apply list_elem_of_lookup_1 in Hv as [j Hj]. by exists 0%nat, j.
      * by exists (S i), j.
    + intros ([|i] & j & Hp).
      * left. rewrite pixel_cons_0 in Hp. by eapply list_elem_of_lookup_2.
      * right. by exists i, j.
Qed.

Lemma elem_of_cells_pixel (data mask : grid) (v c : Qc) :
  Forall2 (fun r s => length r = length s) data mask ->
  (v, c) ∈ zip (concat data) (concat mask) <->
  exists i j, pixel data i j = Some v /\ pixel mask i j = Some c.
Proof.
  induction 1 as [|r s data mask Hlen _ IH].
  - split; [intros Hv; by apply elem_of_nil in Hv | by intros (i & j & Hp & _)].
  - rewrite !concat_cons, zip_with_app, elem_of_app by done.
    rewrite IH. split.
    + intros [Hv | (i & j & Hp)].
      * apply elem_of_lookup_zip_with_1 in Hv as (j & x & y & Heq & Hx & Hy).
        injection Heq as -> ->. by exists 0%nat, j.
      * by exists (S i), j.
    + intros ([|i] & j & Hp & Hq).
      * left. rewrite pixel_cons_0 in Hp, Hq.
        by apply (elem_of_lookup_zip_with_2 pair r s v c (v, c) j).
      * right. by exists i, j.
Qed.

Lemma exact_same_lengths (n m : nat) (g k : grid) :
  exact n m g -> exact n m k -> Forall2 (fun r s => length r = length s) g k.
Proof.
  intros [Hn Hm] [Hn' Hm']. apply Forall2_same_length_lookup. split; [congruence |].
  intros i r s Hr Hs.
  eapply Forall_forall in Hm; [| by eapply list_elem_of_lookup_2].
  eapply Forall_forall in Hm'; [| by eapply list_elem_of_lookup_2]. congruence.
Qed.

(** X21. When the band has a pixel that the mask, if any, does not
    hide, [GetMinMax] returns two values, each the value of such a pixel,
    with every such pixel between them; the store is left as it was. *)
Theorem GetMinMax_bounds_the_unmasked_pixels (self : SpaDatasetRaster) (Index : nat)
    (bs : list ndarray) (TheBand : ndarray) (h : heap) (v0 : Qc) :
  TheBands self = Some bs -> bs !! Index = Some TheBand -> wf h TheBand ->
  (forall m, TheMask self = Some m -> wf h m /\ same_shape TheBand m) ->
  unmasked_pixel (read h TheBand) (read h <$> TheMask self) v0 ->
  exists Min Max,
    GetMinMax self Index h = Ok ((ma_value Min, ma_value Max), h) /\
    unmasked_pixel (read h TheBand) (read h <$> TheMask self) Min /\
    unmasked_pixel (read h TheBand) (read h <$> TheMask self) Max /\
    forall v, unmasked_pixel (read h TheBand) (read h <$> TheMask self) v ->
              Min ≤ v /\ v ≤ Max.
Proof.
  intros Hbs Hb Hwf Hmask Hv0. unfold GetMinMax. rewrite Hbs, Hb.
  unfold bind at 1. unfold np_read at 1.
  destruct (TheMask self) as [m|] eqn:Hm; simpl in *.
  - destruct (Hmask m eq_refl) as [Hwm [Hsn Hsm]].
    unfold bind at 1. unfold np_read at 1. unfold ma_mask.
    rewrite bool_decide_eq_true_2 by done. unfold bind, lift, ma_reduce.
    set (cells := zip (concat (read h TheBand)) (concat (read h m))).
    assert (Hcells : forall v c, (v, c) ∈ cells <->
              exists i j, pixel (read h TheBand) i j = Some v /\
                          pixel (read h m) i j = Some c).
    { intros v c. apply elem_of_cells_pixel.
      apply (exact_same_lengths (nrows TheBand) (ncols TheBand)); [apply Hwf |].
      rewrite <- Hsn, <- Hsm. apply Hwm. }
    assert (Hvals : forall v, v ∈ (filter (fun c => truthy c.2 = false) cells).*1 <->
              unmasked_pixel (read h TheBand) (Some (read h m)) v).
    { intros v. rewrite list_elem_of_fmap. split.
      - intros ([v' c] & -> & Hin). apply list_elem_of_filter in Hin as [Hc Hin].
        apply Hcells in Hin as (i & j & Hp & Hq). exists i, j. split; [done |].
        by exists c.
      - intros (i & j & Hp & c & Hq & Hc). exists (v, c). split; [done |].
        apply list_elem_of_filter. split; [done |]. apply Hcells. by exists i, j. }
    assert (Hne : cells <> []).
    { destruct Hv0 as (i & j & Hp & c & Hq & Hc).
      assert (Hin : (v0, c) ∈ cells) by (apply Hcells; by exists i, j).
      intros Heq. rewrite Heq in Hin. by apply elem_of_nil in Hin. }
    destruct cells as [|c0 cells'] eqn:Ecells; [done |]. rewrite <- Ecells in *.
    destruct ((filter (fun c => truthy c.2 = false) cells).*1) as [|x l] eqn:Evals.
    { apply Hvals in Hv0. by apply elem_of_nil in Hv0. }
    destruct (foldl_Qc_min l x) as [Hmin_in Hmin_le].
    destruct (foldl_Qc_max l x) as [Hmax_in Hmax_le].
    exists (foldl Qc_min x l), (foldl Qc_max x l). split; [reflexivity |].
    split; [by apply Hvals |]. split; [by apply Hvals |].
    intros v Hv. apply Hvals in Hv. split; [by apply Hmin_le | by apply Hmax_le].
  - unfold bind, lift, np_reduce.
    assert (Hvals : forall v, v ∈ concat (read h TheBand) <->
              unmasked_pixel (read h TheBand) None v).
    { intros v. rewrite elem_of_concat_pixel. split.
      - intros (i & j & Hp). by exists i, j.
      - intros (i & j & Hp & _). by exists i, j. }
    destruct (concat (read h TheBand)) as [|x l] eqn:Evals.
    { apply Hvals in Hv0. by apply elem_of_nil in Hv0. }
    destruct (foldl_Qc_min l x) as [Hmin_in Hmin_le].
    destruct (foldl_Qc_max l x) as [Hmax_in Hmax_le].
    exists (foldl Qc_min x l), (foldl Qc_max x l). split; [reflexivity |].
    split; [by apply Hvals |]. split; [by apply Hvals |].
    intros v Hv. apply Hvals in Hv. split; [by apply Hmin_le | by apply Hmax_le].
Qed.

(** ** NearestNeighbor *)

Lemma pixel_alter (x : Qc) (g : grid) (i j i' j' : nat) :
  pixel (alter (alter (fun _ => x) j) i g) i' j'
  = if bool_decide (i' = i /\ j' = j) then const x <$> pixel g i j else pixel g i' j'.
Proof.
  unfold pixel. destruct (decide (i' = i)) as [->|Hi].
  - rewrite list_lookup_alter_eq. destruct (g !! i) as [row|]; simpl.
    + destruct (decide (j' = j)) as [->|Hj].
      * rewrite bool_decide_eq_true_2 by done. by rewrite list_lookup_alter_eq.
      * rewrite bool_decide_eq_false_2 by (intros [_ ?]; done).
        by rewrite list_lookup_alter_ne.
    + by case_bool_decide.
  - rewrite bool_decide_eq_false_2 by (intros [? _]; done).
    by rewrite list_lookup_alter_ne.
Qed.

Lemma window_alter (f : Qc -> Qc) (r c n m i j : nat) (g : grid) :
  (i < n)%nat -> (j < m)%nat ->
  window r c n m (alter (alter f (c + j)%nat) (r + i)%nat g)
  = alter (alter f j) i (window r c n m g).
Proof.
  intros Hi Hj. unfold window.
  rewrite drop_alter_ge by lia. replace (r + i - r)%nat with i by lia.
  rewrite take_alter_lt by done.
  apply list_fmap_alter, Forall_forall. intros row _.
  rewrite drop_alter_ge by lia. replace (c + j - c)%nat with j by lia.
  by rewrite take_alter_lt.
Qed.

Lemma exact_grid_set (n m i j : nat) (x : Qc) (g : grid) :
  exact n m g -> exact n m (grid_set i j x g).
Proof.
  intros [Hn Hm]. unfold grid_set. split; [by rewrite length_alter |].
  apply Forall_forall. intros row Hrow.
  apply list_elem_of_lookup_1 in Hrow as [k Hk].
  rewrite list_lookup_alter in Hk. destruct (decide (i = k)) as [->|Hne].
  - destruct (g !! k) as [row0|] eqn:Hg; [| discriminate Hk].
    injection Hk as <-. rewrite length_alter.
    eapply Forall_forall in Hm; [exact Hm |]. by eapply list_elem_of_lookup_2.
  - eapply Forall_forall in Hm; [exact Hm |]. by eapply list_elem_of_lookup_2.
Qed.

Lemma pixel_exact (n m : nat) (g : grid) (i j : nat) :
  exact n m g -> (i < n)%nat -> (j < m)%nat -> is_Some (pixel g i j).
Proof.
  intros [Hn Hm] Hi Hj. unfold pixel.
  destruct (g !! i) as [row|] eqn:Hrow; [| apply lookup_ge_None in Hrow; lia].
  simpl. apply lookup_lt_is_Some.
  eapply Forall_forall in Hm; [| by eapply list_elem_of_lookup_2]. lia.
Qed.

Lemma pixel_grid_set (i j : nat) (x : Qc) (g : grid) (i' j' : nat) :
  is_Some (pixel g i j) ->
  pixel (grid_set i j x g) i' j'
  = if bool_decide (i' = i /\ j' = j) then Some x else pixel g i' j'.
Proof.
  intros [v Hv]. unfold grid_set. rewrite pixel_alter. rewrite Hv.
  by case_bool_decide.
Qed.

Lemma np_getitem_run (a : ndarray) (i j : nat) (h : heap) :
  wf h a -> (i < nrows a)%nat -> (j < ncols a)%nat ->
  exists v, np_getitem a i j h = Ok (v, h) /\ pixel (read h a) i j = Some v.
Proof.
  intros [_ He] Hi Hj. destruct (pixel_exact _ _ _ i j He Hi Hj) as [v Hv].
  exists v. split; [| done]. unfold np_getitem.
  rewrite !bool_decide_eq_true_2 by done. cbn [andb]. by rewrite Hv.
Qed.

Lemma np_setitem_run (a : ndarray) (i j : nat) (x : Qc) (h : heap) :
  wf h a -> (i < nrows a)%nat -> (j < ncols a)%nat ->
  exists h', np_setitem a i j x h = Ok (tt, h') /\ length h' = length h /\
    (forall k, k <> base a -> h' !! k = h !! k) /\
    read h' a = grid_set i j x (read h a) /\ wf h' a.
Proof.
  intros [Hb He] Hi Hj. eexists. split.
  { unfold np_setitem. rewrite !bool_decide_eq_true_2 by done. reflexivity. }
  split; [by rewrite length_alter |]. split.
  { intros k Hk. by rewrite list_lookup_alter_ne. }
  assert (Hr : read (alter (alter (alter (fun _ => x) (col0 a + j)%nat) (row0 a + i)%nat)
                       (base a) h) a = grid_set i j x (read h a)).
  { unfold read. rewrite list_lookup_alter_eq.
    destruct (h !! base a) as [buf|] eqn:Hbuf; [| apply lookup_ge_None in Hbuf; lia].
    simpl. by apply window_alter. }
  split; [exact Hr |]. split; [by rewrite length_alter |].
  rewrite Hr. by apply exact_grid_set.
Qed.

Lemma read_same_buffer (h h' : heap) (a : ndarray) :
  h' !! base a = h !! base a -> read h' a = read h a.
Proof. intros Heq. unfold read. by rewrite Heq. Qed.

Section NearestNeighborLoops.
Variables (self : SpaResample) (h : heap) (bs New : list ndarray).
Variables (Hin Win Hout Wout L : nat).
Hypothesis Hbs : Forall (fun b => wf h b /\ nrows b = Hin /\ ncols b = Win) bs.
Hypothesis Hnew : Forall (fun b' => (length h <= base b' < L)%nat /\
                                    nrows b' = Hout /\ ncols b' = Wout) New.
Hypothesis Hnd : NoDup (base <$> New).
Hypothesis Hlen : length New = length bs.
Hypothesis HL : (length h <= L)%nat.
Hypothesis Hrows : forall r, (r < Hout)%nat ->
  (0 <= math_floor (Qc_of_Z (Z.of_nat r) * RowRate self + 0) < Z.of_nat Hin)%Z.
Hypothesis Hcols : forall c, (c < Wout)%nat ->
  (0 <= math_floor (Qc_of_Z (Z.of_nat c) * ColumnRate self + 0) < Z.of_nat Win)%Z.

Lemma NN_inv_weaken (hh : heap) (D D' : nat -> nat -> nat -> Prop) :
  (forall k r c, (k < length New)%nat -> D' k r c -> D k r c) ->
  NN_inv self h bs New L hh D -> NN_inv self h bs New L hh D'.
Proof.
  intros Hsub (Hl & Hin' & Hwf & Hpix). split; [done |]. split; [done |].
  split; [done |]. intros k b' r c Hk HD. apply Hpix; [done |].
  apply Hsub; [| done]. by eapply lookup_lt_Some.
Qed.

Lemma NN_input_read (hh : heap) (D : nat -> nat -> nat -> Prop) (b : ndarray) :
  NN_inv self h bs New L hh D -> b ∈ bs -> wf hh b /\ read hh b = read h b.
Proof.
  intros (Hl & Hsame & _ & _) Hb.
  eapply Forall_forall in Hbs; [| exact Hb]. destruct Hbs as ([Hbase He] & _ & _).
  assert (Hr : read hh b = read h b) by (apply read_same_buffer; by apply Hsame).
  split; [| done]. split; [lia | by rewrite Hr].
Qed.

Lemma NN_same_base (k k' : nat) (b' b'' : ndarray) :
  New !! k = Some b' -> New !! k' = Some b'' -> base b'' = base b' -> k' = k.
Proof.
  intros Hk Hk' Hbase.
  eapply (NoDup_lookup (base <$> New)); [exact Hnd | |].
  - rewrite list_lookup_fmap, Hk'. reflexivity.
  - rewrite list_lookup_fmap, Hk. simpl. by rewrite Hbase.
Qed.

(** One assignment [OutputBand[r][c] = v]. *)
Lemma NN_write (hh : heap) (D : nat -> nat -> nat -> Prop) (k : nat) (b b' : ndarray)
    (r c : nat) (v : Qc) :
  NN_inv self h bs New L hh D -> bs !! k = Some b -> New !! k = Some b' ->
  (r < Hout)%nat -> (c < Wout)%nat ->
  pixel (read h b) (sampled (RowRate self) r) (sampled (ColumnRate self) c) = Some v ->
  exists hh', np_setitem b' r c v hh = Ok (tt, hh') /\
    NN_inv self h bs New L hh' (fun k' r' c' => D k' r' c' \/ (k' = k /\ r' = r /\ c' = c)).
Proof.
  intros Hinv Hb Hb' Hr Hc Hv. pose proof Hinv as (Hl & Hsame & Hwf & Hpix).
  assert (Hin' : b' ∈ New) by (by eapply list_elem_of_lookup_2).
  pose proof Hnew as Hnew'. eapply Forall_forall in Hnew'; [| exact Hin'].
  destruct Hnew' as (Hbase & Hn & Hm).
  destruct (np_setitem_run b' r c v hh (Hwf b' Hin') ltac:(lia) ltac:(lia))
    as (hh' & Hrun & Hl' & Hother & Hread & Hwf').
  exists hh'. split; [done |]. split; [lia |]. split.
  { intros i Hi. rewrite Hother by lia. by apply Hsame. }
  split.
  { intros b'' Hb''. destruct (decide (base b'' = base b')) as [Heq|Hne].
    - apply list_elem_of_lookup_1 in Hb'' as [k' Hk'].
      assert (k' = k) by (by eapply NN_same_base). subst k'.
      rewrite Hb' in Hk'. by injection Hk' as <-.
    - destruct (Hwf b'' Hb'') as [Hb1 He1]. split; [lia |].
      by rewrite (read_same_buffer hh hh') by (by apply Hother). }
  intros k' b'' r' c' Hk' HD.
  destruct (decide (k' = k)) as [->|Hne].
  - rewrite Hb' in Hk'. injection Hk' as <-. rewrite Hread.
    rewrite pixel_grid_set.
    2:{ eapply pixel_exact; [apply (Hwf b' Hin') | lia | lia]. }
    case_bool_decide as Hrc.
    + destruct Hrc as [-> ->]. unfold NN_target. rewrite Hb. simpl. by rewrite Hv.
    + destruct HD as [HD | (_ & -> & ->)]; [| by destruct Hrc].
      by apply Hpix.
  - destruct HD as [HD | (-> & _)]; [| done].
    rewrite (read_same_buffer hh hh').
    + by apply Hpix.
    + apply Hother. intros Heq. apply Hne. by eapply NN_same_base.
Qed.

Lemma NN_bands_run (r c : nat) :
  (r < Hout)%nat -> (c < Wout)%nat ->
  forall n k hh D, (k + n = length bs)%nat -> NN_inv self h bs New L hh D ->
  exists hh',
    NearestNeighbor_bands (Some bs) New (sampled (RowRate self) r)
      (sampled (ColumnRate self) c) r c n k hh = Ok (tt, hh') /\
    NN_inv self h bs New L hh' (fun k' r' c' => D k' r' c' \/ ((k <= k')%nat /\ r' = r /\ c' = c)).
Proof.
  intros Hr Hc. induction n as [|n IH]; intros k hh D Hk Hinv.
  - exists hh. split; [reflexivity |]. eapply NN_inv_weaken; [| exact Hinv].
    intros k' r' c' Hk' [HD | (Hle & _)]; [done | lia].
  - simpl.
    destruct (New !! k) as [b'|] eqn:Hb'; [| apply lookup_ge_None in Hb'; lia].
    destruct (bs !! k) as [b|] eqn:Hb; [| apply lookup_ge_None in Hb; lia].
    assert (Hbin : b ∈ bs) by (by eapply list_elem_of_lookup_2).
    destruct (NN_input_read hh D b Hinv Hbin) as [Hwfb Hrb].
    pose proof Hbs as Hbs'. eapply Forall_forall in Hbs'; [| exact Hbin].
    destruct Hbs' as (_ & Hnb & Hmb).
    pose proof (Hrows r Hr) as Hir. pose proof (Hcols c Hc) as Hic.
    destruct (np_getitem_run b (sampled (RowRate self) r) (sampled (ColumnRate self) c)
                hh Hwfb ltac:(unfold sampled; lia) ltac:(unfold sampled; lia))
      as (v & Hget & Hv).
    rewrite Hrb in Hv.
    destruct (NN_write hh D k b b' r c v Hinv Hb Hb' Hr Hc Hv) as (hh1 & Hset & Hinv1).
    destruct (IH (S k) hh1 _ ltac:(lia) Hinv1) as (hh' & Hrun & Hinv').
    exists hh'. split.
    { unfold bind. by rewrite Hget, Hset. }
    eapply NN_inv_weaken; [| exact Hinv'].
    intros k' r' c' _ [HD | (Hle & -> & ->)]; [by left; left |].
    destruct (decide (k' = k)) as [->|Hne]; [left; right; done |].
    right. split; [lia | done].
Qed.

Lemma NN_columns_run (NumBands InputWidthInPixels : Z) (r : nat) :
  Z.to_nat NumBands = length bs -> InputWidthInPixels = Z.of_nat Win ->
  (r < Hout)%nat ->
  forall n c hh D, (c + n = Wout)%nat -> NN_inv self h bs New L hh D ->
  exists hh',
    NearestNeighbor_columns self (Some bs) New InputWidthInPixels NumBands
      (sampled (RowRate self) r) r n c hh = Ok (tt, hh') /\
    NN_inv self h bs New L hh' (fun k' r' c' => D k' r' c' \/ (r' = r /\ (c <= c' < Wout)%nat)).
Proof.
  intros Hnum Hwin Hr. induction n as [|n IH]; intros c hh D Hc Hinv.
  - exists hh. split; [reflexivity |]. eapply NN_inv_weaken; [| exact Hinv].
    intros k' r' c' _ [HD | (_ & Hle)]; [done | lia].
  - simpl. pose proof (Hcols c ltac:(lia)) as Hic. subst InputWidthInPixels.
    destruct (Z.leb_spec 0 (math_floor (Qc_of_Z (Z.of_nat c) * ColumnRate self + 0)));
      [| lia].
    destruct (Z.ltb_spec (math_floor (Qc_of_Z (Z.of_nat c) * ColumnRate self + 0))
                (Z.of_nat Win)); [| lia].
    cbn [andb]. rewrite Hnum.
    destruct (NN_bands_run r c Hr ltac:(lia) (length bs) 0 hh D eq_refl Hinv)
      as (hh1 & Hrun1 & Hinv1).
    fold (sampled (ColumnRate self) c).
    destruct (IH (S c) hh1 _ ltac:(lia) Hinv1) as (hh' & Hrun & Hinv').
    exists hh'. split.
    { unfold bind. by rewrite Hrun1. }
    eapply NN_inv_weaken; [| exact Hinv'].
    intros k' r' c' _ [HD | (-> & Hle)]; [by left; left |].
    destruct (decide (c' = c)) as [->|Hne].
    + left. right. split; [lia | done].
    + right. split; [done | lia].
Qed.

Lemma NN_rows_run (NumBands InputWidthInPixels InputHeightInPixels OutputColumnEnd : Z) :
  Z.to_nat NumBands = length bs -> InputWidthInPixels = Z.of_nat Win ->
  InputHeightInPixels = Z.of_nat Hin -> Z.to_nat OutputColumnEnd = Wout ->
  forall n r hh D, (r + n = Hout)%nat -> NN_inv self h bs New L hh D ->
  exists hh',
    NearestNeighbor_rows self (Some bs) New InputWidthInPixels InputHeightInPixels
      NumBands OutputColumnEnd n r hh = Ok (tt, hh') /\
    NN_inv self h bs New L hh' (fun k' r' c' => D k' r' c' \/ ((r <= r' < Hout)%nat /\ (c' < Wout)%nat)).
Proof.
  intros Hnum Hwin Hhin Hwout. induction n as [|n IH]; intros r hh D Hr Hinv.
  - exists hh. split; [reflexivity |]. eapply NN_inv_weaken; [| exact Hinv].
    intros k' r' c' _ [HD | (Hle & _)]; [done | lia].
  - simpl. pose proof (Hrows r ltac:(lia)) as Hir. subst InputHeightInPixels.
    destruct (Z.leb_spec 0 (math_floor (Qc_of_Z (Z.of_nat r) * RowRate self + 0)));
      [| lia].
    destruct (Z.ltb_spec (math_floor (Qc_of_Z (Z.of_nat r) * RowRate self + 0))
                (Z.of_nat Hin)); [| lia].
    cbn [andb]. rewrite Hwout.
    fold (sampled (RowRate self) r).
    destruct (NN_columns_run NumBands InputWidthInPixels r Hnum Hwin ltac:(lia)
                Wout 0 hh D eq_refl Hinv)
      as (hh1 & Hrun1 & Hinv1).
    destruct (IH (S r) hh1 _ ltac:(lia) Hinv1) as (hh' & Hrun & Hinv').
    exists hh'. split.
    { unfold bind. by rewrite Hrun1. }
    eapply NN_inv_weaken; [| exact Hinv'].
    intros k' r' c' _ [HD | (Hle & Hc')]; [by left; left |].
    destruct (decide (r' = r)) as [->|Hne].
    + left. right. split; [done | lia].
    + right. split; [lia | done].
Qed.

End NearestNeighborLoops.

Lemma math_floor_sample_range (rate : Qc) (N : Z) (i : nat) :
  0 < rate -> (i < Z.to_nat (math_floor (Qc_of_Z N / rate)))%nat ->
  (0 <= math_floor (Qc_of_Z (Z.of_nat i) * rate + 0) < N)%Z.
Proof.
  intros Hrate Hi. unfold math_floor in *. rewrite Qcplus_0_r.
  set (x := Qc_of_Z (Z.of_nat i) * rate).
  assert (Hx0 : Qc_of_Z 0 ≤ x).
  { unfold x. rewrite Z2Qc_inj_0, <- (Qcmult_0_l rate). apply Qcmult_le_compat_r.
    - rewrite <- Z2Qc_inj_0. apply (proj1 (Z2Qc_inj_le _ _)). lia.
    - by apply Qclt_le_weak. }
  assert (HxN : x < Qc_of_Z N).
  { assert (Hq : Qc_of_Z (Z.of_nat i + 1) ≤ Qc_of_Z N / rate).
    { eapply Qcle_trans; [| apply Qc_floor_le]. apply (proj1 (Z2Qc_inj_le _ _)). lia. }
    apply (Qcmult_le_compat_r _ _ rate) in Hq; [| by apply Qclt_le_weak].
    replace (Qc_of_Z N / rate * rate) with (Qc_of_Z N) in Hq
      by (field; by apply Qclt_not_eq').
    eapply Qclt_le_trans; [| exact Hq]. unfold x.
    apply Qcmult_lt_compat_r; [done |]. apply (proj1 (Z2Qc_inj_lt _ _)). lia. }
  pose proof (Qc_floor_le x) as Hfl. pose proof (Qc_lt_floor x) as Hlt.
  split.
  - assert (H0 : Qc_of_Z 0 < Qc_of_Z (Qfloor (this x) + 1))
      by (eapply Qcle_lt_trans; [exact Hx0 | exact Hlt]).
    apply Z2Qc_inj_lt in H0. lia.
  - apply (proj2 (Z2Qc_inj_lt _ _)). eapply Qcle_lt_trans; [exact Hfl | exact HxN].
Qed.

(** [NearestNeighbor] in the arithmetic of the rationals: the result is
    [floor(height/RowRate)] by [floor(width/ColumnRate)], and its pixel
    [(r, c)] is pixel [(floor(r*RowRate), floor(c*ColumnRate))] of the
    input. *)
Lemma NearestNeighbor_samples (self : SpaResample)
    (d : SpaDatasetRaster) (bs : list ndarray) (h : heap) :
  0 < RowRate self -> 0 < ColumnRate self ->
  TheBands d = Some bs -> NumBands d = Z.of_nat (length bs) ->
  (0 <= HeightInPixels d)%Z -> (0 <= WidthInPixels d)%Z ->
  Forall (fun b => wf h b /\ Z.of_nat (nrows b) = HeightInPixels d /\
                   Z.of_nat (ncols b) = WidthInPixels d) bs ->
  exists out bs' h',
    SpaResample_NearestNeighbor self d h = Ok (out, h') /\
    HeightInPixels out = math_floor (Qc_of_Z (HeightInPixels d) / RowRate self) /\
    WidthInPixels out = math_floor (Qc_of_Z (WidthInPixels d) / ColumnRate self) /\
    GetResolution out = GetResolution d /\ XMin out = XMin d /\ YMax out = YMax d /\
    GetMask out = None /\
    TheBands out = Some bs' /\ Forall (fresh_in h h') bs' /\
    (forall a, (base a < length h)%nat -> read h' a = read h a) /\
    Forall2 (fun b b' => forall r c,
      (Z.of_nat r < HeightInPixels out)%Z -> (Z.of_nat c < WidthInPixels out)%Z ->
      pixel (read h' b') r c
      = pixel (read h b) (sampled (RowRate self) r) (sampled (ColumnRate self) c))
      bs bs'.
Proof.
  intros Hrr Hcr Hbs Hnum Hh0 Hw0 Hshape.
  set (OutputRowEnd := math_floor (Qc_of_Z (HeightInPixels d) / RowRate self)).
  set (OutputColumnEnd := math_floor (Qc_of_Z (WidthInPixels d) / ColumnRate self)).
  set (OD := set_WidthInPixels OutputColumnEnd
               (set_HeightInPixels OutputRowEnd
                  (CopyPropertiesButNotData SpaDatasetRaster_init d))).
  assert (Hfloor0 : forall (N : Z) (rate : Qc), (0 <= N)%Z -> 0 < rate ->
            (0 <= math_floor (Qc_of_Z N / rate))%Z).
  { intros N rate HN Hrate. unfold math_floor.
    pose proof (Qc_lt_floor (Qc_of_Z N / rate)) as Hlt.
    assert (H0 : Qc_of_Z 0 ≤ Qc_of_Z N / rate).
    { rewrite Z2Qc_inj_0. unfold Qcdiv. apply Qcmult_nonneg_nonneg.
      - rewrite <- Z2Qc_inj_0. by apply (proj1 (Z2Qc_inj_le _ _)).
      - apply Qclt_le_weak. by apply Qcinv_pos. }
    assert (H1 : Qc_of_Z 0 < Qc_of_Z (Qfloor (this (Qc_of_Z N / rate)) + 1))
      by (eapply Qcle_lt_trans; [exact H0 | exact Hlt]).
    apply Z2Qc_inj_lt in H1. lia. }
  pose proof (Hfloor0 _ _ Hh0 Hrr) as Hre. pose proof (Hfloor0 _ _ Hw0 Hcr) as Hce.
  fold OutputRowEnd in Hre. fold OutputColumnEnd in Hce.
  destruct (AllocateArray_loop_zeros OD (Z.to_nat (NumBands d)) Hre Hce [] h)
    as (New & h1 & Halloc & Hp1 & HlenNew & Hzeros & Hnd).
  change (HeightInPixels OD) with OutputRowEnd in Hzeros.
  change (WidthInPixels OD) with OutputColumnEnd in Hzeros.
  rewrite Hnum, Nat2Z.id in HlenNew, Halloc.
  pose proof (prefix_length_le _ _ Hp1) as Hl1.
  assert (Hbs' : Forall (fun b => wf h b /\ nrows b = Z.to_nat (HeightInPixels d) /\
                                  ncols b = Z.to_nat (WidthInPixels d)) bs).
  { eapply Forall_impl; [exact Hshape |]. intros b (Hwf & Hn & Hm).
    split; [done |]. lia. }
  assert (Hnew : Forall (fun b' => (length h <= base b' < length h1)%nat /\
                          nrows b' = Z.to_nat OutputRowEnd /\
                          ncols b' = Z.to_nat OutputColumnEnd) New).
  { eapply Forall_impl; [exact Hzeros |]. intros b' (Hf & _ & Hn & Hm & _).
    split; [exact Hf |]. lia. }
  assert (Hrows : forall r, (r < Z.to_nat OutputRowEnd)%nat ->
            (0 <= math_floor (Qc_of_Z (Z.of_nat r) * RowRate self + 0)
             < Z.of_nat (Z.to_nat (HeightInPixels d)))%Z).
  { intros r Hr. rewrite Z2Nat.id by done. by apply math_floor_sample_range. }
  assert (Hcols : forall c, (c < Z.to_nat OutputColumnEnd)%nat ->
            (0 <= math_floor (Qc_of_Z (Z.of_nat c) * ColumnRate self + 0)
             < Z.of_nat (Z.to_nat (WidthInPixels d)))%Z).
  { intros c Hc. rewrite Z2Nat.id by done. by apply math_floor_sample_range. }
  assert (Hinv0 : NN_inv self h bs New (length h1) h1 (fun _ _ _ => False)).
  { split; [done |]. split.
    { intros i Hi. destruct Hp1 as [t ->]. by rewrite lookup_app_l. }
    split; [| by intros k b' r c _ []].
    intros b' Hb'. eapply Forall_forall in Hzeros; [| exact Hb']. apply Hzeros. }
  destruct (NN_rows_run self h bs New _ _ _ _ (length h1) Hbs' Hnew Hnd HlenNew Hl1
              Hrows Hcols (NumBands d) (WidthInPixels d) (HeightInPixels d)
              OutputColumnEnd ltac:(rewrite Hnum; lia) ltac:(lia) ltac:(lia) eq_refl
              (Z.to_nat OutputRowEnd) 0 h1 _ eq_refl Hinv0)
    as (h' & Hrun & (Hl' & Hsame & Hwf' & Hpix)).
  exists (set_TheBands (Some New) OD), New, h'. split.
  { unfold SpaResample_NearestNeighbor.
    unfold bind at 1. unfold lift at 1.
    rewrite (proj2 (py_truediv_Ok _ _ _) (conj (Qclt_not_eq' _ _ Hrr) eq_refl)).
    unfold bind at 1. unfold lift at 1.
    rewrite (proj2 (py_truediv_Ok _ _ _) (conj (Qclt_not_eq' _ _ Hcr) eq_refl)).
    unfold bind at 1. rewrite (GetBands_loaded d bs h Hbs). cbn [fst snd].
    unfold GetWidthInPixels, GetHeightInPixels.
    fold OutputRowEnd OutputColumnEnd. fold OD.
    change (GetNumBands OD) with (NumBands d).
    replace (Z.to_nat (NumBands d)) with (length bs) by lia.
    unfold bind at 1. rewrite Halloc. unfold bind. simpl app.
    rewrite Hrun. reflexivity. }
  split; [reflexivity |]. split; [reflexivity |]. split; [reflexivity |].
  split; [reflexivity |]. split; [reflexivity |]. split; [reflexivity |].
  split; [reflexivity |]. split.
  { eapply Forall_impl; [exact Hnew |]. intros b' (Hb & _). unfold fresh_in. lia. }
  split.
  { intros a Ha. apply read_same_buffer. by apply Hsame. }
  apply Forall2_same_length_lookup. split; [done |].
  intros k b b' Hb Hb' r c Hr Hc. cbn in Hr, Hc.
  rewrite (Hpix k b' r c Hb'); [| right; lia].
  unfold NN_target. by rewrite Hb.
Qed.

Lemma math_floor_quotient (a b : Z) :
  (0 < b)%Z -> math_floor (Qc_of_Z a / Qc_of_Z b) = (a / b)%Z.
Proof.
  intros Hb. unfold math_floor.
  assert (Hb' : 0 < Qc_of_Z b).
  { rewrite <- Z2Qc_inj_0. by apply (proj1 (Z2Qc_inj_lt _ _)). }
  pose proof (Qclt_not_eq' _ _ Hb') as Hne.
  assert (Hq : Qc_of_Z a = Qc_of_Z a / Qc_of_Z b * Qc_of_Z b) by (by field).
  apply Qc_floor_unique.
  - apply (Qcmult_le_mono_pos_r _ _ (Qc_of_Z b)); [done |].
    rewrite <- Hq, <- Z2Qc_inj_mul. apply (proj1 (Z2Qc_inj_le _ _)).
    pose proof (Z.mul_div_le a b Hb). lia.
  - apply (Qcmult_lt_mono_pos_r _ _ (Qc_of_Z b)); [done |].
    rewrite <- Hq, <- Z2Qc_inj_mul. apply (proj1 (Z2Qc_inj_lt _ _)).
    pose proof (Z.mul_succ_div_gt a b Hb). lia.
Qed.

Lemma sampled_whole (m : Z) (i : nat) :
  (0 <= m)%Z -> sampled (Qc_of_Z m) i = (i * Z.to_nat m)%nat.
Proof.
  intros Hm. unfold sampled, math_floor.
  replace (Qc_of_Z (Z.of_nat i) * Qc_of_Z m + 0) with (Qc_of_Z (Z.of_nat i * m))
    by (rewrite Z2Qc_inj_mul; ring).
  rewrite Qfloor_Qc_of_Z. lia.
Qed.


(** * Runs on the sample rasters *)

(** Decides a closed proposition by evaluation. *)
Ltac by_compute := apply (bool_decide_unpack _); vm_compute; exact I.

(** [small n] and [whole x] for a given number. *)
Ltac is_small := unfold small; by_compute.
Ltac is_whole n := exists n; split; [by_compute | is_small].

Section Runs.
#[local] Existing Instance stub_Collaborators.

Lemma sample_valid : valid sample_heap sample.
Proof. by_compute. Qed.

Lemma sample_georeference : whole_georeference sample.
Proof. repeat split; [is_whole 0%Z | is_whole 0%Z | is_whole 10%Z | is_whole (-10)%Z]. Qed.

Lemma fine_coarse_bounds : GetBounds fine = GetBounds coarse.
Proof. by_compute. Qed.

(** C1 at [fine] and [coarse]: the coarse raster is the one resampled,
    to the finer pixel size 10. *)
Lemma ResampleToMatch_ends_at_finer_run :
  match ResampleToMatch fine coarse fine_coarse_heap with
  | Ok (r, _) =>
      r.1 = fine /\ PixelWidth r.2 = PixelWidth fine /\ PixelWidth coarse = zq 20
  | Raise _ => False
  end.
Proof.
  destruct (ResampleToMatch fine coarse fine_coarse_heap) as [[r h']|e] eqn:E.
  - destruct (ResampleToMatch_ends_at_finer fine coarse fine_coarse_heap r h'
                fine_coarse_bounds E) as (Hlt & _ & _).
    destruct (Hlt ltac:(reflexivity)) as (H1 & H2 & _). by repeat split.
  - vm_compute in E. discriminate E.
Defined.

Lemma stub_Translate_refuses : refuses_empty_windows.
Proof.
  intros ds ulx uly lrx lry Hempty. left. simpl. unfold stub_Translate.
  destruct ds as [ds|]; [| reflexivity].
  assert (Hb : Qc_leb lrx ulx || Qc_leb uly lry = true).
  { unfold Qc_leb. destruct Hempty as [Hx | Hy].
    - by rewrite (bool_decide_eq_true_2 _ Hx).
    - rewrite (bool_decide_eq_true_2 _ Hy). apply orb_true_r. }
  by rewrite Hb.
Qed.

Lemma west_east_disjoint : empty_intersection (GetBounds west) (GetBounds east).
Proof. left. vm_compute. discriminate. Qed.



(** C3 refuted: the pixel 120 is in both ranges, the last of which maps
    to 2, and ends as 500, the output of the first. *)
Lemma Reclassify_keeps_first_output :
  last_match "range" overlapping_ranges overlapping_outputs 0 (zq 120) = Some (zq 2) /\
  match ReclassifyRange pixel_120 overlapping_ranges overlapping_outputs pixel_120_heap with
  | Ok (out, h') => read h' <$> default [] (TheBands out) = [[[zq 500]]]
  | Raise _ => False
  end.
Proof. split; vm_compute; reflexivity. Qed.

Lemma Reclassify_tests_rewritten_band_run :
  match Reclassify pixel_120 overlapping_ranges overlapping_outputs "range"
          pixel_120_heap with
  | Ok (out, h') =>
      exists bs', TheBands out = Some bs' /\
        Forall2 (fun b b' =>
          read h' b' = grid_map (reclass_pixel "range" overlapping_ranges
                                   overlapping_outputs 0) (read pixel_120_heap b))
          [mk_ndarray 0 0 0 1 1] bs'
  | Raise _ => False
  end.
Proof.
  destruct (Reclassify pixel_120 overlapping_ranges overlapping_outputs "range"
              pixel_120_heap) as [[out h']|e] eqn:E.
  - apply (Reclassify_tests_rewritten_band pixel_120 overlapping_ranges
             overlapping_outputs "range" [mk_ndarray 0 0 0 1 1] pixel_120_heap out h'
             eq_refl ltac:(by_compute)); [| exact E].
    apply Forall_singleton. split; [simpl; lia |]. split; [reflexivity |].
    apply Forall_singleton. reflexivity.
  - vm_compute in E. discriminate E.
Defined.

(** C5 refuted: a window that runs past the last column and row of a 2
    by 2 raster raises nothing; the result is declared 6 by 6 over a 2
    by 2 band. *)
Lemma ExtractByPixels_past_the_edge_returns :
  match SpaResample_ExtractByPixels sample 0 0 5 5 sample_heap with
  | Ok (out, _) =>
      HeightInPixels out = 6%Z /\ WidthInPixels out = 6%Z /\
      (fun b => (nrows b, ncols b)) <$> default [] (TheBands out) = [(2%nat, 2%nat)]
  | Raise _ => False
  end.
Proof. vm_compute. by repeat split. Qed.

Lemma ExtractByPixels_shape_and_origin_run :
  exists out bs',
    SpaResample_ExtractByPixels sample 1 0 5 1 sample_heap = Ok (out, sample_heap) /\
    HeightInPixels out = (1 - 0 + 1)%Z /\ WidthInPixels out = (5 - 1 + 1)%Z /\
    XMin out = XMin sample + Qc_of_Z 1 * PixelWidth sample /\
    YMax out = YMax sample + Qc_of_Z 0 * PixelHeight sample /\
    TheBands out = Some bs' /\
    bs' = (fun b => np_slice b 0 (1 + 1) 1 (5 + 1)) <$> [sample_band] /\
    Forall (fun b' =>
      Z.of_nat (nrows b') =
        (Z.min (1 + 1) (HeightInPixels sample) - Z.min 0 (HeightInPixels sample))%Z /\
      Z.of_nat (ncols b') =
        (Z.min (5 + 1) (WidthInPixels sample) - Z.min 1 (WidthInPixels sample))%Z) bs' /\
    ((5 < WidthInPixels sample)%Z -> (1 < HeightInPixels sample)%Z ->
     Forall (fun b' => Z.of_nat (nrows b') = (1 - 0 + 1)%Z /\
                       Z.of_nat (ncols b') = (5 - 1 + 1)%Z) bs').
Proof.
  apply (ExtractByPixels_shape_and_origin sample 1 0 5 1 [sample_band] sample_heap);
    [reflexivity | reflexivity | | lia | lia].
  apply Forall_singleton. by split.
Defined.

(** C6 at [sample] (north-up, [PixelHeight] -10): row 1 is sent 10 units
    north of the top edge instead of 10 units south, and comes back as
    row -1; a reference 15 units south of the top edge is in row 2, not
    in row 1, its floor. *)
Lemma pixel_ref_roundtrip_negates_row_run :
  (GetRefXFromPixelX sample 1 = XMin sample + Qc_of_Z 1 * PixelWidth sample /\
   GetRefYFromPixelY sample 1 = YMax sample - Qc_of_Z 1 * PixelHeight sample /\
   GetPixelXFromRefX sample (GetRefXFromPixelX sample 1) = Ok 1%Z /\
   GetPixelYFromRefY sample (GetRefYFromPixelY sample 1) = Ok (- 1)%Z /\
   GetRefYFromPixelY sample 1 <> YMax sample + Qc_of_Z 1 * PixelHeight sample) /\
  GetRefYFromPixelY sample 1 = zq 10 /\
  GetPixelYFromRefY sample (zq (-15)) = Ok 2%Z.
Proof.
  split; [| split].
  - destruct (pixel_ref_roundtrip_negates_row sample 1 1) as (HX & HY & Hx & Hy).
    destruct (Hy ltac:(is_whole 0%Z) ltac:(is_whole (-10)%Z) ltac:(is_small)
                ltac:(by_compute)) as [Hback Hne].
    split; [exact HX |]. split; [exact HY |]. split.
    + apply Hx; [is_whole 0%Z | is_whole 10%Z | is_small | by_compute].
    + split; [exact Hback | by apply Hne].
  - by_compute.
  - vm_compute. reflexivity.
Defined.

(** C7 refuted: the pixel -5 has magnitude 5, far above the threshold,
    and is replaced by zero. *)
Lemma Scale_zeroes_a_negative_pixel :
  Scale_threshold ≤ - zq (-5) /\
  read sample_heap sample_band = [[zq (-5); zq 3]; [zq 0; Q2Qc (1 # 1000000000)]] /\
  match SpaResample_Scale sample 1 sample_heap with
  | Ok (out, h') =>
      read h' sample_band = [[0; zq 3]; [0; 0]] /\
      read h' <$> default [] (TheBands out) = [[[0; zq 3]; [0; 0]]]
  | Raise _ => False
  end.
Proof.
  split; [vm_compute; discriminate |]. split; [reflexivity |].
  vm_compute. by split.
Qed.

Lemma Scale_zeroes_values_below_threshold_run :
  match SpaResample_Scale sample 1 sample_heap with
  | Ok (out, h') =>
      exists bs', TheBands out = Some bs' /\
        Forall2 (fun b b' =>
          read h' b = grid_map Scale_pixel (read sample_heap b) /\
          exists g',
            ndimage_zoom (grid_map Scale_pixel (read sample_heap b)) 1 3 "constant"
              = Ok g' /\
            read h' b' = window 0 0 (grid_shape g').1 (grid_shape g').2 g')
          [sample_band] bs'
  | Raise _ => False
  end.
Proof.
  destruct (SpaResample_Scale sample 1 sample_heap) as [[out h']|e] eqn:E.
  - apply (Scale_zeroes_values_below_threshold sample 1 [sample_band] sample_heap out h'
             eq_refl eq_refl ltac:(by_compute) sample_valid E).
  - vm_compute in E. discriminate E.
Defined.

(** C8 refuted: the band of an extract looks at the buffer of the input
    band; aligned rasters come back from [ResampleToMatch] as the very
    same rasters; and [Scale] changes the band data of its input. *)
Lemma transforms_share_and_write :
  match SpaResample_ExtractByPixels sample 0 0 0 0 sample_heap with
  | Ok (out, _) => base <$> arrays out = base <$> arrays sample
  | Raise _ => False
  end /\
  ResampleToMatch masked unmasked masked_heap = Ok ((masked, unmasked), masked_heap) /\
  match SpaResample_Scale sample 1 sample_heap with
  | Ok (_, h') => read h' sample_band <> read sample_heap sample_band
  | Raise _ => False
  end.
Proof.
  split; [vm_compute; reflexivity |]. split; [vm_compute; reflexivity |].
  vm_compute. discriminate.
Qed.

Lemma transforms_storage_run :
  match Math sample SPAMATH_ADD (InputNumber 1) sample_heap with
  | Ok (out, h') =>
      ~ shares_storage out sample /\
      forall a, a ∈ arrays sample -> read h' a = read sample_heap a
  | Raise _ => False
  end.
Proof.
  destruct (Math sample SPAMATH_ADD (InputNumber 1) sample_heap)
    as [[out h']|e] eqn:E.
  - exact (proj1 (transforms_storage sample sample sample_heap sample_valid sample_valid)
             SPAMATH_ADD 1 out h' E).
  - vm_compute in E. discriminate E.
Defined.

(** C9 refuted: a raster with a mask and no [NoDataValue] is cloned
    without its mask. *)
Lemma Clone_drops_mask_without_NoDataValue :
  TheMask masked = Some mask_array /\
  read masked_heap mask_array = [[1; 0]; [0; 0]] /\
  match Clone masked masked_heap with
  | Ok (d', _) => TheMask d' = None
  | Raise _ => False
  end.
Proof. split; [reflexivity |]. split; vm_compute; reflexivity. Qed.

Lemma Clone_copies_bands_and_guarded_mask_run :
  exists d' bs' h',
    Clone masked_nodata masked_heap = Ok (d', h') /\ masked_heap `prefix_of` h' /\
    TheBands d' = Some bs' /\
    Forall2 (copy_of masked_heap h') [mk_ndarray 0 0 0 2 2] bs' /\
    exists m', TheMask d' = Some m' /\ copy_of masked_heap h' mask_array m'.
Proof.
  apply (Clone_copies_bands_and_guarded_mask masked_nodata [mk_ndarray 0 0 0 2 2]
           masked_heap eq_refl).
  by_compute.
Defined.

(** C10 refuted: the first operand has a mask and no [NoDataValue]; the
    rasters are aligned already, and the result has no mask. *)
Lemma Math_drops_mask_without_NoDataValue :
  ResampleToMatch masked unmasked masked_heap = Ok ((masked, unmasked), masked_heap) /\
  TheMask masked = Some mask_array /\
  match Math masked SPAMATH_ADD (InputDataset unmasked) masked_heap with
  | Ok (out, _) => TheMask out = None
  | Raise _ => False
  end.
Proof.
  split; [vm_compute; reflexivity |]. split; [reflexivity |]. vm_compute. reflexivity.
Qed.

Lemma Math_mask_is_first_operand_clone_run :
  match Math masked_nodata SPAMATH_ADD (InputDataset unmasked) masked_heap with
  | Ok (out, h') =>
      exists Input1 Input2 h1,
        ResampleToMatch masked_nodata unmasked masked_heap = Ok ((Input1, Input2), h1) /\
        match TheMask Input1 with
        | Some m =>
            match NoDataValue Input1 with
            | Some _ =>
                exists m', TheMask out = Some m' /\ read h' m' = read h1 m /\
                           nrows m' = nrows m /\ ncols m' = ncols m
            | None => TheMask out = None
            end
        | None => TheMask out = None
        end
  | Raise _ => False
  end.
Proof.
  destruct (Math masked_nodata SPAMATH_ADD (InputDataset unmasked) masked_heap)
    as [[out h']|e] eqn:E.
  - apply (Math_mask_is_first_operand_clone masked_nodata unmasked SPAMATH_ADD
             masked_heap out h'); [by_compute | by_compute | exact E].
  - vm_compute in E. discriminate E.
Defined.

(** X1 at [sample], whose columns are 10 units wide. *)
Lemma GetPixelXFromRefX_is_the_column_run :
  exists PixelX, GetPixelXFromRefX sample (zq 15) = Ok PixelX /\
    GetRefXFromPixelX sample PixelX ≤ zq 15 /\
    zq 15 < GetRefXFromPixelX sample (PixelX + 1) /\
    forall p, GetRefXFromPixelX sample p ≤ zq 15 ->
              zq 15 < GetRefXFromPixelX sample (p + 1) -> p = PixelX.
Proof.
  exact (GetPixelXFromRefX_is_the_column sample (zq 15) ltac:(is_whole 0%Z)
           ltac:(is_whole 10%Z) ltac:(is_whole 15%Z) ltac:(reflexivity)).
Defined.

(** X2 at [sample], whose rows are 10 units high: -15 is in row 1 and
    gets row 2. *)
Lemma GetPixelYFromRefY_north_up_run :
  GetPixelYFromRefY sample (zq (-15)) = Ok 2%Z /\
  exists PixelY, GetPixelYFromRefY sample (zq (-15)) = Ok PixelY /\
    YMax sample + Qc_of_Z PixelY * PixelHeight sample ≤ zq (-15) /\
    zq (-15) < YMax sample + Qc_of_Z (PixelY - 1) * PixelHeight sample.
Proof.
  split; [vm_compute; reflexivity |].
  exact (GetPixelYFromRefY_north_up sample (zq (-15)) ltac:(is_whole 0%Z)
           ltac:(is_whole (-10)%Z) ltac:(is_whole (-15)%Z) ltac:(reflexivity)).
Defined.

(** X3 at [sample]. *)
Lemma GetBounds_corners_are_pixel_corners_run :
  GetPixelYFromRefY sample (YMax sample + Qc_of_Z 1 * PixelHeight sample) = Ok 1%Z /\
  let TheBounds := GetBounds sample in
  GetPixelXFromRefX sample TheBounds.1.1.1 = Ok 0%Z /\
  GetPixelYFromRefY sample TheBounds.2 = Ok 0%Z /\
  GetPixelXFromRefX sample TheBounds.1.2 = Ok (WidthInPixels sample) /\
  GetPixelYFromRefY sample TheBounds.1.1.2 = Ok (HeightInPixels sample).
Proof.
  exact (GetBounds_corners_are_pixel_corners sample 1 sample_georeference
           ltac:(is_small) ltac:(is_small) ltac:(is_small)
           ltac:(by_compute) ltac:(by_compute)).
Defined.

(** X4 at the lower right pixel of [sample]. *)
Lemma ExtractByPixels_bounds_run :
  match SpaResample_ExtractByPixels sample 1 1 1 1 sample_heap with
  | Ok (out, _) =>
      GetResolution out = GetResolution sample /\
      GetBounds out =
        (XMin sample + Qc_of_Z 1 * PixelWidth sample,
         YMax sample + Qc_of_Z (1 + 1) * PixelHeight sample,
         XMin sample + Qc_of_Z (1 + 1) * PixelWidth sample,
         YMax sample + Qc_of_Z 1 * PixelHeight sample)
  | Raise _ => False
  end.
Proof.
  destruct (SpaResample_ExtractByPixels sample 1 1 1 1 sample_heap) as [[out h']|e] eqn:E.
  - exact (ExtractByPixels_bounds sample 1 1 1 1 sample_heap out h' E).
  - vm_compute in E. discriminate E.
Defined.

Lemma sample_shape :
  Forall (fun b => Z.of_nat (nrows b) = HeightInPixels sample /\
                   Z.of_nat (ncols b) = WidthInPixels sample) [sample_band].
Proof. apply Forall_singleton. by split. Qed.

(** X5 at the right column of [sample]. *)
Lemma ExtractByPixels_pixels_run :
  exists out bs',
    SpaResample_ExtractByPixels sample 1 0 1 1 sample_heap = Ok (out, sample_heap) /\
    TheBands out = Some bs' /\
    Forall2 (fun b b' =>
      forall i j, (Z.of_nat i <= 1 - 0)%Z -> (Z.of_nat j <= 1 - 1)%Z ->
        pixel (read sample_heap b') i j
        = pixel (read sample_heap b) (Z.to_nat 0 + i) (Z.to_nat 1 + j))
      [sample_band] bs'.
Proof.
  exact (ExtractByPixels_pixels sample 1 0 1 1 [sample_band] sample_heap eq_refl eq_refl
           sample_shape ltac:(lia) ltac:(reflexivity) ltac:(lia) ltac:(reflexivity)).
Defined.

(** X6 at [sample]: the rectangle of its first pixel comes back as all
    2 by 2 pixels. *)
Lemma NumpyCrop_on_pixel_edges_run :
  NumpyCrop sample
    (XMin sample + Qc_of_Z 0 * PixelWidth sample, YMax sample + Qc_of_Z 1 * PixelHeight sample,
     XMin sample + Qc_of_Z 1 * PixelWidth sample, YMax sample + Qc_of_Z 0 * PixelHeight sample)
    sample_heap
  = SpaResample_ExtractByPixels sample 0 0 1 1 sample_heap.
Proof.
  exact (NumpyCrop_on_pixel_edges sample 0 0 1 1 sample_heap sample_georeference
           ltac:(is_small) ltac:(is_small) ltac:(is_small) ltac:(is_small)
           ltac:(by_compute) ltac:(by_compute)).
Defined.

(** X7 at [sample]. *)
Lemma NumpyCrop_to_own_bounds_run :
  exists out,
    NumpyCrop sample (GetBounds sample) sample_heap = Ok (out, sample_heap) /\
    TheBands out = Some [sample_band] /\
    WidthInPixels out = (WidthInPixels sample + 1)%Z /\
    HeightInPixels out = (HeightInPixels sample + 1)%Z /\
    XMin out = XMin sample /\ YMax out = YMax sample /\
    GetResolution out = GetResolution sample /\
    GetBounds out <> GetBounds sample.
Proof.
  exact (NumpyCrop_to_own_bounds sample [sample_band] sample_heap sample_georeference
           ltac:(is_small) ltac:(is_small) eq_refl eq_refl
           sample_shape ltac:(by_compute) ltac:(by_compute)).
Defined.

Lemma nodata_ds_rectangular (v : Qc) :
  Forall (fun band => rectangular (ReadAsArray band)) (RasterBands (nodata_ds v)).
Proof.
  apply Forall_singleton. split; [reflexivity |].
  repeat constructor.
Qed.

(** X8 at a new object and a 2 by 2 dataset. *)
Lemma Load_reads_header_and_bands_run :
  let ds := nodata_ds (zq (-9999)) in
  exists d bs h',
    Load SpaDatasetRaster_init (Some ds) [] = Ok (d, h') /\ [] `prefix_of` h' /\
    GetType d = Some GDT_Float32 /\
    GetWidthInPixels d = RasterXSize ds /\ GetHeightInPixels d = RasterYSize ds /\
    GetNumBands d = Z.of_nat (length bs) /\
    GetResolution d = (gt1 (GetGeoTransform ds), gt5 (GetGeoTransform ds)) /\
    XMin d = gt0 (GetGeoTransform ds) /\ YMax d = gt3 (GetGeoTransform ds) /\
    TheBands d = Some bs /\
    Forall2 (fun b band => read h' b = ReadAsArray band) bs (RasterBands ds).
Proof.
  exact (Load_reads_header_and_bands SpaDatasetRaster_init (nodata_ds (zq (-9999))) _ _ []
           eq_refl eq_refl (nodata_ds_rectangular _)).
Defined.


Lemma masked_valid : valid masked_heap masked.
Proof. by_compute. Qed.

Lemma masked_bands_wf : Forall (wf masked_heap) [mk_ndarray 0 0 0 2 2].
Proof. apply Forall_singleton. by_compute. Qed.

Lemma mask_array_wf : wf masked_heap mask_array.
Proof. by_compute. Qed.

(** X10 at [masked]: the pixel under the mask becomes 0. *)
Lemma SetMask_fills_under_old_mask_run :
  exists out bs' h',
    SetMask masked None (Some (zq 0)) masked_heap = Ok (out, h') /\
    masked_heap `prefix_of` h' /\
    GetMask out = None /\ GDALDataset out = None /\
    TheBands out = Some bs' /\ Forall (fresh_in masked_heap h') bs' /\
    Forall2 (fun b b' =>
      read h' b' = fill_where (zq 0) (read masked_heap mask_array) (read masked_heap b))
      [mk_ndarray 0 0 0 2 2] bs'.
Proof.
  exact (SetMask_fills_under_old_mask masked None (zq 0) [mk_ndarray 0 0 0 2 2] mask_array
           masked_heap eq_refl eq_refl mask_array_wf masked_bands_wf
           ltac:(apply Forall_singleton; by split)).
Defined.

(** X11 at [masked] and two classes with output values. *)
Lemma Reclassify_without_None_shares_mask_run :
  match Reclassify masked overlapping_ranges overlapping_outputs "range" masked_heap with
  | Ok (out, _) =>
      GetMask out = GetMask masked /\ NoDataValue out = NoDataValue masked /\
      (is_Some (GetMask masked) -> shares_storage out masked)
  | Raise _ => False
  end.
Proof.
  destruct (Reclassify masked overlapping_ranges overlapping_outputs "range" masked_heap)
    as [[out h']|e] eqn:E.
  - apply (Reclassify_without_None_shares_mask masked overlapping_ranges
             overlapping_outputs "range" [mk_ndarray 0 0 0 2 2] masked_heap out h'
             eq_refl masked_valid masked_bands_wf); [| reflexivity | exact E].
    intros m Hm. injection Hm as <-. split; [exact mask_array_wf |].
    apply Forall_singleton. by split.
  - vm_compute in E. discriminate E.
Defined.

(** X12 at [masked] and a class without output value: the pixels 3 and
    4 are masked with the pixel that was. *)
Lemma Reclassify_masks_None_classes_run :
  match Reclassify masked masking_ranges masking_outputs "range" masked_heap with
  | Ok (out, h') =>
      exists m', GetMask out = Some m' /\ fresh_in masked_heap h' m' /\
        read h' m' = or_mask "range" masking_ranges masking_outputs 0
                       (read masked_heap (mk_ndarray 0 0 0 2 2))
                       (read masked_heap mask_array)
  | Raise _ => False
  end.
Proof.
  destruct (Reclassify masked masking_ranges masking_outputs "range" masked_heap)
    as [[out h']|e] eqn:E.
  - apply (Reclassify_masks_None_classes masked masking_ranges masking_outputs "range"
             (mk_ndarray 0 0 0 2 2) [] masked_heap out h'
             eq_refl masked_valid masked_bands_wf); [| reflexivity | exact E].
    intros m Hm. injection Hm as <-. split; [exact mask_array_wf | by split].
  - vm_compute in E. discriminate E.
Defined.

Lemma sample_bands_wf : Forall (wf sample_heap) [sample_band].
Proof. apply Forall_singleton. by_compute. Qed.



Lemma float_ds_loaded (g : grid) (h0 : heap) (d : SpaDatasetRaster) (h : heap) :
  rectangular g ->
  Load SpaDatasetRaster_init (Some (float_ds g)) h0 = Ok (d, h) ->
  loaded_float64 (float_ds g) h0 d h.
Proof.
  intros Hg Hload. split; [discriminate |]. split; [by apply Forall_singleton |].
  by exists SpaDatasetRaster_init.
Qed.

Lemma halves_rectangular : rectangular halves.
Proof. repeat constructor. Qed.

Lemma units_rectangular : rectangular units.
Proof. repeat constructor. Qed.

(** X13 at a raster read from a band of 64-bit floats, plus 1. *)
Lemma Math_scalar_is_pixelwise_run :
  match Load SpaDatasetRaster_init (Some (float_ds halves)) [] with
  | Ok (d, h) =>
      exists out bs' h',
        Math d SPAMATH_ADD (InputNumber 1) h = Ok (out, h') /\ h `prefix_of` h' /\
        TheBands out = Some bs' /\
        Forall2 (fun band b' => read h' b' = grid_map (fun v => v + 1) (ReadAsArray band))
          (RasterBands (float_ds halves)) bs' /\
        GetType out = Math_result_type SPAMATH_ADD (Some GDT_Float64) /\
        GetBounds out = GetBounds d /\ GetResolution out = GetResolution d
  | Raise _ => False
  end.
Proof.
  destruct (Load SpaDatasetRaster_init (Some (float_ds halves)) []) as [[d h]|e] eqn:E.
  - exact (Math_scalar_is_pixelwise (float_ds halves) [] d h SPAMATH_ADD
             (fun v x => v + x) 1 (float_ds_loaded _ _ _ _ halves_rectangular E)
             ltac:(apply list_elem_of_here)).
  - vm_compute in E. discriminate E.
Defined.

Lemma masked_unmasked_shapes :
  Forall2 (fun b b2 => wf masked_heap b2 /\ same_shape b b2)
    [mk_ndarray 0 0 0 2 2] [mk_ndarray 2 0 0 2 2].
Proof. repeat constructor. Qed.

(** X14 at the product of two rasters read from bands of 64-bit
    floats. *)
Lemma Math_raster_is_pixelwise_run :
  match Load SpaDatasetRaster_init (Some (float_ds halves)) [] with
  | Ok (d1, h1) =>
      match Load SpaDatasetRaster_init (Some (float_ds units)) h1 with
      | Ok (d2, h) =>
          exists out bs' h',
            Math d1 SPAMATH_MULTIPLY (InputDataset d2) h = Ok (out, h') /\
            h `prefix_of` h' /\ TheBands out = Some bs' /\
            Forall2 (fun bb b' =>
              read h' b' = zip_with (zip_with (fun v w => v * w))
                             (ReadAsArray bb.1) (ReadAsArray bb.2))
              (zip (RasterBands (float_ds halves)) (RasterBands (float_ds units))) bs' /\
            GetType out = Math_result_type SPAMATH_MULTIPLY (Some GDT_Float64) /\
            GetBounds out = GetBounds d1 /\ GetResolution out = GetResolution d1
      | Raise _ => False
      end
  | Raise _ => False
  end.
Proof.
  destruct (Load SpaDatasetRaster_init (Some (float_ds halves)) []) as [[d1 h1]|e] eqn:E1.
  - destruct (Load SpaDatasetRaster_init (Some (float_ds units)) h1)
      as [[d2 h]|e] eqn:E2.
    + exact (Math_raster_is_pixelwise (float_ds halves) (float_ds units) [] d1 h1 d2 h
               SPAMATH_MULTIPLY (fun v w => v * w)
               (float_ds_loaded _ _ _ _ halves_rectangular E1)
               (float_ds_loaded _ _ _ _ units_rectangular E2)
               eq_refl eq_refl eq_refl ltac:(repeat constructor)
               ltac:(do 2 apply list_elem_of_further; apply list_elem_of_here)).
    + vm_compute in E1. inversion E1; subst d1 h1. vm_compute in E2. discriminate E2.
  - vm_compute in E1. discriminate E1.
Defined.

(** X15 at the maximum of [masked] and [unmasked]. *)
Lemma Math_extrema_truncate_to_Byte_run :
  exists out bs' h',
    Math masked SPAMATH_MAX (InputDataset unmasked) masked_heap = Ok (out, h') /\
    TheBands out = Some bs' /\
    Forall2 (fun bb b' =>
      read h' b' = zip_with (zip_with (fun v w =>
                     Qc_of_Z (py_int (if Qc_ltb v w then w else v))))
                     (read masked_heap bb.1) (read masked_heap bb.2))
      (zip [mk_ndarray 0 0 0 2 2] [mk_ndarray 2 0 0 2 2]) bs' /\
    GetType out = Some GDT_Byte.
Proof.
  exact (Math_extrema_truncate_to_Byte masked unmasked SPAMATH_MAX
           (fun v w => if Qc_ltb v w then w else v)
           (mk_ndarray 0 0 0 2 2) [] [mk_ndarray 2 0 0 2 2] masked_heap
           ltac:(apply list_elem_of_here)
           eq_refl eq_refl eq_refl eq_refl eq_refl masked_valid masked_bands_wf
           masked_unmasked_shapes ltac:(unfold grid_all, fits_int64; by_compute)
           ltac:(unfold grid_all, fits_int64; by_compute)).
Defined.

(** X16 at the maximum of [sample] and 1. *)
Lemma Math_extrema_with_number_raise_run :
  Math sample SPAMATH_MAX (InputNumber 1) sample_heap = Raise IndexError.
Proof.
  exact (Math_extrema_with_number_raise sample SPAMATH_MAX 1 sample_band [] sample_heap
           ltac:(apply list_elem_of_here) eq_refl sample_valid).
Defined.

(** X17 at the operation code 0. *)
Lemma Math_unknown_operation_returns_no_bands_run :
  exists out h',
    Math sample 0 (InputNumber 1) sample_heap = Ok (out, h') /\
    TheBands out = Some [] /\ GetNumBands out = GetNumBands sample /\
    GetBounds out = GetBounds sample.
Proof.
  exact (Math_unknown_operation_returns_no_bands sample 0 1 [sample_band] sample_heap
           ltac:(by_compute) eq_refl sample_valid).
Defined.

(** X18 at 1 minus a raster read from a band of 64-bit floats: the
    pixel one half becomes minus one half. *)
Lemma Subtract_number_first_is_swapped_run :
  match Load SpaDatasetRaster_init (Some (float_ds halves)) [] with
  | Ok (d, h) =>
      exists out bs' h',
        Subtract (InputNumber 1) (InputDataset d) h = Ok (out, h') /\
        Subtract (InputDataset d) (InputNumber 1) h = Ok (out, h') /\
        TheBands out = Some bs' /\
        Forall2 (fun band b' =>
          read h' b' = grid_map (fun v => v - 1) (ReadAsArray band))
          (RasterBands (float_ds halves)) bs'
  | Raise _ => False
  end /\
  match (d <- Load SpaDatasetRaster_init (Some (float_ds halves)) ;;
         Subtract (InputNumber 1) (InputDataset d)) [] with
  | Ok (out, h') =>
      show_grid <$> (read h' <$> default [] (TheBands out))
      = [[[-1 # 2; 1]; [-4; 3]]]%Q
  | Raise _ => False
  end.
Proof.
  split; [| vm_compute; reflexivity].
  destruct (Load SpaDatasetRaster_init (Some (float_ds halves)) []) as [[d h]|e] eqn:E.
  - exact (Subtract_number_first_is_swapped (float_ds halves) [] d h 1
             (float_ds_loaded _ _ _ _ halves_rectangular E)).
  - vm_compute in E. discriminate E.
Defined.

(** X20 at [sample]. *)
Lemma AllocateArray_gives_zero_bands_run :
  exists d bs h',
    AllocateArray sample sample_heap = Ok ((d, bs), h') /\ sample_heap `prefix_of` h' /\
    TheBands d = Some bs /\ length bs = Z.to_nat (NumBands sample) /\
    Forall (zeros_in (HeightInPixels sample) (WidthInPixels sample) sample_heap h') bs /\
    NoDup (base <$> bs) /\
    GetMask d = GetMask sample /\ GDALDataset d = GDALDataset sample.
Proof.
  exact (AllocateArray_gives_zero_bands sample sample_heap ltac:(discriminate)
           ltac:(discriminate)).
Defined.

(** X21 at [masked], whose pixel 1 is hidden: the minimum is 2. *)
Lemma GetMinMax_bounds_the_unmasked_pixels_run :
  GetMinMax masked 0 masked_heap = Ok ((ma_value (zq 2), ma_value (zq 4)), masked_heap) /\
  exists Min Max,
    GetMinMax masked 0 masked_heap = Ok ((ma_value Min, ma_value Max), masked_heap) /\
    unmasked_pixel (read masked_heap (mk_ndarray 0 0 0 2 2))
      (read masked_heap <$> TheMask masked) Min /\
    unmasked_pixel (read masked_heap (mk_ndarray 0 0 0 2 2))
      (read masked_heap <$> TheMask masked) Max /\
    forall v, unmasked_pixel (read masked_heap (mk_ndarray 0 0 0 2 2))
                (read masked_heap <$> TheMask masked) v ->
              Min ≤ v /\ v ≤ Max.
Proof.
  split; [vm_compute; reflexivity |].
  apply (GetMinMax_bounds_the_unmasked_pixels masked 0 [mk_ndarray 0 0 0 2 2]
           (mk_ndarray 0 0 0 2 2) masked_heap (zq 4) eq_refl eq_refl).
  - by_compute.
  - intros m Hm. injection Hm as <-. split; [exact mask_array_wf | by split].
  - exists 1%nat, 1%nat. split; [reflexivity |]. exists 0. by split.
Defined.


End Runs.
